(** * LUDO_SERVER: a shallow embedding of [server.js]

    The room lifecycle engine of the Ludo socket server: matchmaking,
    the per-room state machine, the turn timer, reconnection and the
    settlement of stakes.  Every definition below is the translation of
    the JavaScript function or handler of the same name.

    Conventions of the embedding.
    - JavaScript numbers that the clients send or that hold money are [Z];
      array positions and counters that the server itself produces are [nat].
    - [Map] objects whose iteration order is observed ([rooms]) are
      insertion-ordered association lists; the others are [gmap]s.
    - Room objects are shared between the registry and the timer closures,
      so they live in a heap ([list Room.t]) and are named by their address.
    - [Date.now()] stamps ([createdAt], [joinedAt], [timestamp],
      [lastUpdate]) and the console log are not represented.
    - A handler runs to completion before the next event is taken, and the
      Redis client does not change state while a handler runs.
    - Payloads arrive parsed: an event is a constructor of [Event];
      [remove_from_matchmaking] is a [Request] of its own, served beside
      the inputs of the event loop.  The social relays ([user_chat],
      [user_emoji_id], [user_send_gift]) and the HTTP endpoints are left
      out. *)

From Stdlib Require Import ZArith String List Lia Bool.
From stdpp Require Import gmap strings list fin_maps.

Local Open Scope string_scope.

(** ** Constants *)

Module GAME_STATUS.
Inductive t := WAITING | PLAYING | FINISHED.
#[global] Instance eq_dec : EqDecision t.
Proof. solve_decision. Defined.
End GAME_STATUS.

Module PLAYER_STATUS.
Inductive t := PLAYING | WIN | LEFT | TIMEOUT.
#[global] Instance eq_dec : EqDecision t.
Proof. solve_decision. Defined.
(** The numeric value sent on the wire. *)
Definition code (s : t) : Z :=
  match s with PLAYING => 0 | WIN => 1 | LEFT => 2 | TIMEOUT => 3 end%Z.
End PLAYER_STATUS.

Definition TURN_TIMEOUT : Z := 30000.

(** ** Data model *)

Module User.
Record t := mk {
  userId : string;
  userName : string;
  coins : Z;
  level : Z;
  winCount : Z;
  lostCount : Z;
  totalGamesPlayed : Z
}.
Definition set_coins (c : Z) (u : t) : t :=
  mk (userId u) (userName u) c (level u) (winCount u) (lostCount u) (totalGamesPlayed u).
End User.

Module Player.
Record t := mk {
  userId : string;
  userName : string;
  peerId : Z;
  socketId : string;
  status : PLAYER_STATUS.t;
  numoftimeout : nat
}.
Definition set_status (s : PLAYER_STATUS.t) (p : t) : t :=
  mk (userId p) (userName p) (peerId p) (socketId p) s (numoftimeout p).
Definition set_socketId (s : string) (p : t) : t :=
  mk (userId p) (userName p) (peerId p) s (status p) (numoftimeout p).
Definition set_numoftimeout (n : nat) (p : t) : t :=
  mk (userId p) (userName p) (peerId p) (socketId p) (status p) n.
End Player.

Module Move.
Record t := mk { peerId : Z; tokenId : Z; tokenValue : Z }.
End Move.

Module GameData.
Record t := mk { lastDice : Z; moves : list Move.t }.
End GameData.

Module Room.
Record t := mk {
  roomId : string;
  hostUserId : string;
  betAmount : Z;
  maxPlayers : Z;
  status : GAME_STATUS.t;
  players : list Player.t;
  currentTurn : nat;
  turnTimer : option nat;
  gameData : GameData.t
}.
Definition set_status (s : GAME_STATUS.t) (r : t) : t :=
  mk (roomId r) (hostUserId r) (betAmount r) (maxPlayers r) s (players r)
     (currentTurn r) (turnTimer r) (gameData r).
Definition set_players (ps : list Player.t) (r : t) : t :=
  mk (roomId r) (hostUserId r) (betAmount r) (maxPlayers r) (status r) ps
     (currentTurn r) (turnTimer r) (gameData r).
Definition set_currentTurn (n : nat) (r : t) : t :=
  mk (roomId r) (hostUserId r) (betAmount r) (maxPlayers r) (status r) (players r)
     n (turnTimer r) (gameData r).
Definition set_turnTimer (h : option nat) (r : t) : t :=
  mk (roomId r) (hostUserId r) (betAmount r) (maxPlayers r) (status r) (players r)
     (currentTurn r) h (gameData r).
Definition set_gameData (g : GameData.t) (r : t) : t :=
  mk (roomId r) (hostUserId r) (betAmount r) (maxPlayers r) (status r) (players r)
     (currentTurn r) (turnTimer r) g.
End Room.

(** One entry of the array that [calculateGameResults] returns. *)
Module Result.
Record t := mk {
  user_name : string;
  user_id : string;
  winning_coin : Z;
  player_rank : Z;
  player_status : PLAYER_STATUS.t
}.
End Result.

(** ** Helper functions of [server.js] *)

Definition createRoom (roomId hostUserId : string) (betAmount playerCount : Z) : Room.t :=
  {| Room.roomId := roomId;
     Room.hostUserId := hostUserId;
     Room.betAmount := betAmount;
     Room.maxPlayers := playerCount;
     Room.status := GAME_STATUS.WAITING;
     Room.players := [];
     Room.currentTurn := 0;
     Room.turnTimer := None;
     Room.gameData := {| GameData.lastDice := 0; GameData.moves := [] |} |}.

Definition createPlayer (userId userName : string) (peerId : Z) (socketId : string) : Player.t :=
  {| Player.userId := userId;
     Player.userName := userName;
     Player.peerId := peerId;
     Player.socketId := socketId;
     Player.status := PLAYER_STATUS.PLAYING;
     Player.numoftimeout := 0 |}.

Definition is_playing (p : Player.t) : bool :=
  bool_decide (Player.status p = PLAYER_STATUS.PLAYING).

Definition is_win (p : Player.t) : bool :=
  bool_decide (Player.status p = PLAYER_STATUS.WIN).

(** [room.players.filter(p => p.status === PLAYER_STATUS.PLAYING).length] *)
Definition playingCount (ps : list Player.t) : nat :=
  length (List.filter is_playing ps).

(** The [while] loop of [getNextTurn]: [fuel] is
    [room.players.length - attempts]. *)
Fixpoint scanTurn (ps : list Player.t) (fuel nextIndex : nat) : option nat :=
  match fuel with
  | O => None
  | S fuel' =>
      match ps !! nextIndex with
      | Some player =>
          if is_playing player then Some nextIndex
          else scanTurn ps fuel' ((nextIndex + 1) mod length ps)
      | None => scanTurn ps fuel' ((nextIndex + 1) mod length ps)
      end
  end.

(** [getNextTurn(room)]; [None] stands for the source's [-1]. *)
Definition getNextTurn (room : Room.t) : option nat :=
  let ps := Room.players room in
  let activePlayers := List.filter (fun p => is_playing p || is_win p) ps in
  if Nat.eqb (length activePlayers) 0 then None
  else scanTurn ps (length ps) ((Room.currentTurn room + 1) mod length ps).

(** The comparator handed to [Array.prototype.sort]. *)
Definition compareWinFirst (a b : Player.t) : Z :=
  if is_win a && negb (is_win b) then (-1)%Z
  else if negb (is_win a) && is_win b then 1%Z
  else 0%Z.

(** [Array.prototype.sort] is a stable sort; a stable insertion sort
    stands for it. *)
Fixpoint insertBy {A} (cmp : A -> A -> Z) (x : A) (l : list A) : list A :=
  match l with
  | [] => [x]
  | y :: l' => if (cmp x y <=? 0)%Z then x :: y :: l' else y :: insertBy cmp x l'
  end.

Fixpoint sortBy {A} (cmp : A -> A -> Z) (l : list A) : list A :=
  match l with
  | [] => []
  | x :: l' => insertBy cmp x (sortBy cmp l')
  end.

(** The body of the [map] callback of [calculateGameResults]. *)
Definition resultOf (betAmount playerCount : Z) (index : nat) (player : Player.t) : Result.t :=
  let player_rank := (Z.of_nat index + 1)%Z in
  let winning_coin :=
    if is_win player then
      if (playerCount =? 2)%Z then (betAmount * 2)%Z
      else if (playerCount =? 4)%Z then
        if (player_rank =? 1)%Z then (betAmount * 3)%Z
        else if (player_rank =? 2)%Z then betAmount
        else 0%Z
      else 0%Z
    else 0%Z in
  {| Result.user_name := Player.userName player;
     Result.user_id := Player.userId player;
     Result.winning_coin := winning_coin;
     Result.player_rank := player_rank;
     Result.player_status := Player.status player |}.

Definition calculateGameResults (room : Room.t) : list Result.t :=
  let betAmount := Room.betAmount room in
  let playerCount := Room.maxPlayers room in
  let sortedPlayers := sortBy compareWinFirst (Room.players room) in
  imap (resultOf betAmount playerCount) sortedPlayers.

(** Sum of [winning_coin] over a results array. *)
Definition totalWinning (results : list Result.t) : Z :=
  foldr (fun r acc => (Result.winning_coin r + acc)%Z) 0%Z results.

(** ** Sockets, outbound events and timers *)

(** The fields the server keeps on a socket object, and the broadcast
    groups the socket has joined. *)
Module Socket.
Record t := mk {
  userId : option string;
  currentRoomId : option string;
  joined : list string
}.
Definition fresh : t := mk None None [].
Definition set_userId (u : option string) (s : t) : t := mk u (currentRoomId s) (joined s).
Definition set_currentRoomId (r : option string) (s : t) : t := mk (userId s) r (joined s).
Definition set_joined (j : list string) (s : t) : t := mk (userId s) (currentRoomId s) j.
End Socket.

(** [socket.emit], [io.to(room).emit] and [socket.to(room).emit]. *)
Inductive Target :=
| ToSocket (socketId : string)
| ToRoom (room : string)
| ToRoomExcept (room : string) (sender : string).

(** One element of [userdata] in [game_start]. *)
Module GameStartUser.
Record t := mk {
  peer_id : Z;
  user_id : string;
  user_name : string;
  user_coin : Z;
  numof_win : Z;
  numof_lose : Z;
  user_level : Z;
  login_type : string
}.
End GameStartUser.

Inductive Payload :=
| auth_token_msg (user_id : string)
| user_data_msg (u : User.t)
| error_msg (message : string)
| insufficient_coins_msg (required current : Z)
| friend_error_response_msg (message : string)
| friend_room_code_msg (room_code : string)
| player_joined_msg (peer_id : Z) (user_name : string) (player_count : nat) (max_players : Z)
| game_start_msg (room_id : string) (room_coin : Z) (userdata : list GameStartUser.t)
| dice_recieved_msg (peer_id dice_face : Z)
| token_recieved_msg (peer_id token_id token_value dice_face : Z)
| turn_changed_msg (peer_id : Z)
| user_timeout_counter_msg (peer_id : Z) (numoftimeout : nat)
| user_timeout_msg (peer_id : Z)
| win_game_msg (peer_id : Z)
| leave_room_msg (peer_id : Z)
| game_over_msg (results : list Result.t)
| game_over_reason_msg (reason : string)
| room_not_found_msg (message : string)
| previous_room_data_msg (room_id : string) (peer_id : Z) (turn_id : nat)
    (players : list (Z * string * string * PLAYER_STATUS.t)) (game_data : GameData.t).

Record Emit := mkEmit { target : Target; payload : Payload }.

(** The closures handed to [setTimeout], with what each one captures. *)
Inductive Callback :=
| TurnTimeout (room : nat)
| DelayedGameOver (room : nat)
| RoomCleanup (room_id : string)
| DisconnectGrace (socketId : string) (roomId : string) (userId : string) (peerId : Z).

Module Timer.
Record t := mk { handle : nat; delay : Z; callback : Callback }.
End Timer.

(** ** Server state *)

Record State := mkState {
  users : gmap string User.t;
  redisReady : bool;
  redisDb : gmap string User.t;
  leaderboard : gmap string Z;
  heap : list Room.t;
  rooms : list (string * nat);
  userSockets : gmap string string;
  sockets : gmap string Socket.t;
  timers : list Timer.t;
  nextTimer : nat;
  outbox : list Emit
}.

Definition set_users (x : gmap string User.t) (s : State) : State :=
  mkState x (redisReady s) (redisDb s) (leaderboard s) (heap s) (rooms s)
          (userSockets s) (sockets s) (timers s) (nextTimer s) (outbox s).
Definition set_redisDb (x : gmap string User.t) (s : State) : State :=
  mkState (users s) (redisReady s) x (leaderboard s) (heap s) (rooms s)
          (userSockets s) (sockets s) (timers s) (nextTimer s) (outbox s).
Definition set_leaderboard (x : gmap string Z) (s : State) : State :=
  mkState (users s) (redisReady s) (redisDb s) x (heap s) (rooms s)
          (userSockets s) (sockets s) (timers s) (nextTimer s) (outbox s).
Definition set_heap (x : list Room.t) (s : State) : State :=
  mkState (users s) (redisReady s) (redisDb s) (leaderboard s) x (rooms s)
          (userSockets s) (sockets s) (timers s) (nextTimer s) (outbox s).
Definition set_rooms (x : list (string * nat)) (s : State) : State :=
  mkState (users s) (redisReady s) (redisDb s) (leaderboard s) (heap s) x
          (userSockets s) (sockets s) (timers s) (nextTimer s) (outbox s).
Definition set_userSockets (x : gmap string string) (s : State) : State :=
  mkState (users s) (redisReady s) (redisDb s) (leaderboard s) (heap s) (rooms s)
          x (sockets s) (timers s) (nextTimer s) (outbox s).
Definition set_sockets (x : gmap string Socket.t) (s : State) : State :=
  mkState (users s) (redisReady s) (redisDb s) (leaderboard s) (heap s) (rooms s)
          (userSockets s) x (timers s) (nextTimer s) (outbox s).
Definition set_timers (x : list Timer.t) (s : State) : State :=
  mkState (users s) (redisReady s) (redisDb s) (leaderboard s) (heap s) (rooms s)
          (userSockets s) (sockets s) x (nextTimer s) (outbox s).
Definition set_nextTimer (x : nat) (s : State) : State :=
  mkState (users s) (redisReady s) (redisDb s) (leaderboard s) (heap s) (rooms s)
          (userSockets s) (sockets s) (timers s) x (outbox s).
Definition set_outbox (x : list Emit) (s : State) : State :=
  mkState (users s) (redisReady s) (redisDb s) (leaderboard s) (heap s) (rooms s)
          (userSockets s) (sockets s) (timers s) (nextTimer s) x.

(** The server right after start, with the Redis client ready or not. *)
Definition initial (ready : bool) : State :=
  mkState ∅ ready ∅ ∅ [] [] ∅ ∅ [] 0 [].

(** *** The [rooms] map: insertion-ordered, keyed by room id *)

Fixpoint roomsGet (k : string) (m : list (string * nat)) : option nat :=
  match m with
  | [] => None
  | (k', v) :: m' => if String.eqb k' k then Some v else roomsGet k m'
  end.

(** [Map.prototype.set] keeps the position of a key that is present. *)
Fixpoint roomsSet (k : string) (v : nat) (m : list (string * nat)) : list (string * nat) :=
  match m with
  | [] => [(k, v)]
  | (k', v') :: m' => if String.eqb k' k then (k, v) :: m' else (k', v') :: roomsSet k v m'
  end.

Definition roomsDelete (k : string) (m : list (string * nat)) : list (string * nat) :=
  List.filter (fun e => negb (String.eqb (fst e) k)) m.

(** The test of the [if] inside [findAvailableRoom]. *)
Definition available (betAmount playerCount : Z) (room : Room.t) : bool :=
  bool_decide (Room.status room = GAME_STATUS.WAITING)
  && (Room.betAmount room =? betAmount)%Z
  && (Room.maxPlayers room =? playerCount)%Z
  && (Z.of_nat (length (Room.players room)) <? playerCount)%Z.

(** The [for ... of rooms.entries()] loop of [findAvailableRoom]. *)
Fixpoint findAvailableIn (hp : list Room.t) (betAmount playerCount : Z)
    (entries : list (string * nat)) : option nat :=
  match entries with
  | [] => None
  | (_, ref) :: rest =>
      match hp !! ref with
      | Some room =>
          if available betAmount playerCount room then Some ref
          else findAvailableIn hp betAmount playerCount rest
      | None => findAvailableIn hp betAmount playerCount rest
      end
  end.

Definition findAvailableRoom (betAmount playerCount : Z) (st : State) : option nat :=
  findAvailableIn (heap st) betAmount playerCount (rooms st).

(** ** The handler monad: state, with [exit] for an early [return] *)

Definition Handler (A : Type) : Type := State -> State * option A.

Definition ret {A} (a : A) : Handler A := fun st => (st, Some a).
Definition bind {A B} (m : Handler A) (k : A -> Handler B) : Handler B :=
  fun st => match m st with
            | (st', Some a) => k a st'
            | (st', None) => (st', None)
            end.
Definition exit {A} : Handler A := fun st => (st, None).
Definition gets {A} (f : State -> A) : Handler A := fun st => (st, Some (f st)).
Definition modify (f : State -> State) : Handler unit := fun st => (f st, Some tt).
Definition exec (m : Handler unit) (st : State) : State := fst (m st).

Declare Scope handler_scope.
Delimit Scope handler_scope with handler.
Notation "x <- m ;; k" := (bind m (fun x => k))
  (at level 100, m at next level, right associativity) : handler_scope.
Notation "m ;; k" := (bind m (fun _ => k))
  (at level 100, right associativity) : handler_scope.
Local Open Scope handler_scope.

Definition emit (t : Target) (p : Payload) : Handler unit :=
  modify (fun st => set_outbox (outbox st ++ [mkEmit t p]) st).

(** Reading a room object; a dangling address never arises (the heap only
    grows) and ends the handler. *)
Definition getRoom (ref : nat) : Handler Room.t :=
  fun st => match heap st !! ref with
            | Some room => (st, Some room)
            | None => (st, None)
            end.

Definition modifyRoom (ref : nat) (f : Room.t -> Room.t) : Handler unit :=
  modify (fun st => set_heap (alter f ref (heap st)) st).

Definition modifyPlayer (ref idx : nat) (f : Player.t -> Player.t) : Handler unit :=
  modifyRoom ref (fun r => Room.set_players (alter f idx (Room.players r)) r).

Definition allocRoom (room : Room.t) : Handler nat :=
  fun st => (set_heap (heap st ++ [room]) st, Some (length (heap st))).

Definition getSocket (sid : string) (st : State) : Socket.t :=
  default Socket.fresh (sockets st !! sid).

Definition modifySocket (sid : string) (f : Socket.t -> Socket.t) : Handler unit :=
  modify (fun st => set_sockets (<[sid := f (getSocket sid st)]> (sockets st)) st).

(** [socket.join(room)] *)
Definition socketJoin (sid room : string) : Handler unit :=
  modifySocket sid (fun s => Socket.set_joined (Socket.joined s ++ [room]) s).

(** [socket.leave(room)] *)
Definition socketLeave (sid room : string) : Handler unit :=
  modifySocket sid (fun s =>
    Socket.set_joined (List.filter (fun g => negb (String.eqb g room)) (Socket.joined s)) s).

(** [setTimeout(callback, delay)], returning the new handle. *)
Definition setTimeout (cb : Callback) (delay : Z) : Handler nat :=
  fun st =>
    let h := nextTimer st in
    (set_nextTimer (S h) (set_timers (timers st ++ [Timer.mk h delay cb]) st), Some h).

(** [clearTimeout(handle)] *)
Definition clearTimeout (h : nat) : Handler unit :=
  modify (fun st =>
    set_timers (List.filter (fun t => negb (Nat.eqb (Timer.handle t) h)) (timers st)) st).

Definition startTurnTimer (ref : nat) : Handler unit :=
  room <- getRoom ref ;;
  match Room.turnTimer room with
  | Some h => clearTimeout h
  | None => ret tt
  end ;;
  h <- setTimeout (TurnTimeout ref) TURN_TIMEOUT ;;
  modifyRoom ref (Room.set_turnTimer (Some h)).

Definition clearTurnTimer (ref : nat) : Handler unit :=
  room <- getRoom ref ;;
  match Room.turnTimer room with
  | Some h => clearTimeout h ;; modifyRoom ref (Room.set_turnTimer None)
  | None => ret tt
  end.

(** ** Settlement *)

(** The body of the [for] loop of [updatePlayerCoinsAndStats] once the
    user is loaded. *)
Definition settleUser (result : Result.t) (user : User.t) : User.t :=
  let coins := (User.coins user + Result.winning_coin result)%Z in
  let totalGamesPlayed := (User.totalGamesPlayed user + 1)%Z in
  if bool_decide (Result.player_status result = PLAYER_STATUS.WIN) then
    let winCount := (User.winCount user + 1)%Z in
    User.mk (User.userId user) (User.userName user) coins (1 + winCount / 10)%Z
            winCount (User.lostCount user) totalGamesPlayed
  else
    User.mk (User.userId user) (User.userName user) coins (User.level user)
            (User.winCount user) (User.lostCount user + 1)%Z totalGamesPlayed.

(** [isRedisConnected() ? await getUser(id) : users.get(id)] *)
Definition loadUser (user_id : string) (st : State) : option User.t :=
  if redisReady st then redisDb st !! user_id else users st !! user_id.

(** [saveUser(id, user)] when Redis is ready, [users.set(id, user)] otherwise. *)
Definition storeUser (user_id : string) (user : User.t) : Handler unit :=
  modify (fun st =>
    if redisReady st then set_redisDb (<[user_id := user]> (redisDb st)) st
    else set_users (<[user_id := user]> (users st)) st).

Definition updateLeaderboard (user_id : string) (winCount : Z) : Handler unit :=
  modify (fun st => set_leaderboard (<[user_id := winCount]> (leaderboard st)) st).

Fixpoint updatePlayerCoinsAndStats (results : list Result.t) : Handler unit :=
  match results with
  | [] => ret tt
  | result :: rest =>
      ouser <- gets (loadUser (Result.user_id result)) ;;
      match ouser with
      | None => ret tt
      | Some user =>
          let user := settleUser result user in
          storeUser (Result.user_id result) user ;;
          ready <- gets redisReady ;;
          if ready then updateLeaderboard (Result.user_id result) (User.winCount user)
          else ret tt
      end ;;
      updatePlayerCoinsAndStats rest
  end.

(** The three lines that end a game: compute, credit, announce. *)
Definition settleAndAnnounce (ref : nat) (group : string) : Handler unit :=
  room <- getRoom ref ;;
  let results := calculateGameResults room in
  updatePlayerCoinsAndStats results ;;
  emit (ToRoom group) (game_over_msg results).

(** [Array.prototype.find], returning the element with its position (the
    element is an object of the array, which the caller may mutate). *)
Fixpoint findWith {A} (f : A -> bool) (l : list A) : option (nat * A) :=
  match l with
  | [] => None
  | x :: l' =>
      if f x then Some (0, x)
      else match findWith f l' with
           | Some (i, y) => Some (S i, y)
           | None => None
           end
  end.

(** [array[i]] for an index that a client sent. *)
Definition indexOf (i : Z) : option nat :=
  if (i <? 0)%Z then None else Some (Z.to_nat i).

Definition gameStartUser (p : Player.t) : GameStartUser.t :=
  GameStartUser.mk (Player.peerId p) (Player.userId p) (Player.userName p)
                   1000 0 0 1 "Guest".

(** ** The turn timer callback, and the other timer callbacks *)

Definition turnTimeout (ref : nat) : Handler unit :=
  room <- getRoom ref ;;
  let cur := Room.currentTurn room in
  match Room.players room !! cur with
  | None => ret tt
  | Some currentPlayer =>
      if is_playing currentPlayer then
        let n := S (Player.numoftimeout currentPlayer) in
        modifyPlayer ref cur (Player.set_numoftimeout n) ;;
        emit (ToRoom (Room.roomId room))
             (user_timeout_counter_msg (Player.peerId currentPlayer) n) ;;
        (if (3 <=? n)%nat then
           modifyPlayer ref cur (Player.set_status PLAYER_STATUS.TIMEOUT) ;;
           emit (ToRoom (Room.roomId room)) (user_timeout_msg (Player.peerId currentPlayer)) ;;
           room1 <- getRoom ref ;;
           let activeCount := playingCount (Room.players room1) in
           if (activeCount =? 1)%nat then
             match findWith is_playing (Room.players room1) with
             | Some (w, winner) =>
                 modifyPlayer ref w (Player.set_status PLAYER_STATUS.WIN) ;;
                 emit (ToRoom (Room.roomId room)) (win_game_msg (Player.peerId winner)) ;;
                 clearTurnTimer ref ;;
                 modifyRoom ref (Room.set_status GAME_STATUS.FINISHED) ;;
                 _ <- setTimeout (DelayedGameOver ref) 2000 ;;
                 exit
             | None => ret tt
             end
           else if (activeCount =? 0)%nat then
             clearTurnTimer ref ;;
             settleAndAnnounce ref (Room.roomId room) ;;
             exit
           else ret tt
         else ret tt) ;;
        room2 <- getRoom ref ;;
        match getNextTurn room2 with
        | Some nextTurn =>
            modifyRoom ref (Room.set_currentTurn nextTurn) ;;
            match Room.players room2 !! nextTurn with
            | Some nextPlayer =>
                emit (ToRoom (Room.roomId room)) (turn_changed_msg (Player.peerId nextPlayer)) ;;
                startTurnTimer ref
            | None => exit
            end
        | None =>
            clearTurnTimer ref ;;
            settleAndAnnounce ref (Room.roomId room)
        end
      else ret tt
  end.

(** The 2 s callback scheduled by the auto-win branch of the turn timer. *)
Definition delayedGameOver (ref : nat) : Handler unit :=
  room <- getRoom ref ;;
  settleAndAnnounce ref (Room.roomId room).

(** The 10 s callback scheduled by [win_game]. *)
Definition roomCleanup (room_id : string) : Handler unit :=
  modify (fun st => set_rooms (roomsDelete room_id (rooms st)) st).

(** The 30 s callback scheduled by [disconnect]. *)
Definition disconnectGrace (sid roomId userId : string) (peerId : Z) : Handler unit :=
  sock <- gets (getSocket sid) ;;
  match Socket.currentRoomId sock with
  | None => ret tt
  | Some rid =>
      oref <- gets (fun st => roomsGet rid (rooms st)) ;;
      match oref with
      | None => ret tt
      | Some ref =>
          currentRoom <- getRoom ref ;;
          match findWith (fun p => String.eqb (Player.userId p) userId)
                         (Room.players currentRoom) with
          | None => ret tt
          | Some (i, currentPlayer) =>
              if String.eqb (Player.socketId currentPlayer) sid then
                modifyPlayer ref i (Player.set_status PLAYER_STATUS.TIMEOUT) ;;
                emit (ToRoomExcept roomId sid) (user_timeout_msg peerId)
              else ret tt
          end
      end
  end.

Definition runCallback (cb : Callback) : Handler unit :=
  match cb with
  | TurnTimeout ref => turnTimeout ref
  | DelayedGameOver ref => delayedGameOver ref
  | RoomCleanup room_id => roomCleanup room_id
  | DisconnectGrace sid roomId userId peerId => disconnectGrace sid roomId userId peerId
  end.

(** ** Inbound event handlers

    [sid] is [socket.id] of the connection the event arrived on. *)

Definition add_user (sid user_id user_name : string) : Handler unit :=
  modify (fun st => set_userSockets (<[user_id := sid]> (userSockets st)) st) ;;
  modifySocket sid (Socket.set_userId (Some user_id)) ;;
  emit (ToSocket sid) (auth_token_msg user_id).

(** For a new user the log line after the save reads the undeclared
    variable [userName]: the [ReferenceError] is caught by the handler,
    which answers with [error] instead of [user_data]. *)
Definition get_userdata (sid user_id user_name : string) : Handler unit :=
  ouser <- gets (loadUser user_id) ;;
  match ouser with
  | None =>
      storeUser user_id (User.mk user_id user_name 1000 1 0 0 0) ;;
      emit (ToSocket sid) (error_msg "Failed to get user data")
  | Some user => emit (ToSocket sid) (user_data_msg user)
  end.

(** The block shared by [request_join] and [friend_join_room] that
    starts the game of a full room; [arm] tells whether the turn timer is
    started ([request_join] does, [friend_join_room] does not). *)
Definition startGameIfFull (ref : nat) (group : string) (room_coin : Z) (arm : bool)
  : Handler unit :=
  room <- getRoom ref ;;
  if (Z.of_nat (length (Room.players room)) =? Room.maxPlayers room)%Z then
    modifyRoom ref (Room.set_status GAME_STATUS.PLAYING) ;;
    modifyRoom ref (Room.set_currentTurn 0) ;;
    emit (ToRoom group)
         (game_start_msg (Room.roomId room) room_coin (gameStartUser <$> Room.players room)) ;;
    if arm then startTurnTimer ref else ret tt
  else ret tt.

(** [uuid] is the value [uuidv4()] returns if it is called. *)
Definition request_join (sid user_id user_name : string) (bet_amount player_count : Z)
    (uuid : string) : Handler unit :=
  ouser <- gets (loadUser user_id) ;;
  match ouser with
  | None => emit (ToSocket sid) (error_msg "User not found") ;; exit
  | Some user =>
      if (User.coins user <? bet_amount)%Z then
        emit (ToSocket sid) (insufficient_coins_msg bet_amount (User.coins user)) ;; exit
      else
        storeUser user_id (User.set_coins (User.coins user - bet_amount) user) ;;
        found <- gets (findAvailableRoom bet_amount player_count) ;;
        ref <- match found with
               | Some ref => ret ref
               | None =>
                   ref <- allocRoom (createRoom uuid user_id bet_amount player_count) ;;
                   modify (fun st => set_rooms (roomsSet uuid ref (rooms st)) st) ;;
                   ret ref
               end ;;
        room <- getRoom ref ;;
        let player :=
          createPlayer user_id user_name (Z.of_nat (length (Room.players room))) sid in
        modifyRoom ref (fun r => Room.set_players (Room.players r ++ [player]) r) ;;
        socketJoin sid (Room.roomId room) ;;
        modifySocket sid (Socket.set_currentRoomId (Some (Room.roomId room))) ;;
        startGameIfFull ref (Room.roomId room) bet_amount true
  end.

(** [minted] is the value of [uuidv4().substring(0, 6).toUpperCase()] if it
    is evaluated; an absent or empty [room_code] is falsy.  The user is
    read from the in-memory [users] map whatever the state of Redis, and
    is debited in place. *)
Definition friend_create_room (sid user_id user_name : string) (bet_amount player_count : Z)
    (room_code : option string) (minted : string) : Handler unit :=
  ouser <- gets (fun st => users st !! user_id) ;;
  match ouser with
  | None => emit (ToSocket sid) (friend_error_response_msg "User not found") ;; exit
  | Some user =>
      if (User.coins user <? bet_amount)%Z then
        emit (ToSocket sid) (insufficient_coins_msg bet_amount (User.coins user)) ;; exit
      else
        modify (fun st =>
          set_users (<[user_id := User.set_coins (User.coins user - bet_amount) user]>
                       (users st)) st) ;;
        let roomId :=
          match room_code with
          | Some (String a code) => String a code
          | _ => minted
          end in
        ref <- allocRoom (createRoom roomId user_id bet_amount player_count) ;;
        modify (fun st => set_rooms (roomsSet roomId ref (rooms st)) st) ;;
        modifyRoom ref (fun r =>
          Room.set_players (Room.players r ++ [createPlayer user_id user_name 0 sid]) r) ;;
        socketJoin sid roomId ;;
        modifySocket sid (Socket.set_currentRoomId (Some roomId)) ;;
        emit (ToSocket sid) (friend_room_code_msg roomId)
  end.

Definition friend_join_room (sid user_id user_name room_code : string) : Handler unit :=
  oref <- gets (fun st => roomsGet room_code (rooms st)) ;;
  match oref with
  | None => emit (ToSocket sid) (friend_error_response_msg "Room not found") ;; exit
  | Some ref =>
      room <- getRoom ref ;;
      if (Room.maxPlayers room <=? Z.of_nat (length (Room.players room)))%Z then
        emit (ToSocket sid) (friend_error_response_msg "Room is full") ;; exit
      else
        ouser <- gets (fun st => users st !! user_id) ;;
        match ouser with
        | None => emit (ToSocket sid) (friend_error_response_msg "User not found") ;; exit
        | Some user =>
            if (User.coins user <? Room.betAmount room)%Z then
              emit (ToSocket sid)
                   (insufficient_coins_msg (Room.betAmount room) (User.coins user)) ;;
              exit
            else
              modify (fun st =>
                set_users (<[user_id :=
                               User.set_coins (User.coins user - Room.betAmount room) user]>
                             (users st)) st) ;;
              if negb (bool_decide (Room.status room = GAME_STATUS.WAITING)) then
                emit (ToSocket sid) (friend_error_response_msg "Game already started") ;;
                exit
              else
                let player :=
                  createPlayer user_id user_name (Z.of_nat (length (Room.players room))) sid in
                modifyRoom ref (fun r => Room.set_players (Room.players r ++ [player]) r) ;;
                socketJoin sid room_code ;;
                modifySocket sid (Socket.set_currentRoomId (Some room_code)) ;;
                emit (ToRoom room_code)
                     (player_joined_msg (Player.peerId player) user_name
                        (S (length (Room.players room))) (Room.maxPlayers room)) ;;
                startGameIfFull ref room_code (Room.betAmount room) false
        end
  end.

Definition dice_send (sid room_id : string) (peer_id dice_face : Z) : Handler unit :=
  oref <- gets (fun st => roomsGet room_id (rooms st)) ;;
  match oref with
  | None => exit
  | Some ref =>
      clearTurnTimer ref ;;
      startTurnTimer ref ;;
      modifyRoom ref (fun r =>
        Room.set_gameData (GameData.mk dice_face (GameData.moves (Room.gameData r))) r) ;;
      emit (ToRoomExcept room_id sid) (dice_recieved_msg peer_id dice_face)
  end.

Definition token_send (sid room_id : string) (peer_id token_id token_value : Z)
  : Handler unit :=
  oref <- gets (fun st => roomsGet room_id (rooms st)) ;;
  match oref with
  | None => exit
  | Some ref =>
      clearTurnTimer ref ;;
      startTurnTimer ref ;;
      modifyRoom ref (fun r =>
        Room.set_gameData
          (GameData.mk (GameData.lastDice (Room.gameData r))
                       (GameData.moves (Room.gameData r)
                          ++ [Move.mk peer_id token_id token_value])) r) ;;
      room <- getRoom ref ;;
      emit (ToRoomExcept room_id sid)
           (token_recieved_msg peer_id token_id token_value
              (GameData.lastDice (Room.gameData room)))
  end.

Definition token_reset (sid room_id : string) (peer_id token_id token_value : Z)
  : Handler unit :=
  emit (ToRoomExcept room_id sid) (token_recieved_msg peer_id token_id token_value 0).

Definition change_turn (sid room_id : string) (peer_id : Z) : Handler unit :=
  oref <- gets (fun st => roomsGet room_id (rooms st)) ;;
  match oref with
  | None => exit
  | Some ref =>
      clearTurnTimer ref ;;
      room <- getRoom ref ;;
      match getNextTurn room with
      | None => emit (ToRoom room_id) (game_over_reason_msg "No active players") ;; exit
      | Some nextTurn =>
          modifyRoom ref (Room.set_currentTurn nextTurn) ;;
          match Room.players room !! nextTurn with
          | Some currentPlayer =>
              emit (ToRoom room_id) (turn_changed_msg (Player.peerId currentPlayer)) ;;
              startTurnTimer ref
          | None => exit
          end
      end
  end.

(** [room.players[peer_id].status = s], skipped when there is no such player. *)
Definition markPlayer (ref : nat) (peer_id : Z) (s : PLAYER_STATUS.t) : Handler unit :=
  match indexOf peer_id with
  | Some i => modifyPlayer ref i (Player.set_status s)
  | None => ret tt
  end.

Definition win_game (sid room_id : string) (peer_id player_rank : Z) : Handler unit :=
  oref <- gets (fun st => roomsGet room_id (rooms st)) ;;
  match oref with
  | None => exit
  | Some ref =>
      markPlayer ref peer_id PLAYER_STATUS.WIN ;;
      emit (ToRoomExcept room_id sid) (win_game_msg peer_id) ;;
      room <- getRoom ref ;;
      if (playingCount (Room.players room) <=? 1)%nat then
        modifyRoom ref (Room.set_status GAME_STATUS.FINISHED) ;;
        clearTurnTimer ref ;;
        settleAndAnnounce ref room_id ;;
        _ <- setTimeout (RoomCleanup room_id) 10000 ;;
        ret tt
      else ret tt
  end.

Definition leave_room (sid room_id : string) (peer_id : Z) : Handler unit :=
  oref <- gets (fun st => roomsGet room_id (rooms st)) ;;
  match oref with
  | None => exit
  | Some ref =>
      markPlayer ref peer_id PLAYER_STATUS.LEFT ;;
      socketLeave sid room_id ;;
      modifySocket sid (Socket.set_currentRoomId None) ;;
      emit (ToRoomExcept room_id sid) (leave_room_msg peer_id) ;;
      room <- getRoom ref ;;
      let activeCount := playingCount (Room.players room) in
      if (activeCount =? 0)%nat
         || (bool_decide (Room.status room = GAME_STATUS.WAITING)
             && (length (Room.players room) =? 0)%nat) then
        clearTurnTimer ref ;;
        modify (fun st => set_rooms (roomsDelete room_id (rooms st)) st)
      else if (activeCount =? 1)%nat
              && bool_decide (Room.status room = GAME_STATUS.PLAYING) then
        clearTurnTimer ref ;;
        modifyRoom ref (Room.set_status GAME_STATUS.FINISHED) ;;
        match findWith is_playing (Room.players room) with
        | Some (w, winner) =>
            modifyPlayer ref w (Player.set_status PLAYER_STATUS.WIN) ;;
            emit (ToRoom room_id) (win_game_msg (Player.peerId winner))
        | None => ret tt
        end ;;
        settleAndAnnounce ref room_id
      else ret tt
  end.

Definition get_previous_room (sid room_id user_id : string) : Handler unit :=
  oref <- gets (fun st => roomsGet room_id (rooms st)) ;;
  match oref with
  | None => emit (ToSocket sid) (room_not_found_msg "Room not found or expired") ;; exit
  | Some ref =>
      room <- getRoom ref ;;
      match findWith (fun p => String.eqb (Player.userId p) user_id) (Room.players room) with
      | None => emit (ToSocket sid) (room_not_found_msg "Player not in room") ;; exit
      | Some (i, player) =>
          modifyPlayer ref i (Player.set_socketId sid) ;;
          socketJoin sid room_id ;;
          modifySocket sid (Socket.set_currentRoomId (Some room_id)) ;;
          emit (ToSocket sid)
               (previous_room_data_msg (Room.roomId room) (Player.peerId player)
                  (Room.currentTurn room)
                  ((fun p => (Player.peerId p, Player.userId p, Player.userName p,
                              Player.status p)) <$> Room.players room)
                  (Room.gameData room))
      end
  end.

(** [if (x)] on a property that holds a string or nothing: the empty
    string is falsy, as [null] and [undefined] are. *)
Definition truthy (x : option string) : option string :=
  match x with
  | Some (String a s) => Some (String a s)
  | _ => None
  end.

(** When [disconnect] is delivered the socket has already left its
    broadcast groups.  Both [if (socket.currentRoomId)] and
    [if (socket.userId)] test truthiness. *)
Definition disconnect (sid : string) : Handler unit :=
  modifySocket sid (Socket.set_joined []) ;;
  sock <- gets (getSocket sid) ;;
  match truthy (Socket.currentRoomId sock) with
  | None => ret tt
  | Some rid =>
      oref <- gets (fun st => roomsGet rid (rooms st)) ;;
      match oref with
      | None => ret tt
      | Some ref =>
          oroom <- gets (fun st => heap st !! ref) ;;
          match oroom with
          | None => ret tt
          | Some room =>
              match findWith (fun p => String.eqb (Player.socketId p) sid)
                             (Room.players room) with
              | None => ret tt
              | Some (_, player) =>
                  _ <- setTimeout (DisconnectGrace sid (Room.roomId room)
                                     (Player.userId player) (Player.peerId player)) 30000 ;;
                  ret tt
              end
          end
      end
  end ;;
  match truthy (Socket.userId sock) with
  | Some user_id =>
      modify (fun st => set_userSockets (delete user_id (userSockets st)) st)
  | None => ret tt
  end.

(** ** The event loop *)

Inductive Event :=
| E_add_user (user_id user_name : string)
| E_get_userdata (user_id user_name : string)
| E_request_join (user_id user_name : string) (room_coin_value room_players_size : Z)
    (uuid : string)
| E_friend_create_room (user_id user_name : string) (room_coin_value room_players_size : Z)
    (room_code : option string) (minted : string)
| E_friend_join_room (user_id user_name room_code : string)
| E_dice_send (room_id : string) (peer_id dice_face : Z)
| E_token_send (room_id : string) (peer_id token_id token_value : Z)
| E_token_reset (room_id : string) (peer_id token_id token_value : Z)
| E_change_turn (room_id : string) (peer_id : Z)
| E_win_game (room_id : string) (peer_id player_rank : Z)
| E_leave_room (room_id : string) (peer_id : Z)
| E_get_previous_room (room_id user_id : string)
| E_disconnect.

Definition handle (sid : string) (e : Event) : Handler unit :=
  match e with
  | E_add_user u n => add_user sid u n
  | E_get_userdata u n => get_userdata sid u n
  | E_request_join u n b c uuid => request_join sid u n b c uuid
  | E_friend_create_room u n b c code minted => friend_create_room sid u n b c code minted
  | E_friend_join_room u n code => friend_join_room sid u n code
  | E_dice_send r p d => dice_send sid r p d
  | E_token_send r p t v => token_send sid r p t v
  | E_token_reset r p t v => token_reset sid r p t v
  | E_change_turn r p => change_turn sid r p
  | E_win_game r p k => win_game sid r p k
  | E_leave_room r p => leave_room sid r p
  | E_get_previous_room r u => get_previous_room sid r u
  | E_disconnect => disconnect sid
  end.

(** What the server reacts to: an event on a socket, or a pending timer
    that expires. *)
Inductive Input :=
| Recv (sid : string) (e : Event)
| Fire (handle : nat).

Definition pendingTimer (h : nat) (st : State) : option Timer.t :=
  List.find (fun t => Nat.eqb (Timer.handle t) h) (timers st).

Definition step (i : Input) (st : State) : State :=
  match i with
  | Recv sid e => exec (handle sid e) st
  | Fire h =>
      match pendingTimer h st with
      | Some t => exec (clearTimeout h ;; runCallback (Timer.callback t)) st
      | None => st
      end
  end.

Definition run (inputs : list Input) (st : State) : State :=
  fold_left (fun st i => step i st) inputs st.

(** The sockets an emission reaches. *)
Definition inGroup (room : string) (s : Socket.t) : bool :=
  existsb (String.eqb room) (Socket.joined s).

Definition recipients (st : State) (t : Target) : list string :=
  match t with
  | ToSocket sid => [sid]
  | ToRoom room =>
      List.filter (fun sid => inGroup room (getSocket sid st))
                  (map_to_list (sockets st)).*1
  | ToRoomExcept room sender =>
      List.filter (fun sid => inGroup room (getSocket sid st)
                              && negb (String.eqb sid sender))
                  (map_to_list (sockets st)).*1
  end.

(** ** Vocabulary of the statements *)

(** The roster has a player at position [i] whose status is PLAYING. *)
Definition playingAt (ps : list Player.t) (i : nat) : Prop :=
  exists p, ps !! i = Some p /\ Player.status p = PLAYER_STATUS.PLAYING.

(** A room that [findAvailableRoom] accepts. *)
Definition Available (betAmount playerCount : Z) (room : Room.t) : Prop :=
  Room.status room = GAME_STATUS.WAITING /\
  Room.betAmount room = betAmount /\
  Room.maxPlayers room = playerCount /\
  (Z.of_nat (length (Room.players room)) < playerCount)%Z.

(** The pending timers once [clearTimeout] has run on an optional handle. *)
Definition cancel (h : option nat) (ts : list Timer.t) : list Timer.t :=
  match h with
  | Some h => List.filter (fun t => negb (Nat.eqb (Timer.handle t) h)) ts
  | None => ts
  end.

(** The user store: what settlement reads and writes. *)
Definition store (st : State) : gmap string User.t * bool * gmap string User.t * gmap string Z :=
  (users st, redisReady st, redisDb st, leaderboard st).

(** Everything but the user store. *)
Definition sameGame (st1 st2 : State) : Prop :=
  heap st1 = heap st2 /\ rooms st1 = rooms st2 /\ userSockets st1 = userSockets st2 /\
  sockets st1 = sockets st2 /\ timers st1 = timers st2 /\ nextTimer st1 = nextTimer st2 /\
  outbox st1 = outbox st2.

(** [room] once [room.players[peer_id].status = s] has run. *)
Definition marked (peer_id : Z) (s : PLAYER_STATUS.t) (room : Room.t) : Room.t :=
  match indexOf peer_id with
  | Some i => Room.set_players (alter (Player.set_status s) i (Room.players room)) room
  | None => room
  end.

(** [room] after the turn timer has given [currentPlayer], the player at
    [currentTurn], one more strike and marked it TIMEOUT. *)
Definition struckOut (room : Room.t) (currentPlayer : Player.t) : Room.t :=
  Room.set_players
    (<[Room.currentTurn room :=
         Player.set_status PLAYER_STATUS.TIMEOUT
           (Player.set_numoftimeout (S (Player.numoftimeout currentPlayer)) currentPlayer)]>
       (Room.players room)) room.

(** Number of players of a roster whose status is WIN. *)
Definition winCount (ps : list Player.t) : nat := length (List.filter is_win ps).

(** The closing socket [sid] holds a seat: its [currentRoomId] is the
    non-empty id [rid], which is registered for the room [room] at address
    [ref], and [player], at position [i], is the first player of that room
    bound to [sid]. *)
Definition holdsSeat (sid : string) (st : State) (rid : string) (ref : nat)
    (room : Room.t) (i : nat) (player : Player.t) : Prop :=
  Socket.currentRoomId (getSocket sid st) = Some rid
  /\ rid <> EmptyString
  /\ roomsGet rid (rooms st) = Some ref
  /\ heap st !! ref = Some room
  /\ Room.players room !! i = Some player
  /\ Player.socketId player = sid
  /\ forall j q, j < i -> Room.players room !! j = Some q -> Player.socketId q <> sid.

(** *** What the end of a game amounts to *)

(** What the entry at position [i] (from 0) of the results of a game is
    paid: nothing unless its status is WIN; in a 2-player room twice the
    bet; in a 4-player room three times the bet at the first position, the
    bet at the second, nothing further down; nothing in a room of another
    size. *)
Definition prize (betAmount maxPlayers : Z) (i : nat) (status : PLAYER_STATUS.t) : Z :=
  match status with
  | PLAYER_STATUS.WIN =>
      if (maxPlayers =? 2)%Z then (betAmount * 2)%Z
      else if (maxPlayers =? 4)%Z then
        match i with
        | 0 => (betAmount * 3)%Z
        | 1 => betAmount
        | _ => 0%Z
        end
      else 0%Z
  | _ => 0%Z
  end.

(** The ranked results of a room: one entry per player, the players whose
    status is WIN first, in roster order, then the others, in roster order;
    the entry at position [i] has rank [i + 1] and is paid its [prize]. *)
Definition rankedResults (room : Room.t) : list Result.t :=
  let ps := Room.players room in
  imap (fun i p =>
          Result.mk (Player.userName p) (Player.userId p)
            (prize (Room.betAmount room) (Room.maxPlayers room) i (Player.status p))
            (Z.of_nat i + 1) (Player.status p))
       (List.filter (fun p => bool_decide (Player.status p = PLAYER_STATUS.WIN)) ps
          ++ List.filter (fun p => negb (bool_decide (Player.status p = PLAYER_STATUS.WIN))) ps).

(** The entries of a results array that are for the user [user_id]. *)
Definition resultsFor (user_id : string) (results : list Result.t) : list Result.t :=
  List.filter (fun r => String.eqb (Result.user_id r) user_id) results.

(** How many entries of a results array have the status WIN, and how many
    have another one. *)
Definition wonGames (results : list Result.t) : Z :=
  Z.of_nat (List.length
    (List.filter (fun r => bool_decide (Result.player_status r = PLAYER_STATUS.WIN)) results)).

Definition lostGames (results : list Result.t) : Z :=
  Z.of_nat (List.length
    (List.filter (fun r => negb (bool_decide (Result.player_status r = PLAYER_STATUS.WIN)))
       results)).

(** [user'] is [user] with the results [mine] booked: the winnings are
    added to the coins, every result counts as a game played, as a win
    when its status is WIN and as a loss otherwise, and once a win is
    booked the level is 1 + floor(wins / 10) of the new win count. *)
Definition booked (mine : list Result.t) (user user' : User.t) : Prop :=
  User.userId user' = User.userId user
  /\ User.userName user' = User.userName user
  /\ User.coins user' = (User.coins user + totalWinning mine)%Z
  /\ User.totalGamesPlayed user'
     = (User.totalGamesPlayed user + Z.of_nat (List.length mine))%Z
  /\ User.winCount user' = (User.winCount user + wonGames mine)%Z
  /\ User.lostCount user' = (User.lostCount user + lostGames mine)%Z
  /\ User.level user'
     = if (wonGames mine =? 0)%Z then User.level user
       else (1 + (User.winCount user + wonGames mine) / 10)%Z.

(** The users of [st'] are those of [st] settled with [results]: every
    user the active store (Redis or memory) knows has its results booked,
    and no user is created. *)
Definition settled (results : list Result.t) (st st' : State) : Prop :=
  redisReady st' = redisReady st
  /\ forall user_id,
       match loadUser user_id st with
       | Some user =>
           exists user',
             loadUser user_id st' = Some user'
             /\ booked (resultsFor user_id results) user user'
       | None => loadUser user_id st' = None
       end.

(** *** Scenarios: event sequences from the initial state (Redis not
    connected, so users live in the in-memory map) *)

(** Ann and Bob ask for their profiles, which creates them with 1000 coins. *)
Definition twoUsers : list Input :=
  [Recv "sA" (E_get_userdata "A" "Ann"); Recv "sB" (E_get_userdata "B" "Bob")].

(** Both are matched into a 2-player room with bet 100: the game starts. *)
Definition twoPlayerGame : list Input :=
  (twoUsers ++ [Recv "sA" (E_request_join "A" "Ann" 100 2 "r1");
               Recv "sB" (E_request_join "B" "Bob" 100 2 "r2")])%list.

(** Both are matched into a 4-player room with bet 100, which keeps waiting. *)
Definition waitingRoom : list Input :=
  (twoUsers ++ [Recv "sA" (E_request_join "A" "Ann" 100 4 "r1");
               Recv "sB" (E_request_join "B" "Bob" 100 4 "r2")])%list.

(** Ann creates the 2-player friend room ABC123 and, alone in it, sends
    [win_game]: the room is FINISHED with a free seat. *)
Definition finishedFriendRoom : list Input :=
  (twoUsers ++ [Recv "sA" (E_friend_create_room "A" "Ann" 100 2 (Some "ABC123") "X1Y2Z3");
               Recv "sA" (E_win_game "ABC123" 0 1)])%list.

(** Bob's socket closes and the grace timer (handle 1) expires; then Ann
    lets her turn timer expire three times (handles 0, 2, 3). *)
Definition everybodyTimesOut : list Input :=
  (twoPlayerGame ++ [Recv "sB" E_disconnect; Fire 1; Fire 0; Fire 2; Fire 3])%list.

Definition coinsOf (user_id : string) (st : State) : option Z :=
  User.coins <$> users st !! user_id.

(** The players seated in the room registered under [room_id]. *)
Definition seated (room_id : string) (st : State) : list string :=
  match roomsGet room_id (rooms st) with
  | Some ref =>
      match heap st !! ref with
      | Some room => Player.userId <$> Room.players room
      | None => []
      end
  | None => []
  end.

Definition statusOf (room_id : string) (st : State) : option GAME_STATUS.t :=
  match roomsGet room_id (rooms st) with
  | Some ref => Room.status <$> heap st !! ref
  | None => None
  end.

(** ** The rest of the server *)

(** The [for ... of rooms.entries()] loop of the [remove_from_matchmaking]
    handler: the first WAITING room that seats [userId] loses that seat
    ([splice]), the socket leaves its group, an emptied room is
    unregistered, and the loop breaks.  An entry whose address is not in
    the heap, which never arises, is passed over. *)
Fixpoint removeFromWaiting (sid userId : string) (entries : list (string * nat))
  : Handler unit :=
  match entries with
  | [] => ret tt
  | (roomId, ref) :: rest =>
      oroom <- gets (fun st => heap st !! ref) ;;
      match oroom with
      | None => removeFromWaiting sid userId rest
      | Some room =>
          if bool_decide (Room.status room = GAME_STATUS.WAITING) then
            match findWith (fun p => String.eqb (Player.userId p) userId)
                           (Room.players room) with
            | Some (playerIndex, _) =>
                modifyRoom ref (fun r =>
                  Room.set_players (delete playerIndex (Room.players r)) r) ;;
                socketLeave sid roomId ;;
                room' <- getRoom ref ;;
                if (length (Room.players room') =? 0)%nat then
                  modify (fun st => set_rooms (roomsDelete roomId (rooms st)) st)
                else ret tt
            | None => removeFromWaiting sid userId rest
            end
          else removeFromWaiting sid userId rest
      end
  end.

(** [userId] is the raw payload of the event. *)
Definition remove_from_matchmaking (sid userId : string) : Handler unit :=
  entries <- gets rooms ;;
  removeFromWaiting sid userId entries.

(** Everything the server reacts to: the inputs of [step], and
    [remove_from_matchmaking]. *)
Inductive Request :=
| Loop (i : Input)
| RemoveFromMatchmaking (sid userId : string).

Definition serve (r : Request) (st : State) : State :=
  match r with
  | Loop i => step i st
  | RemoveFromMatchmaking sid userId => exec (remove_from_matchmaking sid userId) st
  end.

Definition serveAll (requests : list Request) (st : State) : State :=
  fold_left (fun st r => serve r st) requests st.

(** *** Invariants of the server state *)

(** Pending timers have distinct handles, all below the next handle. *)
Definition timersOk (st : State) : Prop :=
  NoDup (Timer.handle <$> timers st)
  /\ Forall (fun t => Timer.handle t < nextTimer st) (timers st).

(** A pending turn timer is the one its room records in [turnTimer]. *)
Definition turnTimersOk (st : State) : Prop :=
  Forall (fun t => forall ref,
            Timer.callback t = TurnTimeout ref ->
            exists room, heap st !! ref = Some room
                         /\ Room.turnTimer room = Some (Timer.handle t))
         (timers st).

(** Registry keys are distinct, and each one names a room object whose
    [roomId] is the key. *)
Definition registryOk (st : State) : Prop :=
  NoDup (rooms st).*1
  /\ Forall (fun e => exists room, heap st !! e.2 = Some room /\ Room.roomId room = e.1)
            (rooms st).

(** A room in play is full, and a room of positive size is never over-full. *)
Definition seatsOk (room : Room.t) : Prop :=
  (Room.status room = GAME_STATUS.PLAYING ->
   Z.of_nat (length (Room.players room)) = Room.maxPlayers room)
  /\ (1 <= Room.maxPlayers room ->
      Z.of_nat (length (Room.players room)) <= Room.maxPlayers room)%Z.

(** Peer ids are the positions in the roster. *)
Definition peerIdsOk (room : Room.t) : Prop :=
  forall i p, Room.players room !! i = Some p -> Player.peerId p = Z.of_nat i.

(** What a move of the game may do to a room object: id, host, bet, size
    and turn timer stay, the status stays or becomes FINISHED, and the
    players keep their positions and peer ids. *)
Definition evolves (r r' : Room.t) : Prop :=
  Room.roomId r' = Room.roomId r
  /\ Room.turnTimer r' = Room.turnTimer r
  /\ Room.maxPlayers r' = Room.maxPlayers r
  /\ Room.hostUserId r' = Room.hostUserId r
  /\ Room.betAmount r' = Room.betAmount r
  /\ (Room.status r' = Room.status r \/ Room.status r' = GAME_STATUS.FINISHED)
  /\ Forall2 (fun p p' => Player.peerId p' = Player.peerId p)
             (Room.players r) (Room.players r').

(** The order of the room lifecycle. *)
Definition statusRank (s : GAME_STATUS.t) : nat :=
  match s with
  | GAME_STATUS.WAITING => 0
  | GAME_STATUS.PLAYING => 1
  | GAME_STATUS.FINISHED => 2
  end.

(** [r'] is the room object [r] at a later time: the fields set by
    [createRoom] are the same and the status has not moved back. *)
Definition laterRoom (r r' : Room.t) : Prop :=
  Room.roomId r' = Room.roomId r
  /\ Room.hostUserId r' = Room.hostUserId r
  /\ Room.betAmount r' = Room.betAmount r
  /\ Room.maxPlayers r' = Room.maxPlayers r
  /\ statusRank (Room.status r) <= statusRank (Room.status r').

(** Every room object of the heap [h0] is still in the heap of [st], at
    the same address, as a later version of itself. *)
Definition grownFrom (h0 : list Room.t) (st : State) : Prop :=
  forall ref room,
    h0 !! ref = Some room ->
    exists room', heap st !! ref = Some room' /\ laterRoom room room'.

(** The invariant, for a property [R] of the room objects. *)
Definition Inv (R : Room.t -> Prop) (st : State) : Prop :=
  timersOk st /\ turnTimersOk st /\ registryOk st /\ Forall R (heap st).

(** Users live in Redis only: the client is ready and the in-memory map
    is empty. *)
Definition redisOnly (st : State) : Prop :=
  redisReady st = true /\ users st = ∅.

(** *** A Hoare logic for handlers

    [hoare P m Q E]: from a state that satisfies [P], the computation [m]
    ends in a state that satisfies [Q a] when it returns [a], and [E] when
    it leaves the handler early. *)
Definition hoare {A} (P : State -> Prop) (m : Handler A)
    (Q : A -> State -> Prop) (E : State -> Prop) : Prop :=
  forall st, P st ->
    match m st with
    | (st', Some a) => Q a st'
    | (st', None) => E st'
    end.

(** [m] keeps the invariant [I], however it ends. *)
Definition keeps {A} (I : State -> Prop) (m : Handler A) : Prop :=
  hoare I m (fun _ => I) I.

(** *** More scenarios *)

(** Ann alone asks for a 4-player game with bet 100 and waits in room r1. *)
Definition aloneInQueue : list Input :=
  (twoUsers ++ [Recv "sA" (E_request_join "A" "Ann" 100 4 "r1")])%list.

(** Ann asks for a 2-player game with bet 100 and waits in room r1. *)
Definition oneSeatLeft : list Input :=
  (twoUsers ++ [Recv "sA" (E_request_join "A" "Ann" 100 2 "r1")])%list.

(** Ann creates the 2-player friend room ABC123 with bet 100. *)
Definition friendRoom : list Input :=
  (twoUsers ++ [Recv "sA" (E_friend_create_room "A" "Ann" 100 2 (Some "ABC123") "X1Y2Z3")])%list.

(** During the 2-player game Ann's socket closes and the grace timer
    (handle 1) expires: Ann is TIMEOUT while it is still her turn and her
    turn timer (handle 0) is pending. *)
Definition annTimedOut : list Input :=
  (twoPlayerGame ++ [Recv "sA" E_disconnect; Fire 1])%list.

(** * Properties *)

(** ** Turn advancement *)

Lemma is_playing_true p : is_playing p = true <-> Player.status p = PLAYER_STATUS.PLAYING.
Proof. unfold is_playing. apply bool_decide_eq_true. Qed.

Lemma is_playing_false p : is_playing p = false <-> Player.status p <> PLAYER_STATUS.PLAYING.
Proof. unfold is_playing. apply bool_decide_eq_false. Qed.

Lemma cyclic_step (s k n : nat) : n <> 0 -> (((s + 1) mod n) + k) mod n = (s + S k) mod n.
Proof.
  intros Hn. rewrite Nat.Div0.add_mod_idemp_l. f_equal. lia.
Qed.

Lemma scanTurn_Some ps fuel s i :
  length ps <> 0 -> s < length ps ->
  scanTurn ps fuel s = Some i ->
  exists k, k < fuel /\ i = (s + k) mod length ps /\ playingAt ps i /\
            forall j, j < k -> ~ playingAt ps ((s + j) mod length ps).
Proof.
  intros Hn. revert s. induction fuel as [|fuel IH]; intros s Hs Hscan; [discriminate|].
  simpl in Hscan.
  assert (Hs0 : (s + 0) mod length ps = s) by (rewrite Nat.add_0_r; apply Nat.mod_small; lia).
  destruct (ps !! s) as [player|] eqn:Hp.
  - destruct (is_playing player) eqn:Hpl.
    + inversion Hscan; subst i. exists 0. split; [lia|]. split; [auto|].
      split; [|intros j Hj; lia].
      exists player. split; [assumption|]. by apply is_playing_true.
    + apply IH in Hscan; [|apply Nat.mod_upper_bound; lia].
      destruct Hscan as (k & Hk & Hi & Hat & Hbefore).
      exists (S k). split; [lia|]. rewrite cyclic_step in Hi by lia.
      split; [assumption|]. split; [assumption|].
      intros [|j] Hj.
      * rewrite Hs0. intros (q & Hq & Hst). rewrite Hp in Hq. inversion Hq; subst q.
        apply is_playing_false in Hpl. contradiction.
      * rewrite <- cyclic_step by lia. apply Hbefore. lia.
  - apply lookup_ge_None in Hp. lia.
Qed.

Lemma scanTurn_None ps fuel s :
  length ps <> 0 -> s < length ps ->
  scanTurn ps fuel s = None ->
  forall j, j < fuel -> ~ playingAt ps ((s + j) mod length ps).
Proof.
  intros Hn. revert s. induction fuel as [|fuel IH]; intros s Hs Hscan j Hj; [lia|].
  simpl in Hscan.
  assert (Hs0 : (s + 0) mod length ps = s) by (rewrite Nat.add_0_r; apply Nat.mod_small; lia).
  destruct (ps !! s) as [player|] eqn:Hp.
  - destruct (is_playing player) eqn:Hpl; [discriminate|].
    destruct j as [|j].
    + rewrite Hs0. intros (q & Hq & Hst). rewrite Hp in Hq. inversion Hq; subst q.
      apply is_playing_false in Hpl. contradiction.
    + rewrite <- cyclic_step by lia. apply IH; [apply Nat.mod_upper_bound; lia|assumption|lia].
  - apply lookup_ge_None in Hp. lia.
Qed.

Lemma cyclic_reach (s i n : nat) : s < n -> i < n -> exists j, j < n /\ (s + j) mod n = i.
Proof.
  intros Hs Hi. exists ((i + n - s) mod n). split; [apply Nat.mod_upper_bound; lia|].
  rewrite Nat.Div0.add_mod_idemp_r.
  replace (s + (i + n - s)) with (i + 1 * n) by lia.
  rewrite Nat.Div0.mod_add. apply Nat.mod_small. lia.
Qed.

Lemma active_empty_no_playing (ps : list Player.t) :
  length (List.filter (fun p => is_playing p || is_win p) ps) = 0 ->
  forall p, In p ps -> Player.status p <> PLAYER_STATUS.PLAYING.
Proof.
  intros Hlen p Hin Hst.
  assert (Hf : In p (List.filter (fun p => is_playing p || is_win p) ps)).
  { apply filter_In. split; [assumption|]. apply is_playing_true in Hst. rewrite Hst. reflexivity. }
  destruct (List.filter _ ps); [inversion Hf|discriminate].
Qed.

(** C7. [getNextTurn] reports no active player exactly when no player of
    the roster is PLAYING; otherwise it returns the first position, in the
    cyclic order that starts at [(currentTurn + 1) mod N], whose player is
    PLAYING: position [(start + k) mod N] for some [k < N], every earlier
    position of the scan holding a player that is not PLAYING (WIN, LEFT
    and TIMEOUT players are skipped). *)
Theorem getNextTurn_spec (room : Room.t) :
  let ps := Room.players room in
  let N := length ps in
  let start := (Room.currentTurn room + 1) mod N in
  (getNextTurn room = None <->
     forall p, In p ps -> Player.status p <> PLAYER_STATUS.PLAYING)
  /\ (forall i, getNextTurn room = Some i ->
        exists k, k < N /\ i = (start + k) mod N /\ playingAt ps i /\
                  forall j, j < k -> ~ playingAt ps ((start + j) mod N)).
Proof.
  intros ps N start. unfold getNextTurn. fold ps. fold N. fold start.
  destruct (Nat.eqb_spec (length (List.filter (fun p => is_playing p || is_win p) ps)) 0)
    as [Hempty|Hne].
  - split; [|discriminate]. split; [|reflexivity].
    intros _. by apply active_empty_no_playing.
  - assert (HN : N <> 0).
    { unfold N. destruct ps; [simpl in Hne; congruence|simpl; lia]. }
    assert (Hstart : start < N) by (apply Nat.mod_upper_bound; assumption).
    split.
    + split.
      * intros Hnone p Hin Hst.
        apply list_elem_of_In, list_elem_of_lookup in Hin. destruct Hin as [i Hi].
        assert (Hlt : i < N) by (eapply lookup_lt_Some; eassumption).
        destruct (cyclic_reach start i N Hstart Hlt) as (j & Hj & Hji).
        eapply (scanTurn_None ps N start HN Hstart Hnone j Hj).
        fold N. rewrite Hji. exists p. auto.
      * intros Hall. destruct (scanTurn ps N start) as [i|] eqn:Hscan; [|reflexivity].
        apply scanTurn_Some in Hscan; [|assumption..].
        destruct Hscan as (k & _ & _ & (p & Hp & Hst) & _).
        exfalso. eapply Hall; [|exact Hst].
        apply list_elem_of_In, list_elem_of_lookup. eauto.
    + intros i Hscan. by apply scanTurn_Some.
Qed.

(** ** Matchmaking lookup *)

Lemma available_iff b c room : available b c room = true <-> Available b c room.
Proof.
  unfold available, Available.
  rewrite !andb_true_iff, bool_decide_eq_true, !Z.eqb_eq, Z.ltb_lt. tauto.
Qed.

Lemma available_false_iff b c room : available b c room = false <-> ~ Available b c room.
Proof. rewrite <- available_iff. destruct (available b c room); split; congruence. Qed.

Lemma findAvailableIn_Some hp b c entries ref :
  findAvailableIn hp b c entries = Some ref ->
  exists pre key post room,
    entries = (pre ++ (key, ref) :: post)%list /\ hp !! ref = Some room /\ Available b c room /\
    forall key' ref' room',
      In (key', ref') pre -> hp !! ref' = Some room' -> ~ Available b c room'.
Proof.
  induction entries as [|[key r] rest IH]; simpl; [discriminate|].
  destruct (hp !! r) as [room|] eqn:Hr.
  - destruct (available b c room) eqn:Hav.
    + intros [= <-]. exists [], key, rest, room. simpl.
      split; [reflexivity|]. split; [assumption|]. split; [by apply available_iff|].
      intros ? ? ? [].
    + intros Hfind. destruct (IH Hfind) as (pre & k & post & rm & -> & Hrm & Havl & Hpre).
      exists ((key, r) :: pre), k, post, rm. simpl.
      split; [reflexivity|]. split; [assumption|]. split; [assumption|].
      intros key' ref' room' [Heq|Hin] Hlk.
      * inversion Heq; subst. rewrite Hr in Hlk. inversion Hlk; subst.
        by apply available_false_iff.
      * eapply Hpre; eassumption.
  - intros Hfind. destruct (IH Hfind) as (pre & k & post & rm & -> & Hrm & Havl & Hpre).
    exists ((key, r) :: pre), k, post, rm. simpl.
    split; [reflexivity|]. split; [assumption|]. split; [assumption|].
    intros key' ref' room' [Heq|Hin] Hlk.
    + inversion Heq; subst. rewrite Hr in Hlk. discriminate.
    + eapply Hpre; eassumption.
Qed.

Lemma findAvailableIn_None hp b c entries :
  findAvailableIn hp b c entries = None <->
  forall key ref room, In (key, ref) entries -> hp !! ref = Some room -> ~ Available b c room.
Proof.
  induction entries as [|[key r] rest IH]; simpl.
  - split; [intros _ ? ? ? []|reflexivity].
  - destruct (hp !! r) as [room|] eqn:Hr.
    + destruct (available b c room) eqn:Hav.
      * split; [discriminate|]. intros Hall. exfalso.
        apply (Hall key r room); [by left|assumption|by apply available_iff].
      * rewrite IH. split.
        -- intros Hall k ref rm [Heq|Hin] Hlk; [|by apply (Hall k ref rm)].
           inversion Heq; subst. rewrite Hr in Hlk. inversion Hlk; subst.
           by apply available_false_iff.
        -- intros Hall k ref rm Hin Hlk. apply (Hall k ref rm); [by right|assumption].
    + rewrite IH. split.
      * intros Hall k ref rm [Heq|Hin] Hlk; [|by apply (Hall k ref rm)].
        inversion Heq; subst. rewrite Hr in Hlk. discriminate.
      * intros Hall k ref rm Hin Hlk. apply (Hall k ref rm); [by right|assumption].
Qed.



(** ** Symbolic execution of handlers *)

(** Unfolds the primitive operations of the handler monad and simplifies
    the projections of the state. *)
Ltac hsimpl :=
  cbv beta iota zeta delta
    [exec bind gets modify ret exit emit getRoom modifyRoom modifyPlayer allocRoom
     modifySocket socketJoin socketLeave setTimeout clearTimeout startTurnTimer
     clearTurnTimer storeUser updateLeaderboard getSocket markPlayer loadUser
     settleAndAnnounce] in *;
  simpl in *.

Lemma updatePlayerCoinsAndStats_run results st :
  exists st', updatePlayerCoinsAndStats results st = (st', Some tt) /\ sameGame st' st.
Proof.
  revert st. induction results as [|r rs IH]; intros st.
  - exists st. split; [reflexivity|]. repeat split.
  - simpl. hsimpl.
    destruct (redisReady st) eqn:Hrdy.
    + destruct (redisDb st !! Result.user_id r) as [u|]; hsimpl.
      * rewrite Hrdy. hsimpl. rewrite Hrdy.
        match goal with |- context [updatePlayerCoinsAndStats rs ?s] =>
          destruct (IH s) as (st' & -> & Hsame) end.
        exists st'. split; [reflexivity|]. exact Hsame.
      * destruct (IH st) as (st' & -> & Hsame). eauto.
    + destruct (users st !! Result.user_id r) as [u|]; hsimpl.
      * rewrite Hrdy. hsimpl. rewrite Hrdy.
        match goal with |- context [updatePlayerCoinsAndStats rs ?s] =>
          destruct (IH s) as (st' & -> & Hsame) end.
        exists st'. split; [reflexivity|]. exact Hsame.
      * destruct (IH st) as (st' & -> & Hsame). eauto.
Qed.

Lemma updatePlayerCoinsAndStats_store results st1 st2 :
  store st1 = store st2 ->
  store (exec (updatePlayerCoinsAndStats results) st1)
  = store (exec (updatePlayerCoinsAndStats results) st2).
Proof.
  revert st1 st2. induction results as [|r rs IH]; intros st1 st2 Hst.
  - exact Hst.
  - unfold store in Hst. injection Hst as Hu Hr Hd Hl.
    unfold exec in *. simpl. hsimpl. rewrite Hr, Hd, Hu.
    destruct (redisReady st2) eqn:Hrdy.
    + destruct (redisDb st2 !! Result.user_id r) as [u|]; hsimpl.
      * rewrite Hr, Hrdy. hsimpl. rewrite Hr, Hrdy. apply IH.
        unfold store. simpl. congruence.
      * apply IH. unfold store. congruence.
    + destruct (users st2 !! Result.user_id r) as [u|]; hsimpl.
      * rewrite Hr, Hrdy. hsimpl. rewrite Hr, Hrdy. apply IH.
        unfold store. simpl. congruence.
      * apply IH. unfold store. congruence.
Qed.

Lemma settleAndAnnounce_run ref group st room :
  heap st !! ref = Some room ->
  exists st1,
    updatePlayerCoinsAndStats (calculateGameResults room) st = (st1, Some tt)
    /\ sameGame st1 st
    /\ settleAndAnnounce ref group st
       = (set_outbox (outbox st1 ++ [mkEmit (ToRoom group)
                                        (game_over_msg (calculateGameResults room))])%list st1,
          Some tt).
Proof.
  intros Hroom.
  destruct (updatePlayerCoinsAndStats_run (calculateGameResults room) st) as (st1 & Hrun & Hsame).
  exists st1. split; [assumption|]. split; [assumption|].
  hsimpl. rewrite Hroom, Hrun. reflexivity.
Qed.

Lemma markPlayer_run ref peer_id s st room :
  heap st !! ref = Some room ->
  markPlayer ref peer_id s st = (set_heap (<[ref := marked peer_id s room]> (heap st)) st, Some tt).
Proof.
  intros Hroom. unfold markPlayer, marked. destruct (indexOf peer_id) as [i|]; hsimpl.
  - f_equal. f_equal. apply list_eq. intros j. destruct (decide (j = ref)) as [->|Hne].
    + rewrite list_lookup_alter_eq, list_lookup_insert_eq, Hroom; [reflexivity|].
      eapply lookup_lt_Some; eassumption.
    + rewrite list_lookup_alter_ne, list_lookup_insert_ne by congruence. reflexivity.
  - f_equal. rewrite list_insert_id by assumption. by destruct st.
Qed.

Lemma calculateGameResults_ext (r1 r2 : Room.t) :
  Room.betAmount r1 = Room.betAmount r2 ->
  Room.maxPlayers r1 = Room.maxPlayers r2 ->
  Room.players r1 = Room.players r2 ->
  calculateGameResults r1 = calculateGameResults r2.
Proof. unfold calculateGameResults. by intros -> -> ->. Qed.

Lemma roomsGet_delete k m : roomsGet k (roomsDelete k m) = None.
Proof.
  induction m as [|[k' v] m IH]; [reflexivity|]. simpl.
  destruct (String.eqb k' k) eqn:Hk; simpl; [assumption|]. by rewrite Hk.
Qed.

(** ** The [win_game] transition *)

(** What [win_game] does on a PLAYING room, the user store and the
    results being those of [updatePlayerCoinsAndStats] and
    [calculateGameResults]. *)
Lemma win_game_run sid room_id peer_id player_rank st ref room :
  roomsGet room_id (rooms st) = Some ref ->
  heap st !! ref = Some room ->
  Room.status room = GAME_STATUS.PLAYING ->
  let room1 := marked peer_id PLAYER_STATUS.WIN room in
  let results := calculateGameResults room1 in
  let st' := exec (win_game sid room_id peer_id player_rank) st in
  (playingCount (Room.players room1) <= 1 ->
     heap st' !! ref
       = Some (Room.set_turnTimer None (Room.set_status GAME_STATUS.FINISHED room1))
     /\ timers st'
        = (cancel (Room.turnTimer room) (timers st)
             ++ [Timer.mk (nextTimer st) 10000 (RoomCleanup room_id)])%list
     /\ store st' = store (exec (updatePlayerCoinsAndStats results) st)
     /\ outbox st'
        = (outbox st ++ [mkEmit (ToRoomExcept room_id sid) (win_game_msg peer_id);
                         mkEmit (ToRoom room_id) (game_over_msg results)])%list
     /\ roomsGet room_id (rooms st') = Some ref
     /\ forall s, roomsGet room_id (rooms (exec (runCallback (RoomCleanup room_id)) s)) = None)
  /\ (1 < playingCount (Room.players room1) ->
        heap st' !! ref = Some room1
        /\ Room.status room1 = GAME_STATUS.PLAYING
        /\ timers st' = timers st
        /\ store st' = store st
        /\ outbox st'
           = (outbox st ++ [mkEmit (ToRoomExcept room_id sid) (win_game_msg peer_id)])%list).
Proof.
  intros Hreg Hroom Hstatus room1 results st'.
  assert (Hlt : ref < length (heap st)) by (eapply lookup_lt_Some; eassumption).
  assert (Htimer : Room.turnTimer room1 = Room.turnTimer room).
  { unfold room1, marked. by destruct (indexOf peer_id). }
  assert (Hst1 : Room.status room1 = Room.status room).
  { unfold room1, marked. by destruct (indexOf peer_id). }
  remember st' as st2 eqn:E. unfold st', exec, win_game in E. clear st'.
  unfold bind at 1 in E. unfold gets at 1 in E. rewrite Hreg in E.
  unfold bind at 1 in E. rewrite (markPlayer_run _ _ _ _ _ Hroom) in E. fold room1 in E.
  hsimpl. rewrite list_lookup_insert_eq in E by assumption.
  split.
  - intros Hcount. apply Nat.leb_le in Hcount. rewrite Hcount in E. hsimpl.
    rewrite list_lookup_alter_eq, list_lookup_insert_eq in E by assumption. hsimpl.
    rewrite Htimer in E.
    assert (Hclean : forall s, roomsGet room_id (roomsDelete room_id (rooms s)) = None)
      by (intros s; apply roomsGet_delete).
    destruct (Room.turnTimer room) as [h|] eqn:Hh; hsimpl.
    + rewrite !list_lookup_alter_eq, list_lookup_insert_eq in E by assumption. hsimpl.
      match type of E with context [updatePlayerCoinsAndStats ?r ?s] =>
        destruct (updatePlayerCoinsAndStats_run r s) as (st3 & Hrun & Hsame);
        pose proof (updatePlayerCoinsAndStats_store r s st eq_refl) as Hstore;
        unfold exec in Hstore; rewrite Hrun in E, Hstore end.
      hsimpl. destruct Hsame as (Hhp & Hrms & _ & _ & Htm & Hnt & Hob). hsimpl.
      subst st2. hsimpl.
      rewrite Hhp, Htm, Hnt, Hob, Hrms, <- app_assoc.
      rewrite !list_lookup_alter_eq, list_lookup_insert_eq by assumption.
      repeat split; assumption.
    + rewrite !list_lookup_alter_eq, list_lookup_insert_eq in E by assumption. hsimpl.
      match type of E with context [updatePlayerCoinsAndStats ?r ?s] =>
        destruct (updatePlayerCoinsAndStats_run r s) as (st3 & Hrun & Hsame);
        pose proof (updatePlayerCoinsAndStats_store r s st eq_refl) as Hstore;
        unfold exec in Hstore; rewrite Hrun in E, Hstore end.
      hsimpl. destruct Hsame as (Hhp & Hrms & _ & _ & Htm & Hnt & Hob). hsimpl.
      subst st2. hsimpl.
      rewrite Hhp, Htm, Hnt, Hob, Hrms, <- app_assoc.
      rewrite !list_lookup_alter_eq, list_lookup_insert_eq by assumption.
      repeat split; try assumption.
      unfold Room.set_turnTimer, Room.set_status. simpl. by rewrite Htimer.
  - intros Hcount. apply Nat.leb_gt in Hcount. rewrite Hcount in E. subst st2. hsimpl.
    rewrite list_lookup_insert_eq by assumption. repeat split. congruence.
Qed.

(** ** The turn timer *)

Lemma findWith_Some {A} (f : A -> bool) (l : list A) i x :
  findWith f l = Some (i, x) ->
  l !! i = Some x /\ f x = true /\ forall j y, j < i -> l !! j = Some y -> f y = false.
Proof.
  revert i. induction l as [|a l IH]; intros i; simpl; [discriminate|].
  destruct (f a) eqn:Hfa.
  - intros [= <- <-]. split; [reflexivity|]. split; [assumption|]. intros j y Hj; lia.
  - destruct (findWith f l) as [[i' y']|] eqn:Hfind; [|discriminate].
    intros [= <- <-]. destruct (IH i' eq_refl) as (Hl & Hf & Hbefore).
    split; [assumption|]. split; [assumption|].
    intros [|j] y Hj; simpl.
    + by intros [= <-].
    + apply Hbefore. lia.
Qed.

Lemma findWith_first {A} (f : A -> bool) (l : list A) i x :
  l !! i = Some x -> f x = true ->
  (forall j y, j < i -> l !! j = Some y -> f y = false) ->
  findWith f l = Some (i, x).
Proof.
  revert i. induction l as [|a l IH]; intros i; simpl; [discriminate|].
  destruct i as [|i]; simpl.
  - intros [= ->] Hx _. by rewrite Hx.
  - intros Hl Hx Hbefore. rewrite (Hbefore 0 a (Nat.lt_0_succ i) eq_refl).
    rewrite (IH i Hl Hx); [reflexivity|].
    intros j y Hj Hy. apply (Hbefore (S j)); [lia|assumption].
Qed.

Lemma findWith_playing_count (ps : list Player.t) :
  playingCount ps = 1 -> exists w winner, findWith is_playing ps = Some (w, winner).
Proof.
  unfold playingCount. induction ps as [|p ps IH]; simpl; [discriminate|].
  destruct (is_playing p); [eauto|].
  intros Hc. destruct (IH Hc) as (w & winner & ->). eauto.
Qed.

Lemma alter_as_insert {A} (f : A -> A) (l : list A) i x :
  l !! i = Some x -> alter f i l = <[i := f x]> l.
Proof.
  intros Hx. apply list_eq. intros j. destruct (decide (j = i)) as [->|Hne].
  - rewrite list_lookup_alter_eq, list_lookup_insert_eq, Hx; [reflexivity|].
    eapply lookup_lt_Some; eassumption.
  - rewrite list_lookup_alter_ne, list_lookup_insert_ne by congruence. reflexivity.
Qed.

Lemma settleAndAnnounce_effect ref group st room :
  heap st !! ref = Some room ->
  let st' := exec (settleAndAnnounce ref group) st in
  heap st' = heap st /\ timers st' = timers st /\ rooms st' = rooms st
  /\ store st' = store (exec (updatePlayerCoinsAndStats (calculateGameResults room)) st)
  /\ outbox st'
     = (outbox st ++ [mkEmit (ToRoom group) (game_over_msg (calculateGameResults room))])%list.
Proof.
  intros Hroom st'. subst st'. unfold exec.
  destruct (settleAndAnnounce_run ref group st room Hroom) as (st1 & Hrun & Hsame & ->).
  rewrite Hrun. destruct Hsame as (Hhp & Hrms & Hus & Hsk & Htm & Hnt & Hob). simpl.
  rewrite Hob. auto 10.
Qed.

Lemma delayedGameOver_effect ref st room :
  heap st !! ref = Some room ->
  let st' := exec (runCallback (DelayedGameOver ref)) st in
  store st' = store (exec (updatePlayerCoinsAndStats (calculateGameResults room)) st)
  /\ outbox st'
     = (outbox st ++ [mkEmit (ToRoom (Room.roomId room))
                             (game_over_msg (calculateGameResults room))])%list.
Proof.
  intros Hroom st'.
  assert (E : st' = exec (settleAndAnnounce ref (Room.roomId room)) st).
  { subst st'. simpl. unfold delayedGameOver, exec, bind at 1, getRoom. by rewrite Hroom. }
  rewrite E. apply (settleAndAnnounce_effect ref (Room.roomId room) st room Hroom).
Qed.

(** Whatever happens next, the third strike marks the player and tells the room. *)
Lemma turnTimeout_marks_timeout ref st room currentPlayer :
  heap st !! ref = Some room ->
  Room.players room !! Room.currentTurn room = Some currentPlayer ->
  Player.status currentPlayer = PLAYER_STATUS.PLAYING ->
  3 <= S (Player.numoftimeout currentPlayer) ->
  let st' := exec (turnTimeout ref) st in
  exists room' rest,
    heap st' !! ref = Some room'
    /\ Room.players room' !! Room.currentTurn room
       = Some (Player.set_status PLAYER_STATUS.TIMEOUT
                 (Player.set_numoftimeout (S (Player.numoftimeout currentPlayer))
                    currentPlayer))
    /\ outbox st'
       = (outbox st
            ++ [mkEmit (ToRoom (Room.roomId room))
                  (user_timeout_counter_msg (Player.peerId currentPlayer)
                     (S (Player.numoftimeout currentPlayer)));
                mkEmit (ToRoom (Room.roomId room))
                  (user_timeout_msg (Player.peerId currentPlayer))]
            ++ rest)%list.
Proof.
  intros Hroom Hcur Hplaying Hn st'.
  assert (Hlt : ref < length (heap st)) by (eapply lookup_lt_Some; eassumption).
  assert (Hclt : Room.currentTurn room < length (Room.players room))
    by (eapply lookup_lt_Some; eassumption).
  remember st' as st2 eqn:E. unfold st', exec, turnTimeout in E. clear st'.
  destruct (Player.numoftimeout currentPlayer) as [|[|n]] eqn:Hnum; [lia|lia|].
  hsimpl. rewrite Hroom in E. hsimpl. rewrite Hcur in E.
  apply is_playing_true in Hplaying. rewrite Hplaying in E.
  rewrite Hnum in E. hsimpl.
  rewrite !list_lookup_alter_eq, Hroom in E. hsimpl.
  rewrite (alter_as_insert _ _ _ _ Hcur) in E.
  rewrite (alter_as_insert _ (<[_ := _]> _) (Room.currentTurn room)
             (Player.set_numoftimeout (S (S (S n))) currentPlayer)) in E
    by (apply list_lookup_insert_eq; assumption).
  rewrite list_insert_insert_eq in E.
  set (struck := Player.set_status PLAYER_STATUS.TIMEOUT
                   (Player.set_numoftimeout (S (S (S n))) currentPlayer)) in *.
  set (ps1 := <[Room.currentTurn room := struck]> (Room.players room)) in *.
  assert (Hps1 :
      alter (Player.set_status PLAYER_STATUS.TIMEOUT) (Room.currentTurn room)
        (alter (Player.set_numoftimeout (S (S (S n))))
           (Room.currentTurn room) (Room.players room)) = ps1).
  { rewrite (alter_as_insert _ _ _ _ Hcur).
    rewrite (alter_as_insert _ (<[_ := _]> _) (Room.currentTurn room)
               (Player.set_numoftimeout (S (S (S n))) currentPlayer))
      by (apply list_lookup_insert_eq; assumption).
    by rewrite list_insert_insert_eq. }
  assert (Hstruck : ps1 !! Room.currentTurn room = Some struck)
    by (apply list_lookup_insert_eq; assumption).
  destruct (playingCount ps1 =? 1)%nat eqn:Hone; [|destruct (playingCount ps1 =? 0)%nat eqn:Hzero].
  - destruct (findWith is_playing ps1) as [[w winner]|] eqn:Hfind.
    2:{ apply Nat.eqb_eq in Hone. destruct (findWith_playing_count ps1 Hone) as (? & ? & ?).
        congruence. }
    hsimpl. rewrite !list_lookup_alter_eq, Hroom in E. hsimpl.
    assert (Hw : w <> Room.currentTurn room).
    { intros ->. apply findWith_Some in Hfind as (Hl & Hp & _).
      rewrite Hstruck in Hl. injection Hl as <-. discriminate. }
    assert (Hres : exists room', heap st2 !! ref = Some room'
                     /\ Room.players room' = alter (Player.set_status PLAYER_STATUS.WIN) w ps1).
    { subst st2. destruct (Room.turnTimer room); hsimpl;
        rewrite !list_lookup_alter_eq, Hroom; hsimpl; rewrite Hps1; eauto. }
    destruct Hres as (room' & Hroom' & Hplayers).
    exists room'. eexists. split; [exact Hroom'|].
    split; [by rewrite Hplayers, list_lookup_alter_ne|].
    subst st2. destruct (Room.turnTimer room); hsimpl; rewrite <- !app_assoc; reflexivity.
  - hsimpl. rewrite !list_lookup_alter_eq, Hroom in E. hsimpl.
    destruct (Room.turnTimer room) as [h|] eqn:Hh; hsimpl;
      rewrite ?list_lookup_alter_eq, ?Hroom in E; hsimpl;
      (match type of E with context [updatePlayerCoinsAndStats ?r ?s] =>
         destruct (updatePlayerCoinsAndStats_run r s) as (st3 & Hrun & Hsame);
         rewrite Hrun in E end);
      destruct Hsame as (Hhp & _ & _ & _ & _ & _ & Hob); hsimpl;
      subst st2; hsimpl; rewrite Hhp, Hob;
      eexists; eexists;
      (split; [rewrite !list_lookup_alter_eq, Hroom; reflexivity|]);
      (split; [simpl; by rewrite Hps1|]);
      rewrite <- !app_assoc; reflexivity.
  - hsimpl. rewrite !list_lookup_alter_eq, Hroom in E. hsimpl.
    rewrite Hps1 in E.
    match type of E with context [getNextTurn ?r] => destruct (getNextTurn r) as [nextTurn|] end;
      hsimpl.
    + destruct (ps1 !! nextTurn) as [nextPlayer|] eqn:Hnext; hsimpl.
      * rewrite !list_lookup_alter_eq, Hroom in E. hsimpl.
        destruct (Room.turnTimer room) as [h|] eqn:Hh; hsimpl; subst st2; hsimpl;
          eexists; eexists;
          (split; [rewrite !list_lookup_alter_eq, Hroom; reflexivity|]);
          (split; [simpl; by rewrite Hps1|]);
          rewrite <- !app_assoc; reflexivity.
      * subst st2; hsimpl; eexists; eexists;
          (split; [rewrite !list_lookup_alter_eq, Hroom; reflexivity|]);
          (split; [simpl; by rewrite Hps1|]).
        instantiate (1 := []). by rewrite <- app_assoc.
    + rewrite !list_lookup_alter_eq, Hroom in E. hsimpl.
      destruct (Room.turnTimer room) as [h|] eqn:Hh; hsimpl;
        rewrite ?list_lookup_alter_eq, ?Hroom in E; hsimpl;
        (match type of E with context [updatePlayerCoinsAndStats ?r ?s] =>
           destruct (updatePlayerCoinsAndStats_run r s) as (st3 & Hrun & Hsame);
           rewrite Hrun in E end);
        destruct Hsame as (Hhp & _ & _ & _ & _ & _ & Hob); hsimpl;
        subst st2; hsimpl; rewrite Hhp, Hob;
        eexists; eexists;
        (split; [rewrite !list_lookup_alter_eq, Hroom; reflexivity|]);
        (split; [simpl; by rewrite Hps1|]);
        rewrite <- !app_assoc; reflexivity.
Qed.

(** What the third strike does, the user store and the results being
    those of [updatePlayerCoinsAndStats] and [calculateGameResults]. *)
Lemma third_strike_run ref st room currentPlayer :
  heap st !! ref = Some room ->
  Room.players room !! Room.currentTurn room = Some currentPlayer ->
  Player.status currentPlayer = PLAYER_STATUS.PLAYING ->
  3 <= S (Player.numoftimeout currentPlayer) ->
  let room1 := struckOut room currentPlayer in
  let st' := exec (turnTimeout ref) st in
  let strikes :=
    [mkEmit (ToRoom (Room.roomId room))
            (user_timeout_counter_msg (Player.peerId currentPlayer)
                                      (S (Player.numoftimeout currentPlayer)));
     mkEmit (ToRoom (Room.roomId room)) (user_timeout_msg (Player.peerId currentPlayer))] in
  (exists room' rest,
     heap st' !! ref = Some room'
     /\ Room.players room' !! Room.currentTurn room
        = Some (Player.set_status PLAYER_STATUS.TIMEOUT
                  (Player.set_numoftimeout (S (Player.numoftimeout currentPlayer))
                     currentPlayer))
     /\ outbox st' = (outbox st ++ strikes ++ rest)%list)
  /\ (playingCount (Room.players room1) = 1 ->
        exists w winner,
          findWith is_playing (Room.players room1) = Some (w, winner)
          /\ let room2 :=
               Room.set_turnTimer None
                 (Room.set_status GAME_STATUS.FINISHED
                    (Room.set_players
                       (alter (Player.set_status PLAYER_STATUS.WIN) w (Room.players room1))
                       room1)) in
             heap st' !! ref = Some room2
             /\ timers st'
                = (cancel (Room.turnTimer room) (timers st)
                     ++ [Timer.mk (nextTimer st) 2000 (DelayedGameOver ref)])%list
             /\ store st' = store st
             /\ outbox st'
                = (outbox st ++ strikes
                     ++ [mkEmit (ToRoom (Room.roomId room))
                                (win_game_msg (Player.peerId winner))])%list
             /\ let st'' := exec (runCallback (DelayedGameOver ref)) st' in
                store st'' = store (exec (updatePlayerCoinsAndStats (calculateGameResults room2)) st')
                /\ outbox st''
                   = (outbox st' ++ [mkEmit (ToRoom (Room.roomId room))
                                            (game_over_msg (calculateGameResults room2))])%list)
  /\ (playingCount (Room.players room1) = 0 ->
        heap st' !! ref = Some (Room.set_turnTimer None room1)
        /\ timers st' = cancel (Room.turnTimer room) (timers st)
        /\ store st' = store (exec (updatePlayerCoinsAndStats (calculateGameResults room1)) st)
        /\ outbox st'
           = (outbox st ++ strikes
                ++ [mkEmit (ToRoom (Room.roomId room))
                           (game_over_msg (calculateGameResults room1))])%list).
Proof.
  intros Hroom Hcur Hplaying Hn room1 st' strikes.
  assert (Hlt : ref < length (heap st)) by (eapply lookup_lt_Some; eassumption).
  assert (Hclt : Room.currentTurn room < length (Room.players room))
    by (eapply lookup_lt_Some; eassumption).
  split.
  { by apply turnTimeout_marks_timeout. }
  remember st' as st2 eqn:E. unfold st', exec, turnTimeout in E. clear st'.
  unfold room1, strikes, struckOut in *. clear room1 strikes.
  destruct (Player.numoftimeout currentPlayer) as [|[|n]] eqn:Hnum; [lia|lia|].
  hsimpl. rewrite Hroom in E. hsimpl. rewrite Hcur in E.
  apply is_playing_true in Hplaying. rewrite Hplaying in E.
  rewrite Hnum in E. hsimpl.
  rewrite !list_lookup_alter_eq, Hroom in E. hsimpl.
  rewrite (alter_as_insert _ _ _ _ Hcur) in E.
  rewrite (alter_as_insert _ (<[_ := _]> _) (Room.currentTurn room)
             (Player.set_numoftimeout (S (S (S n))) currentPlayer)) in E
    by (apply list_lookup_insert_eq; assumption).
  rewrite list_insert_insert_eq in E.
  set (ps1 := <[Room.currentTurn room := _]> (Room.players room)) in *.
  split.
  - intros Hcount. destruct (findWith_playing_count ps1 Hcount) as (w & winner & Hfind).
    exists w, winner. split; [assumption|].
    rewrite Hcount, Hfind in E. hsimpl.
    rewrite !list_lookup_alter_eq, Hroom in E. hsimpl.
    assert (Hps1 :
      alter (Player.set_status PLAYER_STATUS.TIMEOUT) (Room.currentTurn room)
        (alter (Player.set_numoftimeout (S (S (S n))))
           (Room.currentTurn room) (Room.players room)) = ps1).
    { rewrite (alter_as_insert _ _ _ _ Hcur).
      rewrite (alter_as_insert _ (<[_ := _]> _) (Room.currentTurn room)
                 (Player.set_numoftimeout (S (S (S n))) currentPlayer))
        by (apply list_lookup_insert_eq; assumption).
      by rewrite list_insert_insert_eq. }
    assert (Hfinal : heap st2 !! ref = Some
         (Room.set_turnTimer None
                 (Room.set_status GAME_STATUS.FINISHED
                    (Room.set_players
                       (alter (Player.set_status PLAYER_STATUS.WIN) w ps1)
                       (Room.set_players ps1 room))))).
    { subst st2. destruct (Room.turnTimer room) as [h|] eqn:Hh; hsimpl;
        rewrite !list_lookup_alter_eq, Hroom; simpl;
        unfold Room.set_turnTimer, Room.set_status, Room.set_players; simpl;
        rewrite Hps1, ?Hh; reflexivity. }
    split; [exact Hfinal|].
    split; [subst st2; by destruct (Room.turnTimer room)|].
    split; [subst st2; by destruct (Room.turnTimer room)|].
    split; [subst st2; destruct (Room.turnTimer room); hsimpl; by rewrite <- !app_assoc|].
    apply (delayedGameOver_effect ref st2 _ Hfinal).
  - intros Hcount. rewrite Hcount in E. hsimpl.
    rewrite !list_lookup_alter_eq, Hroom in E. hsimpl.
    assert (Hps1 :
      alter (Player.set_status PLAYER_STATUS.TIMEOUT) (Room.currentTurn room)
        (alter (Player.set_numoftimeout (S (S (S n))))
           (Room.currentTurn room) (Room.players room)) = ps1).
    { rewrite (alter_as_insert _ _ _ _ Hcur).
      rewrite (alter_as_insert _ (<[_ := _]> _) (Room.currentTurn room)
                 (Player.set_numoftimeout (S (S (S n))) currentPlayer))
        by (apply list_lookup_insert_eq; assumption).
      by rewrite list_insert_insert_eq. }
    destruct (Room.turnTimer room) as [h|] eqn:Hh; hsimpl.
    + rewrite !list_lookup_alter_eq, Hroom in E. hsimpl.
      unfold Room.set_players in E at 1 2 3. simpl in E. rewrite Hps1 in E.
      match type of E with context [updatePlayerCoinsAndStats ?r ?s] =>
        destruct (updatePlayerCoinsAndStats_run r s) as (st3 & Hrun & Hsame);
        pose proof (updatePlayerCoinsAndStats_store r s st eq_refl) as Hstore;
        unfold exec in Hstore; rewrite Hrun in E, Hstore end.
      destruct Hsame as (Hhp & Hrms & _ & _ & Htm & Hnt & Hob). hsimpl.
      subst st2. hsimpl. rewrite Hhp, Htm, Hob.
      rewrite !list_lookup_alter_eq, Hroom. simpl.
      unfold calculateGameResults, Room.set_players, Room.set_turnTimer in *. simpl in *.
      rewrite ?Hps1 in *. rewrite <- !app_assoc. repeat split. exact Hstore.
    + rewrite !list_lookup_alter_eq, Hroom in E. hsimpl.
      unfold Room.set_players in E at 1 2. simpl in E. rewrite Hps1 in E.
      match type of E with context [updatePlayerCoinsAndStats ?r ?s] =>
        destruct (updatePlayerCoinsAndStats_run r s) as (st3 & Hrun & Hsame);
        pose proof (updatePlayerCoinsAndStats_store r s st eq_refl) as Hstore;
        unfold exec in Hstore; rewrite Hrun in E, Hstore end.
      destruct Hsame as (Hhp & Hrms & _ & _ & Htm & Hnt & Hob). hsimpl.
      subst st2. hsimpl. rewrite Hhp, Htm, Hob.
      rewrite !list_lookup_alter_eq, Hroom. simpl.
      unfold calculateGameResults, Room.set_players, Room.set_turnTimer in *. simpl in *.
      rewrite ?Hps1, ?Hh in *. rewrite <- !app_assoc. repeat split. exact Hstore.
Qed.

(** ** Settlement *)

Lemma is_win_true p : is_win p = true <-> Player.status p = PLAYER_STATUS.WIN.
Proof. unfold is_win. apply bool_decide_eq_true. Qed.

Lemma insertBy_win (p : Player.t) (l : list Player.t) :
  is_win p = true -> insertBy compareWinFirst p l = p :: l.
Proof.
  intros Hp. destruct l as [|q l]; [reflexivity|]. simpl.
  unfold compareWinFirst. rewrite Hp. by destruct (is_win q).
Qed.

Lemma insertBy_other (p : Player.t) (ws os : list Player.t) :
  is_win p = false ->
  Forall (fun q => is_win q = true) ws -> Forall (fun q => is_win q = false) os ->
  insertBy compareWinFirst p (ws ++ os) = (ws ++ p :: os)%list.
Proof.
  intros Hp Hws Hos. induction Hws as [|w ws Hw Hws IH]; simpl.
  - destruct Hos as [|o os Ho Hos]; [reflexivity|]. simpl.
    unfold compareWinFirst. by rewrite Hp, Ho.
  - unfold compareWinFirst at 1. rewrite Hp, Hw. simpl. by rewrite IH.
Qed.

(** The sort of [calculateGameResults] is the stable partition of the
    roster: the WIN players in roster order, then the others in roster
    order. *)
Lemma sortBy_compareWinFirst (ps : list Player.t) :
  sortBy compareWinFirst ps
  = (List.filter is_win ps ++ List.filter (fun p => negb (is_win p)) ps)%list.
Proof.
  induction ps as [|p ps IH]; [reflexivity|]. simpl. rewrite IH.
  destruct (is_win p) eqn:Hp; simpl.
  - by apply insertBy_win.
  - apply insertBy_other; [assumption| |].
    + apply List.Forall_forall. intros q Hq. by apply filter_In in Hq as [_ Hq].
    + apply List.Forall_forall. intros q Hq. apply filter_In in Hq as [_ Hq].
      by apply negb_true_iff.
Qed.

(** What one entry of the results array holds. *)
Lemma calculateGameResults_lookup (room : Room.t) (i : nat) (r : Result.t) :
  calculateGameResults room !! i = Some r <->
  exists p,
    sortBy compareWinFirst (Room.players room) !! i = Some p
    /\ r = resultOf (Room.betAmount room) (Room.maxPlayers room) i p.
Proof.
  unfold calculateGameResults. rewrite list_lookup_imap.
  destruct (sortBy compareWinFirst (Room.players room) !! i) as [p|]; simpl.
  - split; [intros [= <-]; eauto|]. by intros (q & [= <-] & ->).
  - split; [discriminate|]. by intros (q & ? & _).
Qed.

Lemma calculateGameResults_payout (room : Room.t) (i : nat) (r : Result.t) :
  calculateGameResults room !! i = Some r ->
  Result.player_rank r = (Z.of_nat i + 1)%Z
  /\ (Result.player_status r <> PLAYER_STATUS.WIN -> Result.winning_coin r = 0%Z)
  /\ (Result.player_status r = PLAYER_STATUS.WIN ->
      Room.maxPlayers room = 2%Z ->
      Result.winning_coin r = (Room.betAmount room * 2)%Z)
  /\ (Result.player_status r = PLAYER_STATUS.WIN ->
      Room.maxPlayers room = 4%Z ->
      Result.winning_coin r
      = match i with
        | 0 => (Room.betAmount room * 3)%Z
        | 1 => Room.betAmount room
        | _ => 0%Z
        end).
Proof.
  intros Hr. apply calculateGameResults_lookup in Hr as (p & _ & ->).
  unfold resultOf, is_win. simpl. split; [reflexivity|].
  split; [|split].
  - intros Hne. by rewrite bool_decide_eq_false_2.
  - intros Hwin ->. by rewrite bool_decide_eq_true_2.
  - intros Hwin ->. rewrite bool_decide_eq_true_2 by assumption. simpl.
    destruct i as [|[|i]]; try reflexivity.
    destruct (Z.eqb_spec (Z.of_nat (S (S i)) + 1) 1); [lia|].
    destruct (Z.eqb_spec (Z.of_nat (S (S i)) + 1) 2); [lia|]. reflexivity.
Qed.

Lemma totalWinning_app (l1 l2 : list Result.t) :
  totalWinning (l1 ++ l2) = (totalWinning l1 + totalWinning l2)%Z.
Proof. unfold totalWinning. induction l1 as [|r l1 IH]; simpl; [reflexivity|]. rewrite IH. lia. Qed.

Lemma totalWinning_uniform (g : nat -> Player.t -> Result.t) (c : Z) (ps : list Player.t) :
  (forall i p, In p ps -> Result.winning_coin (g i p) = c) ->
  totalWinning (imap g ps) = (c * Z.of_nat (length ps))%Z.
Proof.
  revert g. induction ps as [|p ps IH]; intros g Hg; [simpl; lia|].
  cbn [imap totalWinning foldr length]. fold (totalWinning (imap (g ∘ S) ps)).
  rewrite (IH (g ∘ S)) by (intros i q Hq; apply Hg; by right).
  rewrite (Hg 0 p) by (by left). lia.
Qed.

Lemma resultOf_loser b c i p : is_win p = false -> Result.winning_coin (resultOf b c i p) = 0%Z.
Proof. intros Hp. unfold resultOf. by rewrite Hp. Qed.

Lemma resultOf_two b i p : is_win p = true -> Result.winning_coin (resultOf b 2 i p) = (b * 2)%Z.
Proof. intros Hp. unfold resultOf. by rewrite Hp. Qed.

Lemma resultOf_four_first b p :
  is_win p = true -> Result.winning_coin (resultOf b 4 0 p) = (b * 3)%Z.
Proof. intros Hp. unfold resultOf. by rewrite Hp. Qed.

Lemma resultOf_four_second b p :
  is_win p = true -> Result.winning_coin (resultOf b 4 1 p) = b.
Proof. intros Hp. unfold resultOf. by rewrite Hp. Qed.

Lemma resultOf_four_tail b i p : Result.winning_coin (resultOf b 4 (S (S i)) p) = 0%Z.
Proof.
  unfold resultOf, Result.winning_coin. destruct (is_win p); [|reflexivity].
  change (4 =? 2)%Z with false. change (4 =? 4)%Z with true. cbv iota.
  destruct (Z.eqb_spec (Z.of_nat (S (S i)) + 1) 1) as [E|_]; [lia|].
  destruct (Z.eqb_spec (Z.of_nat (S (S i)) + 1) 2) as [E|_]; [lia|]. reflexivity.
Qed.

Lemma totalWinning_split (room : Room.t) :
  let ps := Room.players room in
  totalWinning (calculateGameResults room)
  = totalWinning (imap (resultOf (Room.betAmount room) (Room.maxPlayers room))
                       (List.filter is_win ps)).
Proof.
  intros ps. unfold calculateGameResults. rewrite sortBy_compareWinFirst. fold ps.
  rewrite imap_app, totalWinning_app.
  rewrite (totalWinning_uniform _ 0 (List.filter (fun p => negb (is_win p)) ps));
    [by rewrite Z.mul_0_l, Z.add_0_r|].
  intros i q Hq. apply filter_In in Hq as [_ Hq]. apply resultOf_loser. by apply negb_true_iff.
Qed.

Lemma filter_is_win_all (ps : list Player.t) :
  Forall (fun q => is_win q = true) (List.filter is_win ps).
Proof. apply List.Forall_forall. intros q Hq. by apply filter_In in Hq as [_ Hq]. Qed.

(** C3, as the code has it.  In a 2-player room the winnings sum to
    2 x bet when exactly one player is WIN and to 0 when none is; in a
    4-player room they sum to 4 x bet when at least two players are WIN
    and to 3 x bet when exactly one is. *)
Theorem totalWinning_conservation (room : Room.t) :
  let total := totalWinning (calculateGameResults room) in
  let bet := Room.betAmount room in
  let wins := winCount (Room.players room) in
  (Room.maxPlayers room = 2%Z -> wins = 1 -> total = (2 * bet)%Z)
  /\ (Room.maxPlayers room = 2%Z -> wins = 0 -> total = 0%Z)
  /\ (Room.maxPlayers room = 4%Z -> 2 <= wins -> total = (4 * bet)%Z)
  /\ (Room.maxPlayers room = 4%Z -> wins = 1 -> total = (3 * bet)%Z).
Proof.
  intros total bet wins. subst total. rewrite totalWinning_split. fold bet.
  pose proof (filter_is_win_all (Room.players room)) as Hall.
  unfold wins, winCount. clear wins.
  assert (Htwo : Room.maxPlayers room = 2%Z ->
                 totalWinning (imap (resultOf bet (Room.maxPlayers room))
                                    (List.filter is_win (Room.players room)))
                 = (bet * 2 * Z.of_nat (length (List.filter is_win (Room.players room))))%Z).
  { intros ->. apply totalWinning_uniform. intros i p Hp. apply resultOf_two.
    by apply filter_In in Hp as [_ Hp]. }
  repeat split.
  - intros Hmax Hw. rewrite Htwo, Hw by assumption. lia.
  - intros Hmax Hw. rewrite Htwo, Hw by assumption. lia.
  - intros -> Hw. destruct (List.filter is_win (Room.players room)) as [|w1 [|w2 ws]];
      [simpl in Hw; lia|simpl in Hw; lia|].
    inversion Hall as [|? ? H1 Hall']; subst. inversion Hall' as [|? ? H2 _]; subst.
    cbn [imap totalWinning foldr].
    fold (totalWinning (imap ((resultOf bet 4 ∘ S) ∘ S) ws)).
    rewrite (totalWinning_uniform _ 0) by (intros; apply resultOf_four_tail).
    unfold compose. rewrite resultOf_four_first, resultOf_four_second by assumption. lia.
  - intros -> Hw. destruct (List.filter is_win (Room.players room)) as [|w1 [|w2 ws]];
      [simpl in Hw; lia| |simpl in Hw; lia].
    inversion Hall as [|? ? H1 _]; subst.
    cbn [imap totalWinning foldr]. rewrite resultOf_four_first by assumption. lia.
Qed.

(** ** Concrete runs *)

(** C1, at the input where the code departs from it.  Bob asks to join a
    friend room that is FINISHED and has a free seat: he is refused with
    "Game already started" and is not seated, yet his coins went from 1000
    to 900. *)
Theorem friend_join_room_debits_refused_player :
  let st := run finishedFriendRoom (initial false) in
  let st' := step (Recv "sB" (E_friend_join_room "B" "Bob" "ABC123")) st in
  statusOf "ABC123" st = Some GAME_STATUS.FINISHED
  /\ seated "ABC123" st = ["A"]
  /\ coinsOf "B" st = Some 1000%Z
  /\ outbox st'
     = (outbox st ++ [mkEmit (ToSocket "sB")
                             (friend_error_response_msg "Game already started")])%list
  /\ seated "ABC123" st' = ["A"]
  /\ coinsOf "B" st' = Some 900%Z.
Proof. vm_compute. repeat split. Qed.

(** C2, at the input where the code departs from it.  In a 2-player room
    with bet 100, Ann sends [win_game] (the room is FINISHED and settled),
    then Bob sends [win_game] before the room is removed: settlement runs
    again and the rank-2 WIN player is paid 2 x bet as well. *)
Theorem second_win_game_pays_both_players :
  let st := run (twoPlayerGame ++ [Recv "sA" (E_win_game "r1" 0 1)]) (initial false) in
  let st' := step (Recv "sB" (E_win_game "r1" 1 2)) st in
  let results :=
    [Result.mk "Ann" "A" 200 1 PLAYER_STATUS.WIN; Result.mk "Bob" "B" 200 2 PLAYER_STATUS.WIN] in
  statusOf "r1" st = Some GAME_STATUS.FINISHED
  /\ (exists room, heap st' !! 0 = Some room
                   /\ Room.maxPlayers room = 2%Z /\ Room.betAmount room = 100%Z
                   /\ calculateGameResults room = results)
  /\ outbox st'
     = (outbox st ++ [mkEmit (ToRoomExcept "r1" "sB") (win_game_msg 1);
                      mkEmit (ToRoom "r1") (game_over_msg results)])%list
  /\ coinsOf "A" st' = Some 1300%Z
  /\ coinsOf "B" st' = Some 1100%Z.
Proof.
  vm_compute. split; [reflexivity|]. split; [|repeat split].
  eexists. repeat split.
Qed.

(** C3 fails as stated: a 2-player game that ends with both players
    TIMEOUT announces results whose winnings sum to 0, not to 2 x bet. *)
Lemma two_player_game_without_winner :
  let st := run everybodyTimesOut (initial false) in
  exists room results,
    heap st !! 0 = Some room
    /\ Room.maxPlayers room = 2%Z /\ Room.betAmount room = 100%Z
    /\ last (outbox st) = Some (mkEmit (ToRoom "r1") (game_over_msg results))
    /\ results = calculateGameResults room
    /\ totalWinning results = 0%Z
    /\ totalWinning results <> (2 * Room.betAmount room)%Z.
Proof.
  vm_compute. eexists. eexists. repeat split. discriminate.
Qed.

(** C4 fails as stated: in a WAITING room a [dice_send] stores the dice,
    arms the turn timer and is relayed to the other player. *)
Lemma dice_send_acts_on_waiting_room :
  let st := run waitingRoom (initial false) in
  let st' := step (Recv "sA" (E_dice_send "r1" 0 6)) st in
  statusOf "r1" st = Some GAME_STATUS.WAITING
  /\ (exists room room',
        heap st !! 0 = Some room /\ heap st' !! 0 = Some room'
        /\ GameData.lastDice (Room.gameData room) = 0%Z
        /\ GameData.lastDice (Room.gameData room') = 6%Z
        /\ Room.turnTimer room = None
        /\ Room.turnTimer room' = Some 0)
  /\ timers st = []
  /\ timers st' = [Timer.mk 0 TURN_TIMEOUT (TurnTimeout 0)]
  /\ outbox st'
     = (outbox st ++ [mkEmit (ToRoomExcept "r1" "sA") (dice_recieved_msg 0 6)])%list
  /\ recipients st' (ToRoomExcept "r1" "sA") = ["sB"].
Proof.
  vm_compute. split; [reflexivity|]. split; [|repeat split].
  eexists. eexists. repeat split.
Qed.

(** C9 fails as stated: the grace timer is also started when the socket
    of a player of a WAITING room closes. *)
Lemma disconnect_starts_grace_in_waiting_room :
  let st := run waitingRoom (initial false) in
  let st' := step (Recv "sB" E_disconnect) st in
  statusOf "r1" st = Some GAME_STATUS.WAITING
  /\ seated "r1" st = ["A"; "B"]
  /\ timers st = []
  /\ timers st' = [Timer.mk 0 30000 (DisconnectGrace "sB" "r1" "B" 1)].
Proof. vm_compute. repeat split. Qed.

(** ** Dice and token relay *)

(** C4, as the code has it.  [dice_send] and [token_send] do not look at
    the status of the room: on a WAITING room too, [dice_send] stores the
    dice in [lastDice], [token_send] appends the move to [moves], both
    replace the turn timer by a fresh 30 s one, and both are relayed to the
    other sockets of the room ([token_recieved] carrying the stored dice). *)
Theorem dice_and_token_in_waiting_room sid room_id st ref room :
  roomsGet room_id (rooms st) = Some ref ->
  heap st !! ref = Some room ->
  Room.status room = GAME_STATUS.WAITING ->
  let rearmed :=
    (cancel (Room.turnTimer room) (timers st)
       ++ [Timer.mk (nextTimer st) TURN_TIMEOUT (TurnTimeout ref)])%list in
  let gameData := Room.gameData room in
  (forall peer_id dice_face,
     let st' := exec (dice_send sid room_id peer_id dice_face) st in
     heap st' !! ref
       = Some (Room.set_gameData (GameData.mk dice_face (GameData.moves gameData))
                 (Room.set_turnTimer (Some (nextTimer st)) room))
     /\ timers st' = rearmed
     /\ outbox st'
        = (outbox st ++ [mkEmit (ToRoomExcept room_id sid)
                                (dice_recieved_msg peer_id dice_face)])%list)
  /\ (forall peer_id token_id token_value,
        let st' := exec (token_send sid room_id peer_id token_id token_value) st in
        heap st' !! ref
          = Some (Room.set_gameData
                    (GameData.mk (GameData.lastDice gameData)
                       (GameData.moves gameData ++ [Move.mk peer_id token_id token_value]))
                    (Room.set_turnTimer (Some (nextTimer st)) room))
        /\ timers st' = rearmed
        /\ outbox st'
           = (outbox st ++ [mkEmit (ToRoomExcept room_id sid)
                              (token_recieved_msg peer_id token_id token_value
                                 (GameData.lastDice gameData))])%list).
Proof.
  intros Hreg Hroom _ rearmed gameData. subst rearmed gameData. split.
  - intros peer_id dice_face st'. subst st'. unfold dice_send. hsimpl. rewrite Hreg, Hroom.
    destruct (Room.turnTimer room) as [h|] eqn:Hh; hsimpl;
      rewrite ?list_lookup_alter_eq, ?Hroom; hsimpl;
      rewrite ?Hh; hsimpl; rewrite ?list_lookup_alter_eq, ?Hroom; hsimpl; repeat split;
      rewrite ?list_lookup_alter_eq, ?Hroom; reflexivity.
  - intros peer_id token_id token_value st'. subst st'. unfold token_send. hsimpl.
    rewrite Hreg, Hroom.
    destruct (Room.turnTimer room) as [h|] eqn:Hh; hsimpl;
      rewrite ?list_lookup_alter_eq, ?Hroom; hsimpl;
      rewrite ?Hh; hsimpl; rewrite ?list_lookup_alter_eq, ?Hroom; hsimpl; repeat split;
      rewrite ?list_lookup_alter_eq, ?Hroom; reflexivity.
Qed.

(** Rewrites with the hypotheses that settle a lookup of the goal. *)
Ltac hrewrite :=
  repeat (match goal with H : ?l = _ |- context [?l] => rewrite H end; hsimpl).

Lemma recipients_exclude_sender st room sender :
  ~ In sender (recipients st (ToRoomExcept room sender)).
Proof.
  unfold recipients. intros Hin. apply filter_In in Hin as [_ Hin].
  apply andb_true_iff in Hin as [_ Hin]. by rewrite String.eqb_refl in Hin.
Qed.

(** C10. [token_reset] only appends one emission to the outbox: a
    [token_recieved] with [dice_face = 0], addressed to the room without
    the sender, who is therefore not among its recipients.  The heap of
    rooms (so [lastDice], [moves] and every [turnTimer]), the registry and
    the pending timers are untouched. *)
Theorem token_reset_frame sid room_id peer_id token_id token_value st :
  let st' := exec (token_reset sid room_id peer_id token_id token_value) st in
  let relay :=
    mkEmit (ToRoomExcept room_id sid)
           (token_recieved_msg peer_id token_id token_value 0) in
  st' = set_outbox (outbox st ++ [relay])%list st
  /\ outbox st' = (outbox st ++ [relay])%list
  /\ ~ In sid (recipients st' (target relay))
  /\ heap st' = heap st
  /\ rooms st' = rooms st
  /\ timers st' = timers st
  /\ nextTimer st' = nextTimer st.
Proof.
  intros st' relay. split; [reflexivity|]. split; [reflexivity|].
  split; [apply recipients_exclude_sender|]. repeat split.
Qed.

Lemma getSocket_insert sid s (st : State) (sks : gmap string Socket.t) :
  default Socket.fresh (<[sid := s]> sks !! sid) = s.
Proof. by rewrite lookup_insert_eq. Qed.

Lemma findWith_alter {A} (f : A -> bool) (g : A -> A) (l : list A) i x :
  (forall y, f (g y) = f y) ->
  findWith f l = Some (i, x) ->
  findWith f (alter g i l) = Some (i, g x).
Proof.
  intros Hfg. revert i. induction l as [|a l IH]; intros i; simpl; [discriminate|].
  destruct (f a) eqn:Hfa.
  - intros [= <- <-]. simpl. by rewrite Hfg, Hfa.
  - destruct (findWith f l) as [[j y]|] eqn:Hfind; [|discriminate].
    intros [= <- <-]. change (alter g (S j) (a :: l)) with (a :: alter g j l).
    simpl. rewrite Hfa. by rewrite (IH j eq_refl).
Qed.

(** ** Disconnection and reconnection *)

(** C9, as the code has it.  (1) [disconnect] starts a 30000 ms grace
    timer when the closing socket holds a seat: its [currentRoomId] is a
    non-empty id that is registered, and the room seats a player bound to
    this socket, whatever the status of the room.  (2) It starts one only
    then: in every other case the pending timers are left as they were.
    (3) When the timer expires and the first player of the room with the
    departed user's id is still bound to the departed socket, that player
    is marked TIMEOUT and [user_timeout] goes to the rest of the room; when
    it is bound to another socket, nothing changes.  (4) In particular,
    after a [get_previous_room] for that room and that user on another
    socket, the expiry changes nothing. *)
Theorem disconnect_grace sid st :
  let st' := exec (disconnect sid) st in
  (forall rid ref room i player,
     holdsSeat sid st rid ref room i player ->
     timers st'
     = (timers st
          ++ [Timer.mk (nextTimer st) 30000
                (DisconnectGrace sid (Room.roomId room)
                   (Player.userId player) (Player.peerId player))])%list)
  /\ ((forall rid ref room i player, ~ holdsSeat sid st rid ref room i player) ->
      timers st' = timers st /\ nextTimer st' = nextTimer st)
  /\ (forall rid ref room roomId userId peerId i currentPlayer,
        Socket.currentRoomId (getSocket sid st) = Some rid ->
        roomsGet rid (rooms st) = Some ref ->
        heap st !! ref = Some room ->
        findWith (fun p => String.eqb (Player.userId p) userId) (Room.players room)
          = Some (i, currentPlayer) ->
        let st2 := exec (runCallback (DisconnectGrace sid roomId userId peerId)) st in
        (Player.socketId currentPlayer = sid ->
           heap st2 !! ref
             = Some (Room.set_players
                       (<[i := Player.set_status PLAYER_STATUS.TIMEOUT currentPlayer]>
                          (Room.players room)) room)
           /\ outbox st2
              = (outbox st ++ [mkEmit (ToRoomExcept roomId sid) (user_timeout_msg peerId)])%list)
        /\ (Player.socketId currentPlayer <> sid -> st2 = st))
  /\ (forall rid sid' user_id roomId peerId,
        Socket.currentRoomId (getSocket sid st) = Some rid ->
        sid' <> sid ->
        let st1 := exec (get_previous_room sid' rid user_id) st in
        exec (runCallback (DisconnectGrace sid roomId user_id peerId)) st1 = st1).
Proof.
  intros st'. split; [|split; [|split]].
  - intros rid ref room i player (Hsock & Hrid & Hreg & Hroom & Hi & Hsid & Hfirst).
    assert (Hfind : findWith (fun p => String.eqb (Player.socketId p) sid) (Room.players room)
                    = Some (i, player)).
    { apply findWith_first; [assumption|by apply String.eqb_eq|].
      intros j q Hj Hq. apply String.eqb_neq. by eapply Hfirst. }
    unfold getSocket in Hsock. subst st'. unfold disconnect. hsimpl.
    rewrite lookup_insert_eq. hsimpl. rewrite Hsock.
    destruct rid as [|a rid]; [done|]. simpl.
    repeat (first [rewrite Hreg|rewrite Hroom|rewrite Hfind]; hsimpl).
    by destruct (truthy (Socket.userId (default Socket.fresh (sockets st !! sid)))).
  - intros Hnone. subst st'. unfold disconnect. hsimpl.
    rewrite lookup_insert_eq. hsimpl.
    destruct (Socket.currentRoomId (default Socket.fresh (sockets st !! sid)))
      as [[|a rid]|] eqn:Hsock; simpl;
      try (by destruct (truthy (Socket.userId (default Socket.fresh (sockets st !! sid))))).
    destruct (roomsGet (String a rid) (rooms st)) as [ref|] eqn:Hreg; hsimpl;
      [|by destruct (truthy (Socket.userId (default Socket.fresh (sockets st !! sid))))].
    destruct (heap st !! ref) as [room|] eqn:Hroom; hsimpl;
      [|by destruct (truthy (Socket.userId (default Socket.fresh (sockets st !! sid))))].
    destruct (findWith (fun p => String.eqb (Player.socketId p) sid) (Room.players room))
      as [[i player]|] eqn:Hfind; hsimpl;
      [|by destruct (truthy (Socket.userId (default Socket.fresh (sockets st !! sid))))].
    destruct (Hnone (String a rid) ref room i player).
    apply findWith_Some in Hfind as (Hi & Hsid & Hfirst).
    unfold holdsSeat, getSocket. split; [assumption|]. split; [done|].
    split; [assumption|]. split; [assumption|]. split; [assumption|].
    split; [by apply String.eqb_eq|].
    intros j q Hj Hq. apply String.eqb_neq. by eapply Hfirst.
  - intros rid ref room roomId userId peerId i currentPlayer Hsock Hreg Hroom Hfind st2.
    unfold getSocket in Hsock. subst st2.
    simpl. unfold disconnectGrace. hsimpl.
    repeat (first [rewrite Hsock|rewrite Hreg|rewrite Hroom|rewrite Hfind]; hsimpl). split.
    + intros ->. rewrite String.eqb_refl. hsimpl. rewrite list_lookup_alter_eq, Hroom.
      hsimpl. split; [|reflexivity]. unfold Room.set_players. do 3 f_equal.
      apply alter_as_insert. by apply findWith_Some in Hfind as [? _].
    + intros Hne. apply String.eqb_neq in Hne. by rewrite Hne.
  - intros rid sid' user_id roomId peerId Hsock Hne st1. unfold getSocket in Hsock. subst st1.
    simpl. unfold disconnectGrace, get_previous_room. hsimpl.
    apply String.eqb_neq in Hne.
    destruct (roomsGet rid (rooms st)) as [ref|] eqn:Hreg; hsimpl; [|by hrewrite].
    destruct (heap st !! ref) as [room|] eqn:Hroom; hsimpl; [|by hrewrite].
    destruct (findWith (fun p => String.eqb (Player.userId p) user_id) (Room.players room))
      as [[i player]|] eqn:Hfind; hsimpl; [|by hrewrite].
    rewrite lookup_insert_eq. hsimpl.
    rewrite !lookup_insert_ne by (intros ->; by rewrite String.eqb_refl in Hne).
    hrewrite. rewrite list_lookup_alter_eq, Hroom. hsimpl.
    rewrite (findWith_alter (fun p => String.eqb (Player.userId p) user_id)
               (Player.set_socketId sid') _ _ _ (fun y => eq_refl) Hfind).
    hsimpl.
    by rewrite Hne.
Qed.

(** ** Joining *)

Lemma request_join_creates_room sid user_id user_name b c uuid st user :
  loadUser user_id st = Some user ->
  (b <= User.coins user)%Z ->
  findAvailableRoom b c st = None ->
  let st' := exec (request_join sid user_id user_name b c uuid) st in
  rooms st' = roomsSet uuid (length (heap st)) (rooms st)
  /\ loadUser user_id st' = Some (User.set_coins (User.coins user - b) user)
  /\ exists room,
       heap st' !! length (heap st) = Some room
       /\ Room.roomId room = uuid /\ Room.hostUserId room = user_id
       /\ Room.betAmount room = b /\ Room.maxPlayers room = c
       /\ Room.players room = [createPlayer user_id user_name 0 sid].
Proof.
  intros Hu Hc Hf st'. subst st'. unfold request_join, startGameIfFull, findAvailableRoom in *.
  hsimpl. rewrite Hu. destruct (Z.ltb_spec (User.coins user) b) as [?|_]; [lia|]. hsimpl.
  assert (Hnew : forall x : Room.t, (heap st ++ [x])%list !! length (heap st) = Some x)
    by (intros x; by apply list_lookup_middle).
  destruct (redisReady st) eqn:Hrdy; hsimpl; rewrite Hf; hsimpl;
    rewrite Hnew; hsimpl; rewrite ?list_lookup_alter_eq, ?Hnew; hsimpl;
    (match goal with |- context [if ?t then _ else _] => destruct t eqn:Hc1 end; hsimpl;
     repeat (progress (rewrite ?list_lookup_alter_eq, ?Hnew); hsimpl);
     (split; [reflexivity|]);
     (split; [unfold loadUser; hsimpl; rewrite Hrdy; apply lookup_insert_eq|]); eexists;
     (split; [rewrite ?list_lookup_alter_eq, ?Hnew; reflexivity|]); repeat split).
Qed.

(** The refusals that leave everything but the outbox as it was. *)
Lemma request_join_refused sid user_id user_name b c uuid st :
  let st' := exec (request_join sid user_id user_name b c uuid) st in
  (loadUser user_id st = None ->
     st' = set_outbox (outbox st ++ [mkEmit (ToSocket sid) (error_msg "User not found")])%list st)
  /\ (forall user,
        loadUser user_id st = Some user -> (User.coins user < b)%Z ->
        st' = set_outbox
                (outbox st ++ [mkEmit (ToSocket sid)
                                 (insufficient_coins_msg b (User.coins user))])%list st).
Proof.
  intros st'. subst st'. unfold request_join. split.
  - intros Hu. unfold exec, bind at 1, gets at 1. by rewrite Hu.
  - intros user Hu Hlt. unfold exec, bind at 1, gets at 1. rewrite Hu.
    apply Z.ltb_lt in Hlt. by rewrite Hlt.
Qed.

Lemma friend_create_room_refused sid user_id user_name b c code minted st :
  let st' := exec (friend_create_room sid user_id user_name b c code minted) st in
  (users st !! user_id = None ->
     st' = set_outbox
             (outbox st ++ [mkEmit (ToSocket sid)
                              (friend_error_response_msg "User not found")])%list st)
  /\ (forall user,
        users st !! user_id = Some user -> (User.coins user < b)%Z ->
        st' = set_outbox
                (outbox st ++ [mkEmit (ToSocket sid)
                                 (insufficient_coins_msg b (User.coins user))])%list st).
Proof.
  intros st'. subst st'. unfold friend_create_room. split.
  - intros Hu. unfold exec, bind at 1, gets at 1. by rewrite Hu.
  - intros user Hu Hlt. unfold exec, bind at 1, gets at 1. rewrite Hu.
    apply Z.ltb_lt in Hlt. by rewrite Hlt.
Qed.

Lemma friend_join_room_refused sid user_id user_name room_code st :
  let st' := exec (friend_join_room sid user_id user_name room_code) st in
  let refusal p := set_outbox (outbox st ++ [mkEmit (ToSocket sid) p])%list st in
  (roomsGet room_code (rooms st) = None ->
     st' = refusal (friend_error_response_msg "Room not found"))
  /\ (forall ref room,
        roomsGet room_code (rooms st) = Some ref -> heap st !! ref = Some room ->
        (Room.maxPlayers room <= Z.of_nat (length (Room.players room)))%Z ->
        st' = refusal (friend_error_response_msg "Room is full"))
  /\ (forall ref room,
        roomsGet room_code (rooms st) = Some ref -> heap st !! ref = Some room ->
        (Z.of_nat (length (Room.players room)) < Room.maxPlayers room)%Z ->
        users st !! user_id = None ->
        st' = refusal (friend_error_response_msg "User not found"))
  /\ (forall ref room user,
        roomsGet room_code (rooms st) = Some ref -> heap st !! ref = Some room ->
        (Z.of_nat (length (Room.players room)) < Room.maxPlayers room)%Z ->
        users st !! user_id = Some user ->
        (User.coins user < Room.betAmount room)%Z ->
        st' = refusal (insufficient_coins_msg (Room.betAmount room) (User.coins user))).
Proof.
  intros st' refusal. subst st' refusal. unfold friend_join_room. hsimpl.
  split; [|split; [|split]].
  - intros Hreg. by rewrite Hreg.
  - intros ref room Hreg Hroom Hfull. rewrite Hreg, Hroom.
    apply Z.leb_le in Hfull. by rewrite Hfull.
  - intros ref room Hreg Hroom Hfree Hu. rewrite Hreg, Hroom.
    apply Z.leb_gt in Hfree. rewrite Hfree. hsimpl. by rewrite Hu.
  - intros ref room user Hreg Hroom Hfree Hu Hlt. rewrite Hreg, Hroom.
    apply Z.leb_gt in Hfree. rewrite Hfree. hsimpl. rewrite Hu.
    apply Z.ltb_lt in Hlt. by rewrite Hlt.
Qed.

(** The refusal that comes after the debit: a room with a free seat whose
    status is no longer WAITING. *)
Lemma friend_join_room_started sid user_id user_name room_code st ref room user :
  roomsGet room_code (rooms st) = Some ref ->
  heap st !! ref = Some room ->
  (Z.of_nat (length (Room.players room)) < Room.maxPlayers room)%Z ->
  users st !! user_id = Some user ->
  (Room.betAmount room <= User.coins user)%Z ->
  Room.status room <> GAME_STATUS.WAITING ->
  exec (friend_join_room sid user_id user_name room_code) st
  = set_outbox
      (outbox st ++ [mkEmit (ToSocket sid)
                       (friend_error_response_msg "Game already started")])%list
      (set_users
         (<[user_id := User.set_coins (User.coins user - Room.betAmount room) user]>
            (users st)) st).
Proof.
  intros Hreg Hroom Hfree Hu Hge Hst. unfold friend_join_room. hsimpl.
  rewrite Hreg, Hroom. apply Z.leb_gt in Hfree. rewrite Hfree. hsimpl. rewrite Hu.
  destruct (Z.ltb_spec (User.coins user) (Room.betAmount room)) as [?|_]; [lia|]. hsimpl.
  by rewrite bool_decide_eq_false_2.
Qed.

(** ** Matchmaking, and the theorems above at concrete inputs *)

(** C8. [findAvailableRoom] returns the first room, in the insertion order
    of the registry, that is WAITING, has exactly the requested bet and
    size, and has a free seat: every room registered before it fails one of
    the four tests.  It returns nothing exactly when no registered room
    passes them, and [request_join] (for a user who can pay) then registers
    a fresh room under the new uuid and seats the user in it as peer 0. *)
Theorem findAvailableRoom_spec (betAmount playerCount : Z) (st : State) :
  (forall ref,
     findAvailableRoom betAmount playerCount st = Some ref ->
     exists pre key post room,
       rooms st = (pre ++ (key, ref) :: post)%list
       /\ heap st !! ref = Some room
       /\ Available betAmount playerCount room
       /\ forall key' ref' room',
            In (key', ref') pre -> heap st !! ref' = Some room' ->
            ~ Available betAmount playerCount room')
  /\ (findAvailableRoom betAmount playerCount st = None <->
      forall key ref room,
        In (key, ref) (rooms st) -> heap st !! ref = Some room ->
        ~ Available betAmount playerCount room)
  /\ (forall sid user_id user_name uuid user,
        findAvailableRoom betAmount playerCount st = None ->
        loadUser user_id st = Some user ->
        (betAmount <= User.coins user)%Z ->
        let st' := exec (request_join sid user_id user_name betAmount playerCount uuid) st in
        rooms st' = roomsSet uuid (length (heap st)) (rooms st)
        /\ exists room,
             heap st' !! length (heap st) = Some room
             /\ Room.roomId room = uuid
             /\ Room.betAmount room = betAmount
             /\ Room.maxPlayers room = playerCount
             /\ Room.players room = [createPlayer user_id user_name 0 sid]).
Proof.
  split; [|split].
  - intros ref. apply findAvailableIn_Some.
  - apply findAvailableIn_None.
  - intros sid user_id user_name uuid user Hnone Hu Hc st'.
    destruct (request_join_creates_room sid user_id user_name betAmount playerCount uuid
                st user Hu Hc Hnone) as (Hrooms & _ & room & Hroom & Hid & _ & Hbet & Hmax & Hps).
    split; [exact Hrooms|]. exists room. auto.
Qed.

(** Closes a goal between closed terms by evaluation. *)
Ltac by_compute := vm_compute; first [reflexivity | lia | discriminate].

(** Carol asks for a 2-player game with bet 100 while the only open room
    is the 4-player one: the lookup fails and a room is made for her. *)
Lemma findAvailableRoom_spec_witness :
  let st := run (waitingRoom ++ [Recv "sC" (E_get_userdata "C" "Carol")]) (initial false) in
  let st' := exec (request_join "sC" "C" "Carol" 100 2 "r3") st in
  findAvailableRoom 100 4 st = Some 0
  /\ findAvailableRoom 100 2 st = None
  /\ loadUser "C" st = Some (User.mk "C" "Carol" 1000 1 0 0 0)
  /\ rooms st' = [("r1", 0); ("r3", 1)].
Proof.
  intros st st'.
  assert (Hsome : findAvailableRoom 100 4 st = Some 0) by by_compute.
  assert (Hnone : findAvailableRoom 100 2 st = None) by by_compute.
  assert (Huser : loadUser "C" st = Some (User.mk "C" "Carol" 1000 1 0 0 0)) by by_compute.
  assert (Hcoins : (100 <= User.coins (User.mk "C" "Carol" 1000 1 0 0 0))%Z) by by_compute.
  destruct (findAvailableRoom_spec 100 2 st) as (_ & _ & Hcaller).
  destruct (Hcaller "sC" "C" "Carol" "r3" _ Hnone Huser Hcoins) as [Hrooms _].
  fold st' in Hrooms.
  split; [exact Hsome|]. split; [exact Hnone|]. split; [exact Huser|].
  rewrite Hrooms. by_compute.
Defined.

(** Three players of a 4-player room with bet 50 are WIN. *)
Lemma totalWinning_conservation_witness :
  let room :=
    Room.mk "r" "A" 50 4 GAME_STATUS.FINISHED
      [Player.mk "A" "Ann" 0 "sA" PLAYER_STATUS.WIN 0;
       Player.mk "B" "Bob" 1 "sB" PLAYER_STATUS.WIN 0;
       Player.mk "C" "Cy" 2 "sC" PLAYER_STATUS.WIN 0;
       Player.mk "D" "Di" 3 "sD" PLAYER_STATUS.PLAYING 0]
      0 None (GameData.mk 0 []) in
  Room.maxPlayers room = 4%Z
  /\ 2 <= winCount (Room.players room)
  /\ totalWinning (calculateGameResults room) = (4 * 50)%Z.
Proof.
  intros room.
  assert (Hmax : Room.maxPlayers room = 4%Z) by by_compute.
  assert (Hwins : 2 <= winCount (Room.players room)) by by_compute.
  destruct (totalWinning_conservation room) as (_ & _ & Hfour & _).
  split; [exact Hmax|]. split; [exact Hwins|]. exact (Hfour Hmax Hwins).
Defined.

(** The 4-player room with two players seated. *)
Lemma dice_and_token_in_waiting_room_witness :
  let st := run waitingRoom (initial false) in
  let room :=
    Room.mk "r1" "A" 100 4 GAME_STATUS.WAITING
      [Player.mk "A" "Ann" 0 "sA" PLAYER_STATUS.PLAYING 0;
       Player.mk "B" "Bob" 1 "sB" PLAYER_STATUS.PLAYING 0]
      0 None (GameData.mk 0 []) in
  roomsGet "r1" (rooms st) = Some 0
  /\ heap st !! 0 = Some room
  /\ Room.status room = GAME_STATUS.WAITING
  /\ timers (exec (dice_send "sA" "r1" 0 6) st)
     = [Timer.mk 0 TURN_TIMEOUT (TurnTimeout 0)]
  /\ outbox (exec (token_send "sA" "r1" 0 2 17) st)
     = (outbox st ++ [mkEmit (ToRoomExcept "r1" "sA") (token_recieved_msg 0 2 17 0)])%list.
Proof.
  intros st room.
  assert (Hreg : roomsGet "r1" (rooms st) = Some 0) by by_compute.
  assert (Hroom : heap st !! 0 = Some room) by by_compute.
  assert (Hstatus : Room.status room = GAME_STATUS.WAITING) by by_compute.
  destruct (dice_and_token_in_waiting_room "sA" "r1" st 0 room Hreg Hroom Hstatus)
    as [Hdice Htoken].
  destruct (Hdice 0%Z 6%Z) as (_ & Htimers & _).
  destruct (Htoken 0%Z 2%Z 17%Z) as (_ & _ & Hout).
  split; [exact Hreg|]. split; [exact Hroom|]. split; [exact Hstatus|].
  split; [rewrite Htimers; by_compute|exact Hout].
Defined.

(** Turn advancement on small rosters: the scan wraps around, skips WIN,
    LEFT and TIMEOUT players, and comes back to the current player when it
    is the only PLAYING one. *)
Example getNextTurn_wraps :
  getNextTurn
    (Room.mk "r" "A" 10 4 GAME_STATUS.PLAYING
       [Player.mk "A" "Ann" 0 "sA" PLAYER_STATUS.PLAYING 0;
        Player.mk "B" "Bob" 1 "sB" PLAYER_STATUS.WIN 0;
        Player.mk "C" "Cy" 2 "sC" PLAYER_STATUS.PLAYING 0;
        Player.mk "D" "Di" 3 "sD" PLAYER_STATUS.LEFT 0]
       2 None (GameData.mk 0 [])) = Some 0.
Proof. reflexivity. Qed.

Example getNextTurn_only_winners :
  getNextTurn
    (Room.mk "r" "A" 10 2 GAME_STATUS.PLAYING
       [Player.mk "A" "Ann" 0 "sA" PLAYER_STATUS.WIN 0;
        Player.mk "B" "Bob" 1 "sB" PLAYER_STATUS.TIMEOUT 0]
       0 None (GameData.mk 0 [])) = None.
Proof. reflexivity. Qed.

(** ** The boundary scenarios of the specification, run on the model *)

(** 2-player matchmaking win: both seated and debited, Ann wins 200. *)
Example scenario_two_player_win :
  let st := run twoPlayerGame (initial false) in
  let st' := step (Recv "sA" (E_win_game "r1" 0 1)) st in
  seated "r1" st = ["A"; "B"]
  /\ statusOf "r1" st = Some GAME_STATUS.PLAYING
  /\ coinsOf "A" st = Some 900%Z /\ coinsOf "B" st = Some 900%Z
  /\ last (outbox st')
     = Some (mkEmit (ToRoom "r1")
               (game_over_msg [Result.mk "Ann" "A" 200 1 PLAYER_STATUS.WIN;
                               Result.mk "Bob" "B" 0 2 PLAYER_STATUS.PLAYING]))
  /\ coinsOf "A" st' = Some 1100%Z /\ coinsOf "B" st' = Some 900%Z.
Proof. vm_compute. repeat split. Qed.

(** 4-player full settlement: P0 and P1 win (two players still PLAYING,
    the game goes on), then P2 wins and the game ends. *)
Example scenario_four_player_settlement :
  let join sid u n k := Recv sid (E_request_join u n 50 4 k) in
  let st :=
    run [Recv "s0" (E_get_userdata "P0" "P0"); Recv "s1" (E_get_userdata "P1" "P1");
         Recv "s2" (E_get_userdata "P2" "P2"); Recv "s3" (E_get_userdata "P3" "P3");
         join "s0" "P0" "P0" "r1"; join "s1" "P1" "P1" "r2";
         join "s2" "P2" "P2" "r3"; join "s3" "P3" "P3" "r4";
         Recv "s0" (E_win_game "r1" 0 1); Recv "s1" (E_win_game "r1" 1 2)]
        (initial false) in
  let st' := step (Recv "s2" (E_win_game "r1" 2 3)) st in
  statusOf "r1" st = Some GAME_STATUS.PLAYING
  /\ statusOf "r1" st' = Some GAME_STATUS.FINISHED
  /\ last (outbox st')
     = Some (mkEmit (ToRoom "r1")
               (game_over_msg [Result.mk "P0" "P0" 150 1 PLAYER_STATUS.WIN;
                               Result.mk "P1" "P1" 50 2 PLAYER_STATUS.WIN;
                               Result.mk "P2" "P2" 0 3 PLAYER_STATUS.WIN;
                               Result.mk "P3" "P3" 0 4 PLAYER_STATUS.PLAYING]))
  /\ coinsOf "P0" st' = Some 1100%Z /\ coinsOf "P1" st' = Some 1000%Z
  /\ coinsOf "P2" st' = Some 950%Z /\ coinsOf "P3" st' = Some 950%Z.
Proof. vm_compute. repeat split. Qed.

(** Triple timeout: Ann's third strike makes Bob the winner; the results
    come with the 2 s timer (handle 5). *)
Example scenario_triple_timeout :
  let st := run (twoPlayerGame ++ [Fire 0; Fire 1; Fire 2; Fire 3; Fire 4]) (initial false) in
  let st' := step (Fire 5) st in
  statusOf "r1" st = Some GAME_STATUS.FINISHED
  /\ timers st = [Timer.mk 5 2000 (DelayedGameOver 0)]
  /\ last (outbox st) = Some (mkEmit (ToRoom "r1") (win_game_msg 1))
  /\ last (outbox st')
     = Some (mkEmit (ToRoom "r1")
               (game_over_msg [Result.mk "Bob" "B" 200 1 PLAYER_STATUS.WIN;
                               Result.mk "Ann" "A" 0 2 PLAYER_STATUS.TIMEOUT]))
  /\ coinsOf "B" st' = Some 1100%Z /\ coinsOf "A" st' = Some 900%Z.
Proof. vm_compute. repeat split. Qed.

(** Insufficient coins: one refusal, no room, coins unchanged. *)
Example scenario_insufficient_coins :
  let st := run twoUsers (initial false) in
  let st' := step (Recv "sA" (E_request_join "A" "Ann" 2000 2 "r1")) st in
  outbox st' = (outbox st ++ [mkEmit (ToSocket "sA") (insufficient_coins_msg 2000 1000)])%list
  /\ rooms st' = []
  /\ coinsOf "A" st' = Some 1000%Z.
Proof. vm_compute. repeat split. Qed.

(** Friend room full: the third player is refused and keeps the coins. *)
Example scenario_friend_room_full :
  let st :=
    run (twoUsers ++ [Recv "sC" (E_get_userdata "C" "Carol");
                      Recv "sA" (E_friend_create_room "A" "Ann" 100 2 (Some "ABC123") "X1Y2Z3");
                      Recv "sB" (E_friend_join_room "B" "Bob" "ABC123")])
        (initial false) in
  let st' := step (Recv "sC" (E_friend_join_room "C" "Carol" "ABC123")) st in
  statusOf "ABC123" st = Some GAME_STATUS.PLAYING
  /\ outbox st'
     = (outbox st ++ [mkEmit (ToSocket "sC") (friend_error_response_msg "Room is full")])%list
  /\ seated "ABC123" st' = ["A"; "B"]
  /\ coinsOf "C" st' = Some 1000%Z.
Proof. vm_compute. repeat split. Qed.

(** * Invariants of the server *)

(** ** Rules of the Hoare logic *)

Lemma hoare_ret {A} (P : State -> Prop) (a : A) (Q : A -> State -> Prop) E :
  (forall st, P st -> Q a st) -> hoare P (ret a) Q E.
Proof. intros H st HP. apply H, HP. Qed.

Lemma hoare_exit {A} (P : State -> Prop) (Q : A -> State -> Prop) (E : State -> Prop) :
  (forall st, P st -> E st) -> hoare P (@exit A) Q E.
Proof. intros H st HP. apply H, HP. Qed.

Lemma hoare_gets {A} (P : State -> Prop) (f : State -> A) (Q : A -> State -> Prop) E :
  (forall st, P st -> Q (f st) st) -> hoare P (gets f) Q E.
Proof. intros H st HP. apply H, HP. Qed.

Lemma hoare_modify (P : State -> Prop) (f : State -> State) (Q : unit -> State -> Prop) E :
  (forall st, P st -> Q tt (f st)) -> hoare P (modify f) Q E.
Proof. intros H st HP. apply H, HP. Qed.

Lemma hoare_getRoom (P : State -> Prop) ref (Q : Room.t -> State -> Prop) (E : State -> Prop) :
  (forall st room, P st -> heap st !! ref = Some room -> Q room st) ->
  (forall st, P st -> E st) ->
  hoare P (getRoom ref) Q E.
Proof.
  intros HQ HE st HP. unfold getRoom. destruct (heap st !! ref) eqn:Hr; eauto.
Qed.

Lemma hoare_bind {A B} (P : State -> Prop) (m : Handler A) (k : A -> Handler B)
    (Q : A -> State -> Prop) (Q' : B -> State -> Prop) (E : State -> Prop) :
  hoare P m Q E -> (forall a, hoare (Q a) (k a) Q' E) -> hoare P (bind m k) Q' E.
Proof.
  intros Hm Hk st HP. unfold bind. specialize (Hm st HP).
  destruct (m st) as [st' [a|]]; [apply Hk, Hm | exact Hm].
Qed.

Lemma hoare_weaken {A} (P P' : State -> Prop) (m : Handler A)
    (Q Q' : A -> State -> Prop) (E E' : State -> Prop) :
  hoare P' m Q' E' ->
  (forall st, P st -> P' st) ->
  (forall a st, Q' a st -> Q a st) ->
  (forall st, E' st -> E st) ->
  hoare P m Q E.
Proof.
  intros Hm HP HQ HE st Hst. specialize (Hm st (HP st Hst)).
  destruct (m st) as [st' [a|]]; eauto.
Qed.

(** What the handler learns from a read stays true while it runs [k]. *)
Lemma hoare_gets_bind {A B} (P : State -> Prop) (f : State -> A) (k : A -> Handler B)
    (Q : B -> State -> Prop) (E : State -> Prop) :
  (forall a, hoare (fun st => P st /\ f st = a) (k a) Q E) ->
  hoare P (bind (gets f) k) Q E.
Proof. intros Hk st HP. unfold bind, gets. apply (Hk (f st) st). by split. Qed.

Lemma hoare_getRoom_bind {B} (P : State -> Prop) ref (k : Room.t -> Handler B)
    (Q : B -> State -> Prop) (E : State -> Prop) :
  (forall st, P st -> E st) ->
  (forall room, hoare (fun st => P st /\ heap st !! ref = Some room) (k room) Q E) ->
  hoare P (bind (getRoom ref) k) Q E.
Proof.
  intros HE Hk st HP. unfold bind, getRoom.
  destruct (heap st !! ref) as [room|] eqn:Hr; [|by apply HE].
  apply (Hk room st). by split.
Qed.

Lemma keeps_ret {A} (I : State -> Prop) (a : A) : keeps I (ret a).
Proof. by apply hoare_ret. Qed.

Lemma keeps_exit {A} (I : State -> Prop) : keeps I (@exit A).
Proof. by apply hoare_exit. Qed.

Lemma keeps_gets {A} (I : State -> Prop) (f : State -> A) : keeps I (gets f).
Proof. by apply hoare_gets. Qed.

Lemma keeps_getRoom (I : State -> Prop) ref : keeps I (getRoom ref).
Proof. by apply hoare_getRoom. Qed.

Lemma keeps_modify (I : State -> Prop) (f : State -> State) :
  (forall st, I st -> I (f st)) -> keeps I (modify f).
Proof. intros H. by apply hoare_modify. Qed.

Lemma keeps_bind {A B} (I : State -> Prop) (m : Handler A) (k : A -> Handler B) :
  keeps I m -> (forall a, keeps I (k a)) -> keeps I (bind m k).
Proof. intros Hm Hk. eapply hoare_bind; [exact Hm|exact Hk]. Qed.

(** Knowledge the rest of the handler does not need is dropped. *)
Lemma keeps_knowing {A} (P X : State -> Prop) (m : Handler A) Q E :
  hoare P m Q E -> hoare (fun st => P st /\ X st) m Q E.
Proof. intros Hm. eapply hoare_weaken; [exact Hm| |done|done]. by intros st []. Qed.

Lemma keeps_exec (I : State -> Prop) (m : Handler unit) st : keeps I m -> I st -> I (exec m st).
Proof. intros Hm HI. specialize (Hm st HI). unfold exec. by destruct (m st) as [st' [[]|]]. Qed.

Create HintDb keeps.

(** A handler that is a sequence of computations that keep [I]. *)
Ltac keeps_step tac :=
  try match goal with |- hoare ?I ?m (fun _ => ?I) ?I => change (keeps I m) end;
  first
    [ apply keeps_ret | apply keeps_exit | apply keeps_gets | apply keeps_getRoom
    | solve [tac]
    | match goal with
      | |- keeps _ (bind _ _) => apply keeps_bind; [|intros ?]
      | |- keeps _ (match ?x with _ => _ end) => destruct x
      end ].

Ltac keeps_auto := repeat keeps_step ltac:(eauto with keeps).

Lemma Forall2_peerId_refl (ps : list Player.t) :
  Forall2 (fun p p' => Player.peerId p' = Player.peerId p) ps ps.
Proof. induction ps; by constructor. Qed.

Lemma Forall2_peerId_alter (f : Player.t -> Player.t) i (ps : list Player.t) :
  (forall p, Player.peerId (f p) = Player.peerId p) ->
  Forall2 (fun p p' => Player.peerId p' = Player.peerId p) ps (alter f i ps).
Proof.
  intros Hf. revert i. induction ps as [|p ps IH]; intros i; [constructor|].
  destruct i as [|i].
  - change (alter f 0 (p :: ps)) with (f p :: ps).
    constructor; [apply Hf|apply Forall2_peerId_refl].
  - change (alter f (S i) (p :: ps)) with (p :: alter f i ps).
    constructor; [reflexivity|apply IH].
Qed.

Lemma evolves_players (f : Player.t -> Player.t) i r :
  (forall p, Player.peerId (f p) = Player.peerId p) ->
  evolves r (Room.set_players (alter f i (Room.players r)) r).
Proof.
  intros Hf. unfold evolves. simpl. repeat split; auto using Forall2_peerId_alter.
Qed.

Lemma evolves_finished r : evolves r (Room.set_status GAME_STATUS.FINISHED r).
Proof. unfold evolves. simpl. repeat split; auto using Forall2_peerId_refl. Qed.

Lemma evolves_currentTurn n r : evolves r (Room.set_currentTurn n r).
Proof. unfold evolves. simpl. repeat split; auto using Forall2_peerId_refl. Qed.

Lemma evolves_gameData g r : evolves r (Room.set_gameData g r).
Proof. unfold evolves. simpl. repeat split; auto using Forall2_peerId_refl. Qed.

(** ** Handlers built from computations that keep an invariant *)

Section Keeps.

Variable I : State -> Prop.

Hypothesis K_emit : forall t p, keeps I (emit t p).
Hypothesis K_modifySocket : forall sid f, keeps I (modifySocket sid f).
Hypothesis K_userSockets :
  forall g : State -> gmap string string,
    keeps I (modify (fun st => set_userSockets (g st) st)).
Hypothesis K_storeUser : forall user_id user, keeps I (storeUser user_id user).
Hypothesis K_updateLeaderboard : forall user_id w, keeps I (updateLeaderboard user_id w).
Hypothesis K_clearTimeout : forall h, keeps I (clearTimeout h).
Hypothesis K_setTimeout :
  forall cb delay, (forall ref, cb <> TurnTimeout ref) -> keeps I (setTimeout cb delay).
Hypothesis K_startTurnTimer : forall ref, keeps I (startTurnTimer ref).
Hypothesis K_clearTurnTimer : forall ref, keeps I (clearTurnTimer ref).
Hypothesis K_roomsDelete :
  forall k, keeps I (modify (fun st => set_rooms (roomsDelete k (rooms st)) st)).
Hypothesis K_modifyRoom :
  forall ref f, (forall r, evolves r (f r)) -> keeps I (modifyRoom ref f).
Hypothesis K_request_join :
  forall sid u n b c uuid, keeps I (request_join sid u n b c uuid).
Hypothesis K_friend_create_room :
  forall sid u n b c code minted, keeps I (friend_create_room sid u n b c code minted).
Hypothesis K_friend_join_room :
  forall sid u n code, keeps I (friend_join_room sid u n code).

Lemma keeps_modifyPlayer ref i f :
  (forall p, Player.peerId (f p) = Player.peerId p) -> keeps I (modifyPlayer ref i f).
Proof. intros Hf. apply K_modifyRoom. intros r. by apply evolves_players. Qed.

Lemma keeps_set_status ref i s : keeps I (modifyPlayer ref i (Player.set_status s)).
Proof. by apply keeps_modifyPlayer. Qed.

Lemma keeps_set_socketId ref i s : keeps I (modifyPlayer ref i (Player.set_socketId s)).
Proof. by apply keeps_modifyPlayer. Qed.

Lemma keeps_set_numoftimeout ref i n :
  keeps I (modifyPlayer ref i (Player.set_numoftimeout n)).
Proof. by apply keeps_modifyPlayer. Qed.

Lemma keeps_finish ref : keeps I (modifyRoom ref (Room.set_status GAME_STATUS.FINISHED)).
Proof. apply K_modifyRoom, evolves_finished. Qed.

Lemma keeps_set_currentTurn ref n : keeps I (modifyRoom ref (Room.set_currentTurn n)).
Proof. apply K_modifyRoom, evolves_currentTurn. Qed.

Lemma keeps_set_gameData ref (g : Room.t -> GameData.t) :
  keeps I (modifyRoom ref (fun r => Room.set_gameData (g r) r)).
Proof. apply K_modifyRoom. intros r. apply evolves_gameData. Qed.

Lemma keeps_socketJoin sid room : keeps I (socketJoin sid room).
Proof. apply K_modifySocket. Qed.

Lemma keeps_socketLeave sid room : keeps I (socketLeave sid room).
Proof. apply K_modifySocket. Qed.

Lemma keeps_markPlayer ref peer_id s : keeps I (markPlayer ref peer_id s).
Proof.
  unfold markPlayer. destruct (indexOf peer_id); [apply keeps_set_status|apply keeps_ret].
Qed.

Hint Resolve K_emit K_modifySocket K_userSockets K_storeUser K_updateLeaderboard
  K_clearTimeout K_startTurnTimer K_clearTurnTimer K_roomsDelete
  keeps_set_status keeps_set_socketId keeps_set_numoftimeout keeps_finish
  keeps_set_currentTurn keeps_set_gameData keeps_socketJoin keeps_socketLeave
  keeps_markPlayer : keeps.

Lemma keeps_setTimeout_other cb delay :
  match cb with TurnTimeout _ => False | _ => True end -> keeps I (setTimeout cb delay).
Proof. intros Hcb. apply K_setTimeout. intros ref ->. exact Hcb. Qed.

Hint Extern 1 (keeps _ (setTimeout _ _)) =>
  apply keeps_setTimeout_other; exact Logic.I : keeps.

Lemma keeps_updatePlayerCoinsAndStats results : keeps I (updatePlayerCoinsAndStats results).
Proof. induction results as [|r rs IH]; simpl; keeps_auto. Qed.

Hint Resolve keeps_updatePlayerCoinsAndStats : keeps.

Lemma keeps_settleAndAnnounce ref group : keeps I (settleAndAnnounce ref group).
Proof. unfold settleAndAnnounce. keeps_auto. Qed.

Hint Resolve keeps_settleAndAnnounce : keeps.

Lemma keeps_turnTimeout ref : keeps I (turnTimeout ref).
Proof. unfold turnTimeout. keeps_auto. Qed.

Lemma keeps_runCallback cb : keeps I (runCallback cb).
Proof.
  destruct cb; simpl;
    [apply keeps_turnTimeout | unfold delayedGameOver | unfold roomCleanup
     | unfold disconnectGrace]; keeps_auto.
Qed.

Lemma keeps_handle sid e : keeps I (handle sid e).
Proof.
  destruct e; simpl; auto;
    [unfold add_user | unfold get_userdata | unfold dice_send | unfold token_send
     | unfold token_reset | unfold change_turn | unfold win_game | unfold leave_room
     | unfold get_previous_room | unfold disconnect]; keeps_auto.
Qed.

Lemma step_keeps i st : I st -> I (step i st).
Proof.
  intros HI. destruct i as [sid e|h]; simpl.
  - by apply keeps_exec; [apply keeps_handle|].
  - destruct (pendingTimer h st); [|assumption].
    apply keeps_exec; [|assumption].
    apply keeps_bind; [apply K_clearTimeout|intros _; apply keeps_runCallback].
Qed.

Lemma run_keeps inputs st : I st -> I (run inputs st).
Proof.
  revert st. induction inputs as [|i inputs IH]; intros st HI; [assumption|].
  apply IH, step_keeps, HI.
Qed.

End Keeps.
(** ** The invariant of timers, registry and room objects *)

Lemma roomsSet_keys k v m x : x ∈ (roomsSet k v m).*1 -> x = k \/ x ∈ m.*1.
Proof.
  induction m as [|[k' v'] m IH]; simpl.
  - intros Hx. apply list_elem_of_singleton in Hx. by left.
  - destruct (String.eqb k' k) eqn:Hk; simpl; intros Hx.
    + apply String.eqb_eq in Hk as ->. by right.
    + apply elem_of_cons in Hx as [->|Hx]; [right; left|].
      destruct (IH Hx) as [->|Hin]; [by left|right; by right].
Qed.

Lemma roomsSet_NoDup k v m : NoDup m.*1 -> NoDup (roomsSet k v m).*1.
Proof.
  induction m as [|[k' v'] m IH]; simpl; intros Hnd.
  - apply NoDup_singleton.
  - apply NoDup_cons in Hnd as [Hnotin Hnd].
    destruct (String.eqb k' k) eqn:Hk; simpl.
    + apply String.eqb_eq in Hk as ->. by apply NoDup_cons.
    + apply NoDup_cons. split; [|by apply IH].
      intros Hin. apply roomsSet_keys in Hin as [->|Hin]; [|done].
      by rewrite String.eqb_refl in Hk.
Qed.

Lemma roomsSet_Forall (P : string * nat -> Prop) k v m :
  Forall P m -> P (k, v) -> Forall P (roomsSet k v m).
Proof.
  intros Hm Hkv. induction Hm as [|[k' v'] m Hx Hm IH]; simpl.
  - by constructor.
  - destruct (String.eqb k' k); by constructor.
Qed.

Lemma filter_Forall {A} (P : A -> Prop) (f : A -> bool) (l : list A) :
  Forall P l -> Forall P (List.filter f l).
Proof.
  intros Hl. induction Hl as [|x l Hx Hl IH]; simpl; [constructor|].
  destruct (f x); [by constructor|assumption].
Qed.

Lemma filter_fmap_NoDup {A B} (g : A -> B) (f : A -> bool) (l : list A) :
  NoDup (g <$> l) -> NoDup (g <$> List.filter f l).
Proof.
  induction l as [|x l IH]; simpl; [done|]. intros Hnd.
  apply NoDup_cons in Hnd as [Hnotin Hnd]. destruct (f x); simpl; [|by apply IH].
  apply NoDup_cons. split; [|by apply IH].
  intros Hin. apply Hnotin. apply list_elem_of_fmap in Hin as (y & -> & Hy).
  apply list_elem_of_fmap. exists y. split; [done|].
  apply list_elem_of_In. apply list_elem_of_In, filter_In in Hy. tauto.
Qed.

(** [Inv] does not read users, sockets or the outbox. *)
Lemma Inv_frame R st st' :
  heap st' = heap st -> rooms st' = rooms st -> timers st' = timers st ->
  nextTimer st' = nextTimer st -> Inv R st -> Inv R st'.
Proof.
  unfold Inv, timersOk, turnTimersOk, registryOk. by intros -> -> -> ->.
Qed.

Lemma Inv_alter R st ref f :
  (forall r, heap st !! ref = Some r -> R r -> R (f r)) ->
  (forall r, Room.turnTimer (f r) = Room.turnTimer r) ->
  (forall r, Room.roomId (f r) = Room.roomId r) ->
  Inv R st -> Inv R (set_heap (alter f ref (heap st)) st).
Proof.
  intros HR Ht Hid (Htm & Htt & (Hnd & Hreg) & Hrooms).
  split; [exact Htm|]. split; [|split; [split; [exact Hnd|]|]]; simpl.
  - eapply Forall_impl; [exact Htt|]. intros t Ht' ref' Hcb.
    destruct (Ht' ref' Hcb) as (room & Hroom & Hh). simpl.
    destruct (decide (ref' = ref)) as [->|Hne].
    + exists (f room). rewrite list_lookup_alter_eq, Hroom. by rewrite Ht.
    + exists room. by rewrite list_lookup_alter_ne.
  - eapply Forall_impl; [exact Hreg|]. intros [k v] (room & Hroom & Hk). simpl in *.
    destruct (decide (v = ref)) as [->|Hne].
    + exists (f room). rewrite list_lookup_alter_eq, Hroom. by rewrite Hid.
    + exists room. by rewrite list_lookup_alter_ne.
  - apply Forall_alter; [exact Hrooms|]. intros r Hr HRr. by apply HR.
Qed.

Lemma Inv_clearTimeout R h : keeps (Inv R) (clearTimeout h).
Proof.
  apply keeps_modify. intros st ((Hnd & Hlt) & Htt & Hreg & Hrooms).
  split; [split|split; [|by split]]; simpl.
  - by apply filter_fmap_NoDup.
  - by apply filter_Forall.
  - by apply filter_Forall.
Qed.

Lemma timersOk_fresh st h :
  timersOk st -> h ∈ Timer.handle <$> timers st -> h < nextTimer st.
Proof.
  intros [_ Hlt] Hin. apply list_elem_of_fmap in Hin as (t & -> & Hin).
  by eapply (proj1 (Forall_forall _ _) Hlt).
Qed.

Lemma timersOk_setTimeout st cb delay : timersOk st -> timersOk (fst (setTimeout cb delay st)).
Proof.
  intros Hok. pose proof Hok as [Hnd Hlt]. split; simpl.
  - rewrite fmap_app. apply NoDup_app. split; [exact Hnd|]. split; [|apply NoDup_singleton].
    intros x Hx Hx'. apply list_elem_of_singleton in Hx' as ->.
    apply (timersOk_fresh _ _ Hok) in Hx. simpl in Hx. lia.
  - apply Forall_app. split.
    + eapply Forall_impl; [exact Hlt|]. simpl. intros; lia.
    + constructor; [simpl; lia|constructor].
Qed.

Lemma Inv_setTimeout R cb delay :
  (forall ref, cb <> TurnTimeout ref) -> keeps (Inv R) (setTimeout cb delay).
Proof.
  intros Hcb st (Htm & Htt & Hreg & Hrooms). unfold setTimeout.
  split; [by apply (timersOk_setTimeout st cb delay)|]. split; [|by split].
  unfold turnTimersOk. simpl. apply Forall_app. split; [exact Htt|].
  constructor; [|constructor]. simpl. intros ref Heq. by destruct (Hcb ref).
Qed.

(** The pending timers of [ref] go with the handle its room records. *)
Lemma turnTimersOk_cancel st ref room :
  turnTimersOk st -> heap st !! ref = Some room ->
  Forall (fun t => forall ref', Timer.callback t = TurnTimeout ref' -> ref' <> ref)
         (cancel (Room.turnTimer room) (timers st)).
Proof.
  intros Htt Hroom. unfold cancel. destruct (Room.turnTimer room) as [h|] eqn:Hh.
  - apply Forall_forall. intros t Hin ref' Hcb ->.
    apply list_elem_of_In, filter_In in Hin as [Hin Hne]. apply list_elem_of_In in Hin.
    destruct (proj1 (Forall_forall _ _) Htt t Hin ref Hcb) as (room' & Hroom' & Hh').
    assert (room' = room) as -> by congruence. rewrite Hh in Hh'. injection Hh' as ->.
    by rewrite Nat.eqb_refl in Hne.
  - apply Forall_forall. intros t Hin ref' Hcb ->.
    destruct (proj1 (Forall_forall _ _) Htt t Hin ref Hcb) as (room' & Hroom' & Hh').
    assert (room' = room) as -> by congruence. by rewrite Hh in Hh'.
Qed.

Lemma cancel_Forall (P : Timer.t -> Prop) h ts : Forall P ts -> Forall P (cancel h ts).
Proof. destruct h; simpl; [apply filter_Forall|done]. Qed.

Lemma cancel_NoDup h ts : NoDup (Timer.handle <$> ts) -> NoDup (Timer.handle <$> cancel h ts).
Proof. destruct h; simpl; [apply filter_fmap_NoDup|done]. Qed.

Lemma startTurnTimer_run ref st room :
  heap st !! ref = Some room ->
  startTurnTimer ref st
  = (set_heap (alter (Room.set_turnTimer (Some (nextTimer st))) ref (heap st))
       (set_nextTimer (S (nextTimer st))
          (set_timers (cancel (Room.turnTimer room) (timers st)
                         ++ [Timer.mk (nextTimer st) TURN_TIMEOUT (TurnTimeout ref)])%list st)),
     Some tt).
Proof. intros Hroom. hsimpl. rewrite Hroom. by destruct (Room.turnTimer room). Qed.

Lemma clearTurnTimer_run ref st room :
  heap st !! ref = Some room ->
  clearTurnTimer ref st
  = (match Room.turnTimer room with
     | Some h =>
         set_heap (alter (Room.set_turnTimer None) ref (heap st))
           (set_timers (cancel (Some h) (timers st)) st)
     | None => st
     end, Some tt).
Proof. intros Hroom. hsimpl. rewrite Hroom. by destruct (Room.turnTimer room). Qed.

Section RoomInv.

Variable R : Room.t -> Prop.

Hypothesis R_evolves : forall r r', evolves r r' -> R r -> R r'.
Hypothesis R_turnTimer : forall h r, R r -> R (Room.set_turnTimer h r).
Hypothesis R_create : forall k host bet n, R (createRoom k host bet n).
Hypothesis R_seat :
  forall r u name sid,
    R r -> Room.status r = GAME_STATUS.WAITING ->
    (Z.of_nat (length (Room.players r)) < Room.maxPlayers r)%Z \/ Room.players r = [] ->
    R (Room.set_players
         (Room.players r ++ [createPlayer u name (Z.of_nat (length (Room.players r))) sid]) r).
Hypothesis R_start :
  forall r, R r -> Z.of_nat (length (Room.players r)) = Room.maxPlayers r ->
            R (Room.set_status GAME_STATUS.PLAYING r).

Lemma Inv_emit t p : keeps (Inv R) (emit t p).
Proof. apply keeps_modify. intros st. by apply Inv_frame. Qed.

Lemma Inv_modifySocket sid f : keeps (Inv R) (modifySocket sid f).
Proof. apply keeps_modify. intros st. by apply Inv_frame. Qed.

Lemma Inv_userSockets (g : State -> gmap string string) :
  keeps (Inv R) (modify (fun st => set_userSockets (g st) st)).
Proof. apply keeps_modify. intros st. by apply Inv_frame. Qed.

Lemma Inv_storeUser user_id user : keeps (Inv R) (storeUser user_id user).
Proof. apply keeps_modify. intros st. destruct (redisReady st); by apply Inv_frame. Qed.

Lemma Inv_updateLeaderboard user_id w : keeps (Inv R) (updateLeaderboard user_id w).
Proof. apply keeps_modify. intros st. by apply Inv_frame. Qed.

Lemma Inv_set_users (g : State -> gmap string User.t) :
  keeps (Inv R) (modify (fun st => set_users (g st) st)).
Proof. apply keeps_modify. intros st. by apply Inv_frame. Qed.

Lemma Inv_roomsDelete k :
  keeps (Inv R) (modify (fun st => set_rooms (roomsDelete k (rooms st)) st)).
Proof.
  apply keeps_modify. intros st (Htm & Htt & (Hnd & Hreg) & Hrooms).
  split; [exact Htm|]. split; [exact Htt|]. split; [|exact Hrooms]. split; simpl.
  - by apply filter_fmap_NoDup.
  - by apply filter_Forall.
Qed.

Lemma Inv_modifyRoom ref f : (forall r, evolves r (f r)) -> keeps (Inv R) (modifyRoom ref f).
Proof.
  intros Hf. apply keeps_modify. intros st. apply Inv_alter.
  - intros r _. apply R_evolves, Hf.
  - intros r. apply (Hf r).
  - intros r. apply (Hf r).
Qed.

Lemma Inv_startTurnTimer ref : keeps (Inv R) (startTurnTimer ref).
Proof.
  intros st HI. destruct (heap st !! ref) as [room|] eqn:Hroom.
  2:{ unfold startTurnTimer, bind, getRoom. by rewrite Hroom. }
  rewrite (startTurnTimer_run _ _ _ Hroom).
  destruct HI as (Htm & Htt & (Hnd & Hreg) & Hrooms).
  pose proof (turnTimersOk_cancel _ _ _ Htt Hroom) as Hcancel.
  pose proof Htm as [Hnd' Hlt].
  split; [|split; [|split; [split; [exact Hnd|]|]]]; simpl.
  - split; simpl.
    + rewrite fmap_app. apply NoDup_app. split; [by apply cancel_NoDup|].
      split; [|apply NoDup_singleton].
      intros x Hx Hx'. apply list_elem_of_singleton in Hx' as ->.
      apply list_elem_of_fmap in Hx as (t & Ht & Hin).
      pose proof (proj1 (Forall_forall _ _) (cancel_Forall _ (Room.turnTimer room) _ Hlt) t Hin)
        as Hlt'.
      simpl in *. lia.
    + apply Forall_app. split.
      * apply cancel_Forall. eapply Forall_impl; [exact Hlt|]. simpl. intros; lia.
      * constructor; [simpl; lia|constructor].
  - unfold turnTimersOk. simpl. apply Forall_app. split.
    + apply Forall_forall. intros t Hin ref' Hcb.
      pose proof (proj1 (Forall_forall _ _) Hcancel t Hin ref' Hcb) as Hne.
      pose proof (proj1 (Forall_forall _ _) (cancel_Forall _ (Room.turnTimer room) _ Htt) t Hin
                    ref' Hcb) as (room' & Hroom' & Hh').
      exists room'. by rewrite list_lookup_alter_ne.
    + constructor; [|constructor]. simpl. intros ref' [= <-].
      eexists. rewrite list_lookup_alter_eq, Hroom. split; reflexivity.
  - eapply Forall_impl; [exact Hreg|]. intros [k v] (room' & Hroom' & Hk). simpl in *.
    destruct (decide (v = ref)) as [->|Hne].
    + eexists. rewrite list_lookup_alter_eq, Hroom'. split; [reflexivity|exact Hk].
    + exists room'. by rewrite list_lookup_alter_ne.
  - apply Forall_alter; [exact Hrooms|]. intros r _. apply R_turnTimer.
Qed.

Lemma Inv_clearTurnTimer ref : keeps (Inv R) (clearTurnTimer ref).
Proof.
  intros st HI. destruct (heap st !! ref) as [room|] eqn:Hroom.
  2:{ unfold clearTurnTimer, bind, getRoom. by rewrite Hroom. }
  rewrite (clearTurnTimer_run _ _ _ Hroom).
  destruct (Room.turnTimer room) as [h|] eqn:Hh; [|exact HI].
  destruct HI as (Htm & Htt & (Hnd & Hreg) & Hrooms).
  pose proof (turnTimersOk_cancel _ _ _ Htt Hroom) as Hcancel. rewrite Hh in Hcancel.
  pose proof Htm as [Hnd' Hlt].
  split; [|split; [|split; [split; [exact Hnd|]|]]]; simpl.
  - split; simpl; [by apply filter_fmap_NoDup|by apply filter_Forall].
  - unfold turnTimersOk. simpl. apply Forall_forall. intros t Hin ref' Hcb.
    pose proof (proj1 (Forall_forall _ _) Hcancel t Hin ref' Hcb) as Hne.
    pose proof (proj1 (Forall_forall _ _) (cancel_Forall _ (Some h) _ Htt) t Hin
                  ref' Hcb) as (room' & Hroom' & Hh').
    exists room'. by rewrite list_lookup_alter_ne.
  - eapply Forall_impl; [exact Hreg|]. intros [k v] (room' & Hroom' & Hk). simpl in *.
    destruct (decide (v = ref)) as [->|Hne].
    + eexists. rewrite list_lookup_alter_eq, Hroom'. split; [reflexivity|exact Hk].
    + exists room'. by rewrite list_lookup_alter_ne.
  - apply Forall_alter; [exact Hrooms|]. intros r _. apply R_turnTimer.
Qed.

(** Creating a room object and registering it under its id. *)
Lemma Inv_register st k host bet n :
  Inv R st ->
  Inv R (set_rooms (roomsSet k (length (heap st)) (rooms st))
           (set_heap (heap st ++ [createRoom k host bet n]) st)).
Proof.
  intros (Htm & Htt & (Hnd & Hreg) & Hrooms).
  split; [exact Htm|]. split; [|split; [split|]]; simpl.
  - eapply Forall_impl; [exact Htt|]. intros t Ht ref Hcb.
    destruct (Ht ref Hcb) as (room & Hroom & Hh). exists room.
    split; [|exact Hh]. by apply lookup_app_l_Some.
  - by apply roomsSet_NoDup.
  - apply roomsSet_Forall.
    + eapply Forall_impl; [exact Hreg|]. intros [k' v] (room & Hroom & Hk). exists room.
      split; [|exact Hk]. by apply lookup_app_l_Some.
    + eexists. simpl. split; [by apply list_lookup_middle|reflexivity].
  - apply Forall_app. split; [exact Hrooms|]. constructor; [apply R_create|constructor].
Qed.

Lemma Inv_startGameIfFull ref group coin arm :
  keeps (Inv R) (startGameIfFull ref group coin arm).
Proof.
  unfold startGameIfFull. apply hoare_getRoom_bind; [done|]. intros room.
  destruct (Z.eqb_spec (Z.of_nat (length (Room.players room))) (Room.maxPlayers room))
    as [Hfull|_]; [|apply keeps_knowing, keeps_ret].
  eapply hoare_bind with (Q := fun _ => Inv R).
  - apply hoare_modify. intros st [HI Hroom]. apply Inv_alter; try done.
    intros r Hr HRr. assert (r = room) as -> by congruence. by apply R_start.
  - intros _. apply keeps_bind; [apply Inv_modifyRoom, evolves_currentTurn|]. intros _.
    apply keeps_bind; [apply Inv_emit|]. intros _.
    destruct arm; [apply Inv_startTurnTimer|apply keeps_ret].
Qed.

(** Seating a player in a WAITING room with a free seat, or in an empty
    room. *)
Lemma Inv_seat ref room u name sid :
  hoare (fun st => Inv R st /\ heap st !! ref = Some room
                   /\ Room.status room = GAME_STATUS.WAITING
                   /\ ((Z.of_nat (length (Room.players room)) < Room.maxPlayers room)%Z
                       \/ Room.players room = []))
        (modifyRoom ref (fun r =>
           Room.set_players
             (Room.players r
                ++ [createPlayer u name (Z.of_nat (length (Room.players room))) sid]) r))
        (fun _ => Inv R) (Inv R).
Proof.
  apply hoare_modify. intros st (HI & Hroom & Hst & Hfree). apply Inv_alter; try done.
  intros r Hr HRr. assert (r = room) as -> by congruence. by apply R_seat.
Qed.

Lemma Inv_request_join sid u n b c uuid : keeps (Inv R) (request_join sid u n b c uuid).
Proof.
  unfold request_join. apply keeps_bind; [apply keeps_gets|]. intros [user|].
  2:{ apply keeps_bind; [apply Inv_emit|intros _; apply keeps_exit]. }
  destruct (User.coins user <? b)%Z.
  { apply keeps_bind; [apply Inv_emit|intros _; apply keeps_exit]. }
  apply keeps_bind; [apply Inv_storeUser|]. intros _.
  apply hoare_gets_bind. intros found.
  eapply hoare_bind with
    (Q := fun ref st =>
            Inv R st /\ exists room,
              heap st !! ref = Some room /\ Room.status room = GAME_STATUS.WAITING
              /\ ((Z.of_nat (length (Room.players room)) < Room.maxPlayers room)%Z
                  \/ Room.players room = [])).
  - destruct found as [ref|].
    + apply hoare_ret. intros st [HI Hfound]. split; [exact HI|].
      apply findAvailableIn_Some in Hfound as (_ & _ & _ & room & _ & Hroom & Hav & _).
      exists room. split; [exact Hroom|]. destruct Hav as (Hst & _ & Hmax & Hlen).
      split; [exact Hst|]. left. by rewrite Hmax.
    + intros st [HI _]. hsimpl. split; [by apply Inv_register|].
      eexists. split; [by apply list_lookup_middle|]. split; [reflexivity|]. by right.
  - intros ref. apply hoare_getRoom_bind; [by intros st [HI _]|]. intros room.
    eapply hoare_bind with (Q := fun _ => Inv R).
    + eapply hoare_weaken; [apply (Inv_seat ref room)| |done|done].
      intros st ((HI & room' & Hroom' & Hst & Hfree) & Hroom).
      assert (room' = room) as -> by congruence. done.
    + intros _. apply keeps_bind; [apply Inv_modifySocket|]. intros _.
      apply keeps_bind; [apply Inv_modifySocket|]. intros _.
      apply Inv_startGameIfFull.
Qed.

Lemma Inv_friend_create_room sid u n b c code minted :
  keeps (Inv R) (friend_create_room sid u n b c code minted).
Proof.
  unfold friend_create_room. apply keeps_bind; [apply keeps_gets|]. intros [user|].
  2:{ apply keeps_bind; [apply Inv_emit|intros _; apply keeps_exit]. }
  destruct (User.coins user <? b)%Z.
  { apply keeps_bind; [apply Inv_emit|intros _; apply keeps_exit]. }
  apply keeps_bind; [apply Inv_set_users|]. intros _.
  set (roomId := match code with Some (String a s) => String a s | _ => minted end).
  intros st HI. hsimpl.
  apply (Inv_frame R
           (set_heap (alter (fun r => Room.set_players
                                (Room.players r ++ [createPlayer u n 0 sid])%list r)
                        (length (heap st))
                        (heap st ++ [createRoom roomId u b c])%list)
              (set_rooms (roomsSet roomId (length (heap st)) (rooms st))
                 (set_heap (heap st ++ [createRoom roomId u b c]) st))));
    try reflexivity.
  apply Inv_alter; try done; [|by apply Inv_register].
  simpl. intros r Hr HRr. rewrite list_lookup_middle in Hr by done. injection Hr as <-.
  apply (R_seat (createRoom roomId u b c) u n sid); [apply R_create|reflexivity|by right].
Qed.

Lemma Inv_friend_join_room sid u n code : keeps (Inv R) (friend_join_room sid u n code).
Proof.
  unfold friend_join_room. apply keeps_bind; [apply keeps_gets|]. intros [ref|].
  2:{ apply keeps_bind; [apply Inv_emit|intros _; apply keeps_exit]. }
  apply hoare_getRoom_bind; [done|]. intros room.
  destruct (Z.leb_spec (Room.maxPlayers room) (Z.of_nat (length (Room.players room))))
    as [_|Hfree].
  { apply keeps_knowing, keeps_bind; [apply Inv_emit|intros _; apply keeps_exit]. }
  apply hoare_gets_bind. intros [user|].
  2:{ do 2 apply keeps_knowing. apply keeps_bind; [apply Inv_emit|intros _; apply keeps_exit]. }
  destruct (User.coins user <? Room.betAmount room)%Z.
  { do 2 apply keeps_knowing. apply keeps_bind; [apply Inv_emit|intros _; apply keeps_exit]. }
  apply hoare_bind with (Q := fun _ st => Inv R st /\ heap st !! ref = Some room).
  { apply hoare_modify. intros st [[HI Hroom] _]. split; [|exact Hroom].
    revert HI. by apply Inv_frame. }
  intros _. destruct (decide (Room.status room = GAME_STATUS.WAITING)) as [Hst|Hst].
  2:{ rewrite bool_decide_eq_false_2 by done. simpl.
      apply keeps_knowing, keeps_bind; [apply Inv_emit|intros _; apply keeps_exit]. }
  rewrite bool_decide_eq_true_2 by done. simpl.
  eapply hoare_bind with (Q := fun _ => Inv R).
  - eapply hoare_weaken; [apply (Inv_seat ref room)| |done|done].
    intros st [HI Hroom]. split; [exact HI|]. split; [exact Hroom|]. split; [exact Hst|].
    by left.
  - intros _. apply keeps_bind; [apply Inv_modifySocket|]. intros _.
    apply keeps_bind; [apply Inv_modifySocket|]. intros _.
    apply keeps_bind; [apply Inv_emit|]. intros _.
    apply Inv_startGameIfFull.
Qed.

Lemma Inv_initial ready : Inv R (initial ready).
Proof.
  split; [split; [apply NoDup_nil_2|constructor]|].
  split; [constructor|]. split; [split; [apply NoDup_nil_2|constructor]|constructor].
Qed.

(** The invariant holds in every state the event loop reaches. *)
Lemma Inv_run inputs ready : Inv R (run inputs (initial ready)).
Proof.
  apply run_keeps; [| | | | | | | | | | | | | |apply Inv_initial];
    auto using Inv_emit, Inv_modifySocket, Inv_userSockets, Inv_storeUser,
      Inv_updateLeaderboard, Inv_clearTimeout, Inv_setTimeout, Inv_startTurnTimer,
      Inv_clearTurnTimer, Inv_roomsDelete, Inv_modifyRoom, Inv_request_join,
      Inv_friend_create_room, Inv_friend_join_room.
Qed.

(** [remove_from_matchmaking] keeps the invariant when [R] allows a
    WAITING room to lose a player. *)
Hypothesis R_splice :
  forall r i, R r -> Room.status r = GAME_STATUS.WAITING ->
              R (Room.set_players (delete i (Room.players r)) r).

Lemma Inv_removeFromWaiting sid userId entries :
  keeps (Inv R) (removeFromWaiting sid userId entries).
Proof.
  induction entries as [|[roomId ref] rest IH]; simpl; [apply keeps_ret|].
  apply hoare_gets_bind. intros [room|]; [|apply keeps_knowing, IH].
  destruct (decide (Room.status room = GAME_STATUS.WAITING)) as [Hst|Hst].
  2:{ rewrite bool_decide_eq_false_2 by done.
      apply keeps_knowing, IH. }
  rewrite bool_decide_eq_true_2 by done.
  destruct (findWith _ _) as [[playerIndex p]|];
    [|apply keeps_knowing, IH].
  apply hoare_bind with (Q := fun _ => Inv R).
  - apply hoare_modify. intros st [HI Hroom]. apply Inv_alter; try done.
    intros r Hr HRr. assert (r = room) as -> by congruence. by apply R_splice.
  - intros _. apply keeps_bind; [apply Inv_modifySocket|]. intros _.
    apply keeps_bind; [apply keeps_getRoom|]. intros room'.
    destruct (length (Room.players room') =? 0)%nat; [apply Inv_roomsDelete|apply keeps_ret].
Qed.

Lemma Inv_serve r st : Inv R st -> Inv R (serve r st).
Proof.
  intros HI. destruct r as [i|sid userId]; simpl.
  - revert HI. apply step_keeps;
      auto using Inv_emit, Inv_modifySocket, Inv_userSockets, Inv_storeUser,
        Inv_updateLeaderboard, Inv_clearTimeout, Inv_setTimeout, Inv_startTurnTimer,
        Inv_clearTurnTimer, Inv_roomsDelete, Inv_modifyRoom, Inv_request_join,
        Inv_friend_create_room, Inv_friend_join_room.
  - apply keeps_exec; [|exact HI]. unfold remove_from_matchmaking.
    apply keeps_bind; [apply keeps_gets|]. intros entries. apply Inv_removeFromWaiting.
Qed.

(** The invariant holds in every state the server reaches. *)
Lemma Inv_serveAll requests ready : Inv R (serveAll requests (initial ready)).
Proof.
  unfold serveAll. generalize (Inv_initial ready). generalize (initial ready).
  induction requests as [|r requests IH]; intros st HI; [assumption|].
  apply IH, Inv_serve, HI.
Qed.

End RoomInv.
(** ** The two properties of room objects *)

Lemma seatsOk_evolves r r' : evolves r r' -> seatsOk r -> seatsOk r'.
Proof.
  intros (_ & _ & Hmax & _ & _ & Hst & Hps) [Hfull Hcap].
  apply Forall2_length in Hps. unfold seatsOk. rewrite Hmax, <- Hps.
  split; [|exact Hcap]. intros Hplaying. apply Hfull.
  destruct Hst as [<-|Hfin]; [exact Hplaying|congruence].
Qed.

Lemma seatsOk_turnTimer h r : seatsOk r -> seatsOk (Room.set_turnTimer h r).
Proof. by intros []. Qed.

Lemma seatsOk_create k host bet n : seatsOk (createRoom k host bet n).
Proof. split; simpl; [discriminate|lia]. Qed.

Lemma seatsOk_seat r u name sid :
  seatsOk r -> Room.status r = GAME_STATUS.WAITING ->
  (Z.of_nat (length (Room.players r)) < Room.maxPlayers r)%Z \/ Room.players r = [] ->
  seatsOk (Room.set_players
             (Room.players r ++ [createPlayer u name (Z.of_nat (length (Room.players r))) sid])
             r).
Proof.
  intros [_ Hcap] Hst Hfree. split; simpl; [congruence|].
  rewrite length_app. simpl. destruct Hfree as [Hlt|Hnil]; [|rewrite Hnil in *]; simpl; lia.
Qed.

Lemma seatsOk_start r :
  seatsOk r -> Z.of_nat (length (Room.players r)) = Room.maxPlayers r ->
  seatsOk (Room.set_status GAME_STATUS.PLAYING r).
Proof. intros _ Hfull. split; simpl; [done|lia]. Qed.

Lemma seatsOk_splice r i :
  seatsOk r -> Room.status r = GAME_STATUS.WAITING ->
  seatsOk (Room.set_players (delete i (Room.players r)) r).
Proof.
  intros [_ Hcap] Hst. split; simpl; [congruence|]. intros Hmax. specialize (Hcap Hmax).
  pose proof (sublist_length _ _ (sublist_delete (Room.players r) i)). lia.
Qed.

Lemma Inv_seatsOk requests ready : Inv seatsOk (serveAll requests (initial ready)).
Proof.
  apply Inv_serveAll.
  - apply seatsOk_evolves.
  - apply seatsOk_turnTimer.
  - apply seatsOk_create.
  - apply seatsOk_seat.
  - apply seatsOk_start.
  - apply seatsOk_splice.
Qed.

Lemma peerIdsOk_evolves r r' : evolves r r' -> peerIdsOk r -> peerIdsOk r'.
Proof.
  intros (_ & _ & _ & _ & _ & _ & Hps) Hok i p' Hp'.
  destruct (Forall2_lookup_r _ _ _ _ _ Hps Hp') as (p & Hp & ->). by apply Hok.
Qed.

Lemma peerIdsOk_seat r u name sid :
  peerIdsOk r ->
  peerIdsOk (Room.set_players
               (Room.players r
                  ++ [createPlayer u name (Z.of_nat (length (Room.players r))) sid]) r).
Proof.
  intros Hok i p. simpl. intros Hp. apply lookup_app_Some in Hp as [Hp|[Hge Hp]].
  - by apply Hok.
  - apply list_lookup_singleton_Some in Hp as [Hi <-]. simpl. f_equal. lia.
Qed.

Lemma Inv_peerIdsOk inputs ready : Inv peerIdsOk (run inputs (initial ready)).
Proof.
  apply Inv_run.
  - apply peerIdsOk_evolves.
  - by intros h r.
  - intros k host bet n i p Hp. simpl in Hp. by rewrite lookup_nil in Hp.
  - intros r u name sid Hok _ _. by apply peerIdsOk_seat.
  - by intros r.
Qed.

Lemma roomsGet_In k ref m : roomsGet k m = Some ref -> (k, ref) ∈ m.
Proof.
  induction m as [|[k' v] m IH]; simpl; [discriminate|].
  destruct (String.eqb k' k) eqn:Hk.
  - apply String.eqb_eq in Hk as ->. intros [= ->]. left.
  - intros Hget. right. by apply IH.
Qed.
(** ** What holds in every state the server reaches *)

Lemma roomsGet_lookup m i k v :
  NoDup m.*1 -> m !! i = Some (k, v) -> roomsGet k m = Some v.
Proof.
  revert i. induction m as [|[k' v'] m IH]; intros i Hnd Hi; [by rewrite lookup_nil in Hi|].
  simpl in *. apply NoDup_cons in Hnd as [Hnotin Hnd]. destruct i as [|i]; simpl in Hi.
  - injection Hi as -> ->. by rewrite String.eqb_refl.
  - destruct (String.eqb k' k) eqn:Hk; [|by eapply IH].
    apply String.eqb_eq in Hk as ->. destruct Hnotin.
    apply list_elem_of_fmap. exists (k, v). split; [done|]. by eapply list_elem_of_lookup_2.
Qed.

(** X1. In every state the server reaches, a room has at most one pending
    turn timer, and it is the one whose handle the room records in
    [turnTimer]: two pending timers whose callback is the turn timeout of
    the same room object are the same entry of the timer list. *)
Theorem pending_turn_timer_unique requests ready i j t1 t2 ref :
  let st := serveAll requests (initial ready) in
  timers st !! i = Some t1 -> timers st !! j = Some t2 ->
  Timer.callback t1 = TurnTimeout ref -> Timer.callback t2 = TurnTimeout ref ->
  i = j
  /\ exists room, heap st !! ref = Some room /\ Room.turnTimer room = Some (Timer.handle t1).
Proof.
  intros st Hi Hj Hc1 Hc2.
  destruct (Inv_seatsOk requests ready) as ((Hnd & _) & Htt & _). fold st in Hnd, Htt.
  destruct (Forall_lookup_1 _ _ _ _ Htt Hi ref Hc1) as (room & Hroom & Hh1).
  destruct (Forall_lookup_1 _ _ _ _ Htt Hj ref Hc2) as (room' & Hroom' & Hh2).
  assert (room' = room) as -> by congruence.
  split; [|by exists room].
  assert (Heq : Timer.handle t2 = Timer.handle t1) by congruence.
  apply (NoDup_lookup _ i j (Timer.handle t1) Hnd); rewrite list_lookup_fmap.
  - by rewrite Hi.
  - by rewrite Hj, <- Heq.
Qed.

(** X2. In every state the server reaches, the keys of the room registry
    are distinct and name live room objects: the entry at any position is
    the one [rooms.get] finds under its key, and the room object it holds
    carries that key as its [roomId]. *)
Theorem registry_entry_is_its_room requests ready i room_id ref :
  let st := serveAll requests (initial ready) in
  rooms st !! i = Some (room_id, ref) ->
  roomsGet room_id (rooms st) = Some ref
  /\ exists room, heap st !! ref = Some room /\ Room.roomId room = room_id.
Proof.
  intros st Hi. destruct (Inv_seatsOk requests ready) as (_ & _ & (Hnd & Hreg) & _).
  fold st in Hnd, Hreg. split; [by eapply roomsGet_lookup|].
  exact (Forall_lookup_1 _ _ _ _ Hreg Hi).
Qed.

(** X3. In every state the server reaches, a room object whose status is
    PLAYING has exactly [maxPlayers] players, and a room object created
    for at least one player never has more than [maxPlayers] players. *)
Theorem playing_room_is_full requests ready ref room :
  let st := serveAll requests (initial ready) in
  heap st !! ref = Some room ->
  (Room.status room = GAME_STATUS.PLAYING ->
   Z.of_nat (length (Room.players room)) = Room.maxPlayers room)
  /\ (1 <= Room.maxPlayers room ->
      Z.of_nat (length (Room.players room)) <= Room.maxPlayers room)%Z.
Proof.
  intros st Href. destruct (Inv_seatsOk requests ready) as (_ & _ & _ & Hrooms).
  exact (Forall_lookup_1 _ _ _ _ Hrooms Href).
Qed.

(** X4. As long as no [remove_from_matchmaking] is served, the peer id of
    every player of every room object is the player's position in the
    roster, which is how the handlers address [room.players[peer_id]]. *)
Theorem peer_id_is_position inputs ready ref room i p :
  heap (run inputs (initial ready)) !! ref = Some room ->
  Room.players room !! i = Some p ->
  Player.peerId p = Z.of_nat i.
Proof.
  intros Href Hp. destruct (Inv_peerIdsOk inputs ready) as (_ & _ & _ & Hrooms).
  exact (Forall_lookup_1 _ _ _ _ Hrooms Href i p Hp).
Qed.
(** ** Users in Redis only *)

Lemma redisOnly_frame st st' :
  users st' = users st -> redisReady st' = redisReady st -> redisOnly st -> redisOnly st'.
Proof. unfold redisOnly. by intros -> ->. Qed.

Lemma redisOnly_modify (f : State -> State) :
  (forall st, users (f st) = users st) -> (forall st, redisReady (f st) = redisReady st) ->
  keeps redisOnly (modify f).
Proof. intros Hu Hr. apply keeps_modify. intros st. by apply redisOnly_frame. Qed.

Lemma redisOnly_storeUser user_id user : keeps redisOnly (storeUser user_id user).
Proof. apply keeps_modify. intros st [Hr Hu]. rewrite Hr. by split. Qed.

Lemma redisOnly_setTimeout cb delay : keeps redisOnly (setTimeout cb delay).
Proof. intros st. by apply redisOnly_frame. Qed.

Lemma redisOnly_allocRoom room : keeps redisOnly (allocRoom room).
Proof. intros st. by apply redisOnly_frame. Qed.

Lemma redisOnly_modifyRoom ref f : keeps redisOnly (modifyRoom ref f).
Proof. by apply redisOnly_modify. Qed.

Lemma redisOnly_modifySocket sid f : keeps redisOnly (modifySocket sid f).
Proof. by apply redisOnly_modify. Qed.

Lemma redisOnly_emit t p : keeps redisOnly (emit t p).
Proof. by apply redisOnly_modify. Qed.

Lemma redisOnly_clearTimeout h : keeps redisOnly (clearTimeout h).
Proof. by apply redisOnly_modify. Qed.

Lemma redisOnly_set_rooms (g : State -> list (string * nat)) :
  keeps redisOnly (modify (fun st => set_rooms (g st) st)).
Proof. by apply redisOnly_modify. Qed.

Lemma redisOnly_set_userSockets (g : State -> gmap string string) :
  keeps redisOnly (modify (fun st => set_userSockets (g st) st)).
Proof. by apply redisOnly_modify. Qed.

Lemma redisOnly_updateLeaderboard user_id w : keeps redisOnly (updateLeaderboard user_id w).
Proof. by apply redisOnly_modify. Qed.

Ltac redisOnly_auto :=
  repeat keeps_step
    ltac:(first [ apply redisOnly_storeUser | apply redisOnly_setTimeout
                | apply redisOnly_allocRoom | apply redisOnly_modifyRoom
                | apply redisOnly_modifySocket | apply redisOnly_emit
                | apply redisOnly_clearTimeout | apply redisOnly_set_rooms
                | apply redisOnly_set_userSockets | apply redisOnly_updateLeaderboard ]).

Lemma redisOnly_startTurnTimer ref : keeps redisOnly (startTurnTimer ref).
Proof. unfold startTurnTimer. redisOnly_auto. Qed.

Lemma redisOnly_clearTurnTimer ref : keeps redisOnly (clearTurnTimer ref).
Proof. unfold clearTurnTimer. redisOnly_auto. Qed.

Lemma redisOnly_request_join sid u n b c uuid :
  keeps redisOnly (request_join sid u n b c uuid).
Proof.
  unfold request_join, startGameIfFull, startTurnTimer, socketJoin. redisOnly_auto.
Qed.

(** No user is ever found in the in-memory map. *)
Lemma redisOnly_no_user {A} u (k : option User.t -> Handler A) :
  keeps redisOnly (k None) ->
  keeps redisOnly (bind (gets (fun st => users st !! u)) k).
Proof.
  intros Hk st HI. unfold bind, gets. destruct HI as [Hr Hu].
  rewrite Hu, lookup_empty. apply Hk. by split.
Qed.

Lemma redisOnly_friend_create_room sid u n b c code minted :
  keeps redisOnly (friend_create_room sid u n b c code minted).
Proof. unfold friend_create_room. apply redisOnly_no_user. redisOnly_auto. Qed.

Lemma redisOnly_friend_join_room sid u n code :
  keeps redisOnly (friend_join_room sid u n code).
Proof.
  unfold friend_join_room. apply keeps_bind; [apply keeps_gets|]. intros [ref|];
    [|redisOnly_auto].
  apply keeps_bind; [apply keeps_getRoom|]. intros room.
  destruct (Room.maxPlayers room <=? _)%Z; [redisOnly_auto|].
  apply redisOnly_no_user. redisOnly_auto.
Qed.

Lemma redisOnly_removeFromWaiting sid userId entries :
  keeps redisOnly (removeFromWaiting sid userId entries).
Proof.
  induction entries as [|[roomId ref] rest IH]; simpl; [apply keeps_ret|].
  unfold socketLeave. repeat keeps_step ltac:(first [exact IH|progress redisOnly_auto]).
Qed.

Lemma redisOnly_serveAll requests : redisOnly (serveAll requests (initial true)).
Proof.
  unfold serveAll. assert (H0 : redisOnly (initial true)) by by split.
  revert H0. generalize (initial true).
  induction requests as [|r requests IH]; intros st HI; [assumption|].
  apply IH. destruct r as [i|sid userId]; simpl.
  - revert HI. apply step_keeps.
    + apply redisOnly_emit.
    + apply redisOnly_modifySocket.
    + apply redisOnly_set_userSockets.
    + apply redisOnly_storeUser.
    + apply redisOnly_updateLeaderboard.
    + apply redisOnly_clearTimeout.
    + intros cb delay _. apply redisOnly_setTimeout.
    + apply redisOnly_startTurnTimer.
    + apply redisOnly_clearTurnTimer.
    + intros k. apply redisOnly_set_rooms.
    + intros ref f _. apply redisOnly_modifyRoom.
    + apply redisOnly_request_join.
    + apply redisOnly_friend_create_room.
    + apply redisOnly_friend_join_room.
  - apply keeps_exec; [|exact HI]. unfold remove_from_matchmaking.
    apply keeps_bind; [apply keeps_gets|]. intros entries. apply redisOnly_removeFromWaiting.
Qed.

(** X5. While the Redis client is ready from the start, users are created
    and updated in Redis only, so the in-memory [users] map stays empty.
    [friend_create_room] reads that map whatever the state of Redis:
    in every state the server reaches, it answers any request with
    [friend_error_response] "User not found" and changes nothing else. *)
Theorem friend_create_room_with_redis requests sid user_id user_name b c code minted :
  let st := serveAll requests (initial true) in
  users st = ∅
  /\ exec (friend_create_room sid user_id user_name b c code minted) st
     = set_outbox
         (outbox st ++ [mkEmit (ToSocket sid)
                          (friend_error_response_msg "User not found")])%list st.
Proof.
  intros st. destruct (redisOnly_serveAll requests) as [_ Hu]. fold st in Hu.
  split; [exact Hu|].
  apply (friend_create_room_refused sid user_id user_name b c code minted st).
  by rewrite Hu, lookup_empty.
Qed.
(** ** Leaving a room *)

Lemma marked_frame peer_id s room :
  Room.turnTimer (marked peer_id s room) = Room.turnTimer room
  /\ Room.status (marked peer_id s room) = Room.status room
  /\ Room.roomId (marked peer_id s room) = Room.roomId room
  /\ length (Room.players (marked peer_id s room)) = length (Room.players room).
Proof.
  unfold marked. destruct (indexOf peer_id); simpl; [|done].
  by rewrite length_alter.
Qed.

Lemma set_turnTimer_None r : Room.turnTimer r = None -> Room.set_turnTimer None r = r.
Proof. destruct r. simpl. by intros ->. Qed.

Lemma inGroup_left room (s : Socket.t) :
  inGroup room
    (Socket.set_joined (List.filter (fun g => negb (String.eqb g room)) (Socket.joined s)) s)
  = false.
Proof.
  unfold inGroup. simpl. induction (Socket.joined s) as [|g gs IH]; [reflexivity|]. simpl.
  destruct (String.eqb g room) eqn:Hg; simpl; [exact IH|].
  rewrite String.eqb_sym, Hg. exact IH.
Qed.

(** X6. When a player leaves a PLAYING room and exactly one player is then
    still PLAYING, [leave_room] ends the game: the turn timer is cleared,
    the room becomes FINISHED, the remaining player is marked WIN,
    [win_game] and [game_over] with the ranked results go to the room, and
    the user store is the one settlement produces.  The leaver's socket has
    left the group.  Unlike [win_game], no timer is scheduled: the room
    stays registered. *)
Theorem leave_room_last_opponent sid room_id peer_id st ref room :
  roomsGet room_id (rooms st) = Some ref ->
  heap st !! ref = Some room ->
  Room.status room = GAME_STATUS.PLAYING ->
  let room1 := marked peer_id PLAYER_STATUS.LEFT room in
  playingCount (Room.players room1) = 1 ->
  let st' := exec (leave_room sid room_id peer_id) st in
  exists w winner,
    findWith is_playing (Room.players room1) = Some (w, winner)
    /\ let room2 :=
         Room.set_players
           (alter (Player.set_status PLAYER_STATUS.WIN) w (Room.players room1))
           (Room.set_status GAME_STATUS.FINISHED (Room.set_turnTimer None room1)) in
       let results := calculateGameResults room2 in
       heap st' !! ref = Some room2
       /\ timers st' = cancel (Room.turnTimer room) (timers st)
       /\ nextTimer st' = nextTimer st
       /\ rooms st' = rooms st
       /\ store st' = store (exec (updatePlayerCoinsAndStats results) st)
       /\ outbox st'
          = (outbox st ++ [mkEmit (ToRoomExcept room_id sid) (leave_room_msg peer_id);
                           mkEmit (ToRoom room_id) (win_game_msg (Player.peerId winner));
                           mkEmit (ToRoom room_id) (game_over_msg results)])%list
       /\ Socket.currentRoomId (getSocket sid st') = None
       /\ inGroup room_id (getSocket sid st') = false.
Proof.
  intros Hreg Hroom Hstatus room1 Hcount st'.
  assert (Hlt : ref < length (heap st)) by (eapply lookup_lt_Some; eassumption).
  destruct (marked_frame peer_id PLAYER_STATUS.LEFT room) as (Htimer & Hst1 & _ & _).
  fold room1 in Htimer, Hst1.
  destruct (findWith_playing_count _ Hcount) as (w & winner & Hfind).
  exists w, winner. split; [exact Hfind|]. intros room2 results.
  remember st' as st2 eqn:E. unfold st', exec, leave_room in E. clear st'.
  unfold bind at 1 in E. unfold gets at 1 in E. rewrite Hreg in E.
  unfold bind at 1 in E. rewrite (markPlayer_run _ _ _ _ _ Hroom) in E. fold room1 in E.
  hsimpl. rewrite list_lookup_insert_eq in E by assumption.
  rewrite Hcount, Hst1, Hstatus in E. hsimpl.
  rewrite list_lookup_insert_eq in E by assumption. rewrite Htimer in E.
  rewrite Hfind in E.
  assert (Hsock : forall (s : Socket.t) (m : gmap string Socket.t),
             default Socket.fresh (<[sid := s]> m !! sid) = s)
    by (intros; by rewrite lookup_insert_eq).
  destruct (Room.turnTimer room) as [h|] eqn:Hh; hsimpl.
  - rewrite !list_lookup_alter_eq, list_lookup_insert_eq in E by assumption. hsimpl.
    match type of E with context [updatePlayerCoinsAndStats ?r ?s] =>
      destruct (updatePlayerCoinsAndStats_run r s) as (st3 & Hrun & Hsame);
      pose proof (updatePlayerCoinsAndStats_store r s st eq_refl) as Hstore;
      unfold exec in Hstore; rewrite Hrun in E, Hstore end.
    hsimpl. destruct Hsame as (Hhp & Hrms & _ & Hsk & Htm & Hnt & Hob). hsimpl.
    subst st2. hsimpl.
    rewrite Hhp, Htm, Hnt, Hob, Hrms, Hsk, <- !app_assoc.
    rewrite !list_lookup_alter_eq, list_lookup_insert_eq by assumption.
    rewrite !Hsock. repeat split; try assumption. apply inGroup_left.
  - rewrite !list_lookup_alter_eq, list_lookup_insert_eq in E by assumption. hsimpl.
    match type of E with context [updatePlayerCoinsAndStats ?r ?s] =>
      destruct (updatePlayerCoinsAndStats_run r s) as (st3 & Hrun & Hsame);
      pose proof (updatePlayerCoinsAndStats_store r s st eq_refl) as Hstore;
      unfold exec in Hstore; rewrite Hrun in E, Hstore end.
    hsimpl. destruct Hsame as (Hhp & Hrms & _ & Hsk & Htm & Hnt & Hob). hsimpl.
    subst st2. hsimpl.
    rewrite Hhp, Htm, Hnt, Hob, Hrms, Hsk, <- !app_assoc.
    rewrite !list_lookup_alter_eq, list_lookup_insert_eq by assumption.
    rewrite !Hsock.
    assert (Hnone : Room.set_turnTimer None room1 = room1)
      by (apply set_turnTimer_None; congruence).
    unfold results, room2. rewrite Hnone.
    repeat split; try assumption. apply inGroup_left.
Qed.
(** X7. When a player leaves and no player of the room is then PLAYING,
    [leave_room] clears the turn timer and removes the room from the
    registry.  Nothing is settled: the user store is unchanged, so the
    stakes of the room are not paid out and not refunded, and the only
    emission is the [leave_room] relay. *)
Theorem leave_room_last_player sid room_id peer_id st ref room :
  roomsGet room_id (rooms st) = Some ref ->
  heap st !! ref = Some room ->
  let room1 := marked peer_id PLAYER_STATUS.LEFT room in
  playingCount (Room.players room1) = 0 ->
  let st' := exec (leave_room sid room_id peer_id) st in
  rooms st' = roomsDelete room_id (rooms st)
  /\ roomsGet room_id (rooms st') = None
  /\ heap st' !! ref = Some (Room.set_turnTimer None room1)
  /\ timers st' = cancel (Room.turnTimer room) (timers st)
  /\ nextTimer st' = nextTimer st
  /\ store st' = store st
  /\ outbox st'
     = (outbox st ++ [mkEmit (ToRoomExcept room_id sid) (leave_room_msg peer_id)])%list.
Proof.
  intros Hreg Hroom room1 Hcount st'.
  assert (Hlt : ref < length (heap st)) by (eapply lookup_lt_Some; eassumption).
  destruct (marked_frame peer_id PLAYER_STATUS.LEFT room) as (Htimer & _ & _ & _).
  fold room1 in Htimer.
  remember st' as st2 eqn:E. unfold st', exec, leave_room in E. clear st'.
  unfold bind at 1 in E. unfold gets at 1 in E. rewrite Hreg in E.
  unfold bind at 1 in E. rewrite (markPlayer_run _ _ _ _ _ Hroom) in E. fold room1 in E.
  hsimpl. rewrite list_lookup_insert_eq in E by assumption.
  rewrite Hcount in E. hsimpl.
  rewrite list_lookup_insert_eq in E by assumption. rewrite Htimer in E.
  destruct (Room.turnTimer room) as [h|] eqn:Hh; hsimpl; subst st2; hsimpl.
  - rewrite list_lookup_alter_eq, list_lookup_insert_eq by assumption.
    repeat split. apply roomsGet_delete.
  - rewrite list_lookup_insert_eq by assumption.
    rewrite set_turnTimer_None by congruence. repeat split. apply roomsGet_delete.
Qed.

(** ** Passing the turn *)

Lemma getNextTurn_playing room i :
  getNextTurn room = Some i -> playingAt (Room.players room) i.
Proof.
  unfold getNextTurn.
  destruct (Nat.eqb_spec
              (length (List.filter (fun p => is_playing p || is_win p) (Room.players room))) 0)
    as [|Hne]; [discriminate|].
  intros Hscan.
  assert (HN : length (Room.players room) <> 0).
  { destruct (Room.players room); [simpl in Hne; congruence|simpl; lia]. }
  apply scanTurn_Some in Hscan; [|assumption|by apply Nat.mod_upper_bound].
  by destruct Hscan as (k & _ & _ & Hp & _).
Qed.

Lemma getNextTurn_active room j :
  playingAt (Room.players room) j -> exists i, getNextTurn room = Some i.
Proof.
  intros (p & Hp & Hst). unfold getNextTurn.
  set (ps := Room.players room) in *.
  assert (Hj : j < length ps) by (eapply lookup_lt_Some; eassumption).
  destruct (Nat.eqb_spec (length (List.filter (fun p => is_playing p || is_win p) ps)) 0)
    as [Hempty|_].
  { exfalso. eapply (active_empty_no_playing ps Hempty p); [|exact Hst].
    apply list_elem_of_In. by eapply list_elem_of_lookup_2. }
  assert (HN : length ps <> 0) by lia.
  assert (Hstart : (Room.currentTurn room + 1) mod length ps < length ps)
    by (by apply Nat.mod_upper_bound).
  destruct (scanTurn ps (length ps) ((Room.currentTurn room + 1) mod length ps))
    as [i|] eqn:Hscan; [eauto|].
  exfalso. destruct (cyclic_reach _ j _ Hstart Hj) as (k & Hk & Hkj).
  eapply (scanTurn_None ps _ _ HN Hstart Hscan k Hk). rewrite Hkj. by exists p.
Qed.

Lemma getNextTurn_ext r1 r2 :
  Room.players r1 = Room.players r2 -> Room.currentTurn r1 = Room.currentTurn r2 ->
  getNextTurn r1 = getNextTurn r2.
Proof. unfold getNextTurn. by intros -> ->. Qed.

(** X8. [change_turn] for a registered room replaces the turn timer and
    passes the turn to the player [getNextTurn] finds, who is PLAYING: the
    cursor moves there, [turn_changed] with that player's peer id goes to
    the whole room, and a fresh 30 s timer is the room's only turn timer.
    When no player is PLAYING, the room is told [game_over] with the reason
    "No active players" and is left as it was, with no turn timer: its
    status does not change and nothing is settled. *)
Theorem change_turn_passes_the_turn sid room_id peer_id st ref room :
  roomsGet room_id (rooms st) = Some ref ->
  heap st !! ref = Some room ->
  let st' := exec (change_turn sid room_id peer_id) st in
  (forall nextTurn,
     getNextTurn room = Some nextTurn ->
     exists currentPlayer,
       Room.players room !! nextTurn = Some currentPlayer
       /\ Player.status currentPlayer = PLAYER_STATUS.PLAYING
       /\ heap st' !! ref
          = Some (Room.set_turnTimer (Some (nextTimer st))
                    (Room.set_currentTurn nextTurn room))
       /\ timers st'
          = (cancel (Room.turnTimer room) (timers st)
               ++ [Timer.mk (nextTimer st) TURN_TIMEOUT (TurnTimeout ref)])%list
       /\ store st' = store st
       /\ outbox st'
          = (outbox st ++ [mkEmit (ToRoom room_id)
                             (turn_changed_msg (Player.peerId currentPlayer))])%list)
  /\ (getNextTurn room = None ->
        heap st' !! ref = Some (Room.set_turnTimer None room)
        /\ timers st' = cancel (Room.turnTimer room) (timers st)
        /\ rooms st' = rooms st
        /\ store st' = store st
        /\ outbox st'
           = (outbox st ++ [mkEmit (ToRoom room_id)
                              (game_over_reason_msg "No active players")])%list).
Proof.
  intros Hreg Hroom st'.
  assert (Hlt : ref < length (heap st)) by (eapply lookup_lt_Some; eassumption).
  remember st' as st2 eqn:E. unfold st', exec, change_turn in E. clear st'.
  unfold bind at 1 in E. unfold gets at 1 in E. rewrite Hreg in E.
  unfold bind at 1 in E. rewrite (clearTurnTimer_run _ _ _ Hroom) in E.
  split.
  - intros nextTurn Hnext. destruct (getNextTurn_playing _ _ Hnext) as (p & Hp & Hst).
    exists p. split; [exact Hp|]. split; [exact Hst|].
    destruct (Room.turnTimer room) as [h|] eqn:Hh.
    + hsimpl. rewrite list_lookup_alter_eq, Hroom in E. hsimpl.
      rewrite (getNextTurn_ext (Room.set_turnTimer None room) room eq_refl eq_refl), Hnext in E. hsimpl.
      rewrite Hp in E. hsimpl.
      rewrite !list_lookup_alter_eq, Hroom in E. hsimpl. subst st2. hsimpl.
      rewrite !list_lookup_alter_eq, Hroom. repeat split.
    + hsimpl. rewrite Hroom in E. hsimpl. rewrite Hnext in E. hsimpl.
      rewrite Hp in E. hsimpl.
      rewrite !list_lookup_alter_eq, Hroom in E. hsimpl. rewrite Hh in E.
      subst st2. hsimpl. rewrite !list_lookup_alter_eq, Hroom. repeat split.
  - intros Hnext. destruct (Room.turnTimer room) as [h|] eqn:Hh.
    + hsimpl. rewrite list_lookup_alter_eq, Hroom in E. hsimpl.
      rewrite (getNextTurn_ext (Room.set_turnTimer None room) room eq_refl eq_refl), Hnext in E. subst st2. hsimpl.
      rewrite !list_lookup_alter_eq, Hroom. repeat split.
    + hsimpl. rewrite Hroom in E. hsimpl. rewrite Hnext in E. subst st2. hsimpl.
      rewrite Hroom, set_turnTimer_None by assumption. repeat split.
Qed.
(** ** The turn timer below the third strike *)

(** X9. When the turn timer fires on a PLAYING player whose timeout
    counter stays below 3, the counter goes up by one and the room is told
    ([user_timeout_counter]); the turn then passes to the next PLAYING
    player that [getNextTurn] finds (there is one: the player who timed out
    is still PLAYING), [turn_changed] is sent, and a fresh 30 s timer is
    armed.  Nobody is marked and nothing is settled. *)
Theorem turnTimeout_below_third_strike ref st room currentPlayer :
  heap st !! ref = Some room ->
  Room.players room !! Room.currentTurn room = Some currentPlayer ->
  Player.status currentPlayer = PLAYER_STATUS.PLAYING ->
  S (Player.numoftimeout currentPlayer) < 3 ->
  let n := S (Player.numoftimeout currentPlayer) in
  let room1 :=
    Room.set_players
      (<[Room.currentTurn room := Player.set_numoftimeout n currentPlayer]>
         (Room.players room)) room in
  let st' := exec (turnTimeout ref) st in
  exists nextTurn nextPlayer,
    getNextTurn room1 = Some nextTurn
    /\ Room.players room1 !! nextTurn = Some nextPlayer
    /\ Player.status nextPlayer = PLAYER_STATUS.PLAYING
    /\ heap st' !! ref
       = Some (Room.set_turnTimer (Some (nextTimer st)) (Room.set_currentTurn nextTurn room1))
    /\ timers st'
       = (cancel (Room.turnTimer room) (timers st)
            ++ [Timer.mk (nextTimer st) TURN_TIMEOUT (TurnTimeout ref)])%list
    /\ store st' = store st
    /\ outbox st'
       = (outbox st
            ++ [mkEmit (ToRoom (Room.roomId room))
                       (user_timeout_counter_msg (Player.peerId currentPlayer) n);
                mkEmit (ToRoom (Room.roomId room))
                       (turn_changed_msg (Player.peerId nextPlayer))])%list.
Proof.
  intros Hroom Hcur Hst Hlow n room1 st'.
  assert (Hlt : ref < length (heap st)) by (eapply lookup_lt_Some; eassumption).
  assert (Hcl : Room.currentTurn room < length (Room.players room))
    by (eapply lookup_lt_Some; eassumption).
  assert (Hactive : playingAt (Room.players room1) (Room.currentTurn room)).
  { exists (Player.set_numoftimeout n currentPlayer). split; [|exact Hst].
    unfold room1. simpl. by rewrite list_lookup_insert_eq. }
  destruct (getNextTurn_active room1 _ Hactive) as (nextTurn & Hnext).
  destruct (getNextTurn_playing _ _ Hnext) as (nextPlayer & Hp & Hpst).
  exists nextTurn, nextPlayer. split; [exact Hnext|]. split; [exact Hp|]. split; [exact Hpst|].
  remember st' as st2 eqn:E. unfold st', exec, turnTimeout in E. clear st'.
  unfold bind at 1 in E. unfold getRoom at 1 in E. rewrite Hroom, Hcur in E.
  rewrite (proj2 (is_playing_true currentPlayer) Hst) in E.
  fold n in E.
  assert (Hn : (3 <=? n)%nat = false) by (apply Nat.leb_gt; exact Hlow).
  rewrite Hn in E. hsimpl.
  rewrite list_lookup_alter_eq, Hroom in E. hsimpl.
  rewrite (alter_as_insert _ _ _ _ Hcur) in E. fold n in E.
  change (Room.set_players
            (<[Room.currentTurn room := Player.set_numoftimeout n currentPlayer]>
               (Room.players room)) room) with room1 in E.
  rewrite Hnext in E. hsimpl. rewrite Hp in E. hsimpl.
  rewrite !list_lookup_alter_eq, Hroom in E. hsimpl.
  destruct (Room.turnTimer room) as [h|] eqn:Hh; subst st2; hsimpl;
    rewrite !list_lookup_alter_eq, Hroom; hsimpl;
    rewrite (alter_as_insert _ _ _ _ Hcur), <- app_assoc; repeat split.
Qed.

(** X10. When the turn timer fires while the player at [currentTurn] is
    not PLAYING (the player has won, left or timed out, or the roster has
    no such position), the callback changes nothing: the turn does not
    pass and no new timer is armed, so the room has no pending turn timer
    once the expired one is gone. *)
Theorem turnTimeout_on_idle_seat h t ref st room :
  pendingTimer h st = Some t ->
  Timer.callback t = TurnTimeout ref ->
  heap st !! ref = Some room ->
  (forall p, Room.players room !! Room.currentTurn room = Some p ->
             Player.status p <> PLAYER_STATUS.PLAYING) ->
  exec (turnTimeout ref) st = st
  /\ step (Fire h) st = set_timers (cancel (Some h) (timers st)) st.
Proof.
  intros Hpending Hcb Hroom Hidle.
  assert (Hrun : forall s, heap s !! ref = Some room -> exec (turnTimeout ref) s = s).
  { intros s Hs. unfold exec, turnTimeout, bind at 1, getRoom at 1. rewrite Hs.
    destruct (Room.players room !! Room.currentTurn room) as [p|] eqn:Hp; [|reflexivity].
    by rewrite (proj2 (is_playing_false p) (Hidle p eq_refl)). }
  split; [by apply Hrun|].
  unfold step. rewrite Hpending, Hcb. simpl.
  unfold exec, bind at 1, clearTimeout, modify.
  apply (Hrun (set_timers _ st)). exact Hroom.
Qed.
(** ** Taking a seat *)

Lemma inGroup_joined room (s : Socket.t) :
  inGroup room (Socket.set_joined (Socket.joined s ++ [room]) s) = true.
Proof.
  unfold inGroup. simpl. rewrite existsb_app. simpl.
  rewrite String.eqb_refl. by rewrite orb_true_r.
Qed.

(** X11. [request_join] by a user who can pay, when [findAvailableRoom]
    finds a room: the user is debited, appended to the roster with the
    next peer id, and the socket enters the room's group.  If the roster
    is still short of [maxPlayers] nothing is emitted and no timer is
    touched.  If it is now full, the room becomes PLAYING with the cursor
    on the first player, [game_start] with the whole roster goes to the
    room, and the turn timer is armed. *)
Theorem request_join_takes_a_seat sid user_id user_name b c uuid st user ref room :
  loadUser user_id st = Some user ->
  (b <= User.coins user)%Z ->
  findAvailableRoom b c st = Some ref ->
  heap st !! ref = Some room ->
  let player := createPlayer user_id user_name (Z.of_nat (length (Room.players room))) sid in
  let room1 := Room.set_players (Room.players room ++ [player]) room in
  let st' := exec (request_join sid user_id user_name b c uuid) st in
  loadUser user_id st' = Some (User.set_coins (User.coins user - b) user)
  /\ rooms st' = rooms st
  /\ Socket.currentRoomId (getSocket sid st') = Some (Room.roomId room)
  /\ inGroup (Room.roomId room) (getSocket sid st') = true
  /\ (Z.of_nat (length (Room.players room1)) <> Room.maxPlayers room ->
        heap st' !! ref = Some room1
        /\ timers st' = timers st
        /\ outbox st' = outbox st)
  /\ (Z.of_nat (length (Room.players room1)) = Room.maxPlayers room ->
        heap st' !! ref
        = Some (Room.set_turnTimer (Some (nextTimer st))
                  (Room.set_currentTurn 0 (Room.set_status GAME_STATUS.PLAYING room1)))
        /\ timers st'
           = (cancel (Room.turnTimer room) (timers st)
                ++ [Timer.mk (nextTimer st) TURN_TIMEOUT (TurnTimeout ref)])%list
        /\ outbox st'
           = (outbox st
                ++ [mkEmit (ToRoom (Room.roomId room))
                      (game_start_msg (Room.roomId room) b
                         (gameStartUser <$> Room.players room1))])%list).
Proof.
  intros Hu Hc Hf Hroom player room1 st'.
  assert (Hlt : ref < length (heap st)) by (eapply lookup_lt_Some; eassumption).
  assert (Hsock : forall (s : Socket.t) (m : gmap string Socket.t),
             default Socket.fresh (<[sid := s]> m !! sid) = s)
    by (intros; by rewrite lookup_insert_eq).
  remember st' as st2 eqn:E.
  unfold st', exec, request_join, startGameIfFull, findAvailableRoom in E. clear st'.
  unfold findAvailableRoom in Hf.
  unfold bind at 1 in E. unfold gets at 1 in E. rewrite Hu in E.
  destruct (Z.ltb_spec (User.coins user) b) as [?|_]; [lia|].
  hsimpl.
  assert (Hnew : alter (fun r : Room.t => Room.set_players (Room.players r ++ [player]) r)
                   ref (heap st) !! ref = Some room1)
    by (by rewrite list_lookup_alter_eq, Hroom).
  unfold player in Hnew.
  assert (Hlen : length (Room.players room1) = length (Room.players room ++ [player]))
    by reflexivity.
  destruct (redisReady st) eqn:Hrdy; hsimpl; rewrite Hf in E; hsimpl; rewrite Hroom in E;
    hsimpl; rewrite Hnew in E; hsimpl;
    (destruct (Z.eqb_spec (Z.of_nat (length (Room.players room ++ [player])))
                          (Room.maxPlayers room)) as [Hfull|Hshort];
     [ hsimpl; rewrite !list_lookup_alter_eq, Hroom in E; hsimpl;
       destruct (Room.turnTimer room) as [h|] eqn:Hh; hsimpl; subst st2; hsimpl;
       rewrite !list_lookup_alter_eq, Hroom, !Hsock; hsimpl;
       (split; [unfold loadUser; hsimpl; rewrite Hrdy; apply lookup_insert_eq|]);
       (split; [reflexivity|]); (split; [reflexivity|]);
       (split; [apply inGroup_joined|]);
       (split; [intros Hne; by destruct Hne|]); intros _; repeat split
     | subst st2; hsimpl; rewrite !Hsock;
       (split; [unfold loadUser; hsimpl; rewrite Hrdy; apply lookup_insert_eq|]);
       (split; [reflexivity|]); (split; [reflexivity|]);
       (split; [apply inGroup_joined|]);
       (split; [intros _; by rewrite list_lookup_alter_eq, Hroom|]);
       intros Hfull; by destruct Hshort ]).
Qed.
(** X12. [friend_join_room] by a user who can pay, for a WAITING room with
    a free seat: the user is debited in the in-memory map, appended to the
    roster with the next peer id, and [player_joined] goes to the room.
    When the roster is then full the room becomes PLAYING with the cursor
    on the first player and [game_start] is sent, but, unlike
    [request_join], no turn timer is armed: the pending timers are
    unchanged. *)
Theorem friend_join_room_takes_a_seat sid user_id user_name room_code st ref room user :
  roomsGet room_code (rooms st) = Some ref ->
  heap st !! ref = Some room ->
  (Z.of_nat (length (Room.players room)) < Room.maxPlayers room)%Z ->
  users st !! user_id = Some user ->
  (Room.betAmount room <= User.coins user)%Z ->
  Room.status room = GAME_STATUS.WAITING ->
  let player := createPlayer user_id user_name (Z.of_nat (length (Room.players room))) sid in
  let room1 := Room.set_players (Room.players room ++ [player]) room in
  let joined :=
    mkEmit (ToRoom room_code)
           (player_joined_msg (Z.of_nat (length (Room.players room))) user_name
                              (S (length (Room.players room))) (Room.maxPlayers room)) in
  let st' := exec (friend_join_room sid user_id user_name room_code) st in
  users st'
  = <[user_id := User.set_coins (User.coins user - Room.betAmount room) user]> (users st)
  /\ timers st' = timers st
  /\ nextTimer st' = nextTimer st
  /\ Socket.currentRoomId (getSocket sid st') = Some room_code
  /\ inGroup room_code (getSocket sid st') = true
  /\ (Z.of_nat (length (Room.players room1)) <> Room.maxPlayers room ->
        heap st' !! ref = Some room1
        /\ outbox st' = (outbox st ++ [joined])%list)
  /\ (Z.of_nat (length (Room.players room1)) = Room.maxPlayers room ->
        heap st' !! ref
        = Some (Room.set_currentTurn 0 (Room.set_status GAME_STATUS.PLAYING room1))
        /\ outbox st'
           = (outbox st
                ++ [joined;
                    mkEmit (ToRoom room_code)
                      (game_start_msg (Room.roomId room) (Room.betAmount room)
                         (gameStartUser <$> Room.players room1))])%list).
Proof.
  intros Hreg Hroom Hfree Hu Hc Hst player room1 joined st'.
  assert (Hlt : ref < length (heap st)) by (eapply lookup_lt_Some; eassumption).
  assert (Hsock : forall (s : Socket.t) (m : gmap string Socket.t),
             default Socket.fresh (<[sid := s]> m !! sid) = s)
    by (intros; by rewrite lookup_insert_eq).
  remember st' as st2 eqn:E.
  unfold st', exec, friend_join_room, startGameIfFull in E. clear st'.
  hsimpl. rewrite Hreg, Hroom in E. apply Z.leb_gt in Hfree. rewrite Hfree in E. hsimpl.
  rewrite Hu in E. destruct (Z.ltb_spec (User.coins user) (Room.betAmount room)) as [?|_]; [lia|].
  hsimpl. rewrite bool_decide_eq_true_2 in E by assumption. hsimpl.
  rewrite list_lookup_alter_eq, Hroom in E. hsimpl.
  unfold joined.
  match type of E with context [if ?t then _ else _] => destruct t eqn:Hfull end;
    [apply Z.eqb_eq in Hfull|apply Z.eqb_neq in Hfull; rename Hfull into Hshort].
  - hsimpl. subst st2. hsimpl.
    rewrite !list_lookup_alter_eq, Hroom, !Hsock, <- app_assoc. hsimpl.
    repeat split; try apply inGroup_joined;
      match goal with H : _ <> _ |- _ => destruct H; exact Hfull end.
  - subst st2. hsimpl. rewrite !list_lookup_alter_eq, Hroom, !Hsock. hsimpl.
    repeat split; try apply inGroup_joined;
      match goal with H : _ = Room.maxPlayers room |- _ => destruct Hshort; exact H end.
Qed.

(** ** Friend rooms *)

Lemma roomsGet_set k v m : roomsGet k (roomsSet k v m) = Some v.
Proof.
  induction m as [|[k' v'] m IH]; simpl; [by rewrite String.eqb_refl|].
  destruct (String.eqb k' k) eqn:Hk; simpl; [by rewrite String.eqb_refl|by rewrite Hk].
Qed.

(** A room that becomes available in a fresh room object is found when
    no registered room was available. *)
Lemma findAvailableIn_new hp b c m k room :
  available b c room = true ->
  findAvailableIn hp b c m = None ->
  findAvailableIn (hp ++ [room]) b c (roomsSet k (length hp) m) = Some (length hp).
Proof.
  intros Hav. assert (Hnew : (hp ++ [room])%list !! length hp = Some room)
    by (by apply list_lookup_middle).
  induction m as [|[k' v] m IH]; simpl.
  - intros _. by rewrite Hnew, Hav.
  - destruct (String.eqb k' k); simpl.
    + intros _. by rewrite Hnew, Hav.
    + destruct (hp !! v) as [r|] eqn:Hv.
      * rewrite (lookup_app_l_Some _ _ _ _ Hv).
        destruct (available b c r); [discriminate|exact IH].
      * intros Hnone. destruct (decide (v = length hp)) as [->|Hne].
        -- by rewrite Hnew, Hav.
        -- rewrite lookup_ge_None_2; [by apply IH|].
           apply lookup_ge_None in Hv. rewrite length_app. simpl. lia.
Qed.

(** X13. [friend_create_room] by a user of the in-memory map who can pay:
    the user is debited, a new room object is registered under the room
    code (a minted code when the request carries none or an empty one),
    replacing in the registry any room that had that key, the creator is
    its only player, with peer id 0, and the code is sent back.  The room
    is an ordinary WAITING room: when it is created for at least two
    players and no registered room was available for that bet and size,
    [findAvailableRoom] returns it, so a [request_join] of any user with
    the same bet and size is seated in it. *)
Theorem friend_create_room_registers sid user_id user_name b c code minted st user :
  users st !! user_id = Some user ->
  (b <= User.coins user)%Z ->
  let roomId := match code with Some (String a s) => String a s | _ => minted end in
  let ref := length (heap st) in
  let room :=
    Room.set_players [createPlayer user_id user_name 0 sid]
                     (createRoom roomId user_id b c) in
  let st' := exec (friend_create_room sid user_id user_name b c code minted) st in
  users st' = <[user_id := User.set_coins (User.coins user - b) user]> (users st)
  /\ heap st' = (heap st ++ [room])%list
  /\ rooms st' = roomsSet roomId ref (rooms st)
  /\ roomsGet roomId (rooms st') = Some ref
  /\ timers st' = timers st
  /\ Socket.currentRoomId (getSocket sid st') = Some roomId
  /\ inGroup roomId (getSocket sid st') = true
  /\ outbox st' = (outbox st ++ [mkEmit (ToSocket sid) (friend_room_code_msg roomId)])%list
  /\ ((1 < c)%Z -> findAvailableRoom b c st = None -> findAvailableRoom b c st' = Some ref).
Proof.
  intros Hu Hc roomId ref room st'.
  assert (Hsock : forall (s : Socket.t) (m : gmap string Socket.t),
             default Socket.fresh (<[sid := s]> m !! sid) = s)
    by (intros; by rewrite lookup_insert_eq).
  assert (Hheap : alter (fun r : Room.t =>
                           Room.set_players
                             (Room.players r ++ [createPlayer user_id user_name 0 sid]) r)
                    (length (heap st)) (heap st ++ [createRoom roomId user_id b c])%list
                  = (heap st ++ [room])%list).
  { rewrite <- (Nat.add_0_r (length (heap st))) at 1. by rewrite alter_app_r. }
  remember st' as st2 eqn:E. unfold st', exec, friend_create_room in E. clear st'.
  hsimpl. rewrite Hu in E. destruct (Z.ltb_spec (User.coins user) b) as [?|_]; [lia|].
  fold roomId in E. hsimpl. rewrite Hheap in E. subst st2. hsimpl. rewrite !Hsock. hsimpl.
  repeat split; try apply inGroup_joined; try apply roomsGet_set.
  intros Hc2 Hnone. unfold findAvailableRoom in *. hsimpl.
  apply findAvailableIn_new; [|exact Hnone].
  unfold available, room. simpl. rewrite !Z.eqb_refl. simpl. by apply Z.ltb_lt.
Qed.
(** ** Reconnection *)

(** X14. [get_previous_room] for a registered room: when the roster has a
    player with the given user id, the first such player is bound to the
    new socket, the socket enters the room's group, and
    [previous_room_data] with the cursor, the roster and the game data is
    sent to it; the player's status is not touched, so a player marked
    TIMEOUT or LEFT stays so.  When the roster has no such player the
    answer is [room_not_found] and nothing else changes. *)
Theorem get_previous_room_rebinds sid room_id user_id st ref room :
  roomsGet room_id (rooms st) = Some ref ->
  heap st !! ref = Some room ->
  let st' := exec (get_previous_room sid room_id user_id) st in
  let listing :=
    (fun p => (Player.peerId p, Player.userId p, Player.userName p, Player.status p))
      <$> Room.players room in
  (forall i player,
     findWith (fun p => String.eqb (Player.userId p) user_id) (Room.players room)
     = Some (i, player) ->
     heap st' !! ref
     = Some (Room.set_players (<[i := Player.set_socketId sid player]> (Room.players room))
                              room)
     /\ Player.status (Player.set_socketId sid player) = Player.status player
     /\ timers st' = timers st
     /\ rooms st' = rooms st
     /\ store st' = store st
     /\ Socket.currentRoomId (getSocket sid st') = Some room_id
     /\ inGroup room_id (getSocket sid st') = true
     /\ outbox st'
        = (outbox st
             ++ [mkEmit (ToSocket sid)
                   (previous_room_data_msg (Room.roomId room) (Player.peerId player)
                      (Room.currentTurn room) listing (Room.gameData room))])%list)
  /\ (findWith (fun p => String.eqb (Player.userId p) user_id) (Room.players room) = None ->
        st' = set_outbox
                (outbox st ++ [mkEmit (ToSocket sid)
                                 (room_not_found_msg "Player not in room")])%list st).
Proof.
  intros Hreg Hroom st' listing.
  assert (Hsock : forall (s : Socket.t) (m : gmap string Socket.t),
             default Socket.fresh (<[sid := s]> m !! sid) = s)
    by (intros; by rewrite lookup_insert_eq).
  remember st' as st2 eqn:E. unfold st', exec, get_previous_room in E. clear st'.
  hsimpl. rewrite Hreg, Hroom in E. split.
  - intros i player Hfind. rewrite Hfind in E. subst st2. hsimpl.
    destruct (findWith_Some _ _ _ _ Hfind) as (Hi & _ & _).
    rewrite list_lookup_alter_eq, Hroom, !Hsock. hsimpl.
    rewrite (alter_as_insert _ _ _ _ Hi).
    repeat split. apply inGroup_joined.
  - intros Hfind. rewrite Hfind in E. by subst st2.
Qed.

(** ** User data *)

(** X15. The first [get_userdata] for an unknown user stores the user
    with 1000 coins, level 1 and no games, but answers [error] instead of
    [user_data]; any later [get_userdata] for that user, from any socket
    and with any name, answers [user_data] with the stored record and
    changes nothing else. *)
Theorem get_userdata_creates_then_serves sid user_id user_name sid' user_name' st :
  loadUser user_id st = None ->
  let user := User.mk user_id user_name 1000 1 0 0 0 in
  let st1 := exec (get_userdata sid user_id user_name) st in
  loadUser user_id st1 = Some user
  /\ sameGame (set_outbox (outbox st) st1) st
  /\ outbox st1
     = (outbox st ++ [mkEmit (ToSocket sid) (error_msg "Failed to get user data")])%list
  /\ exec (get_userdata sid' user_id user_name') st1
     = set_outbox (outbox st1 ++ [mkEmit (ToSocket sid') (user_data_msg user)])%list st1.
Proof.
  intros Hnone user st1.
  assert (Hload : loadUser user_id st1 = Some user).
  { unfold st1, exec, get_userdata. hsimpl. unfold loadUser in Hnone. rewrite Hnone.
    unfold loadUser. hsimpl. destruct (redisReady st) eqn:Hrdy; simpl; rewrite Hrdy;
      apply lookup_insert_eq. }
  split; [exact Hload|]. split; [|split].
  - unfold st1, exec, get_userdata. hsimpl. unfold loadUser in Hnone. rewrite Hnone.
    hsimpl. by destruct (redisReady st).
  - unfold st1, exec, get_userdata. hsimpl. unfold loadUser in Hnone. rewrite Hnone.
    hsimpl. by destruct (redisReady st).
  - unfold exec at 1. unfold get_userdata at 1. unfold bind at 1, gets at 1.
    by rewrite Hload.
Qed.

(** ** Events for a room that is not registered *)

(** X16. The game-action handlers look the room up first and return when
    it is not registered: [dice_send], [token_send], [change_turn],
    [win_game] and [leave_room] for an unknown room id leave the whole
    state as it was; nothing is emitted, and [leave_room] does not even
    take the socket out of the group or reset its [currentRoomId]. *)
Theorem unknown_room_is_ignored sid room_id peer_id a b st :
  roomsGet room_id (rooms st) = None ->
  exec (dice_send sid room_id peer_id a) st = st
  /\ exec (token_send sid room_id peer_id a b) st = st
  /\ exec (change_turn sid room_id peer_id) st = st
  /\ exec (win_game sid room_id peer_id a) st = st
  /\ exec (leave_room sid room_id peer_id) st = st.
Proof.
  intros Hnone.
  unfold exec, dice_send, token_send, change_turn, win_game, leave_room, bind, gets.
  by rewrite Hnone.
Qed.
(** ** Settlement *)

(** One result, for a user the store knows, rewrites that user only. *)
Lemma settle_one_other (r : Result.t) (user : User.t) (u : string) st :
  u <> Result.user_id r ->
  let st' :=
    exec (storeUser (Result.user_id r) user ;;
          ready <- gets redisReady ;;
          if ready then updateLeaderboard (Result.user_id r) (User.winCount user)
          else ret tt) st in
  loadUser u st' = loadUser u st
  /\ leaderboard st' !! u = leaderboard st !! u
  /\ redisReady st' = redisReady st.
Proof.
  intros Hne st'. subst st'. unfold loadUser. hsimpl.
  destruct (redisReady st) eqn:Hrdy; hsimpl; rewrite Hrdy; hsimpl; rewrite ?Hrdy;
    rewrite ?lookup_insert_ne by congruence; done.
Qed.

Lemma settle_one_same (r : Result.t) (user : User.t) st :
  let st' :=
    exec (storeUser (Result.user_id r) user ;;
          ready <- gets redisReady ;;
          if ready then updateLeaderboard (Result.user_id r) (User.winCount user)
          else ret tt) st in
  loadUser (Result.user_id r) st' = Some user
  /\ (redisReady st = true ->
      leaderboard st' !! Result.user_id r = Some (User.winCount user))
  /\ redisReady st' = redisReady st.
Proof.
  intros st'. subst st'. unfold loadUser. hsimpl.
  destruct (redisReady st) eqn:Hrdy; hsimpl; rewrite Hrdy; hsimpl; rewrite ?Hrdy;
    rewrite ?lookup_insert_eq; done.
Qed.

Lemma updatePlayerCoinsAndStats_cons r rs st :
  exec (updatePlayerCoinsAndStats (r :: rs)) st
  = exec (updatePlayerCoinsAndStats rs)
      (match loadUser (Result.user_id r) st with
       | Some user =>
           exec (storeUser (Result.user_id r) (settleUser r user) ;;
                 ready <- gets redisReady ;;
                 if ready
                 then updateLeaderboard (Result.user_id r) (User.winCount (settleUser r user))
                 else ret tt) st
       | None => st
       end).
Proof.
  unfold exec. simpl. hsimpl.
  destruct (redisReady st) eqn:Hrdy.
  - destruct (redisDb st !! Result.user_id r) as [user|]; hsimpl; [|reflexivity].
    rewrite Hrdy. hsimpl. by rewrite Hrdy.
  - destruct (users st !! Result.user_id r) as [user|]; hsimpl; [|reflexivity].
    rewrite Hrdy. hsimpl. by rewrite Hrdy.
Qed.

Lemma updatePlayerCoinsAndStats_other results u st :
  u ∉ Result.user_id <$> results ->
  let st' := exec (updatePlayerCoinsAndStats results) st in
  loadUser u st' = loadUser u st
  /\ leaderboard st' !! u = leaderboard st !! u
  /\ redisReady st' = redisReady st.
Proof.
  revert st. induction results as [|r rs IH]; intros st Hnotin st'; [done|].
  subst st'. rewrite updatePlayerCoinsAndStats_cons.
  rewrite fmap_cons in Hnotin. apply not_elem_of_cons in Hnotin as [Hne Hnotin].
  match goal with |- context [exec (updatePlayerCoinsAndStats rs) ?s] =>
    destruct (IH s Hnotin) as (-> & -> & ->) end.
  destruct (loadUser (Result.user_id r) st) as [user|]; [|done].
  by apply settle_one_other.
Qed.

(** What the distinct-ids case of settlement stores, with [settleUser]. *)
Lemma updatePlayerCoinsAndStats_distinct results st :
  NoDup (Result.user_id <$> results) ->
  let st' := exec (updatePlayerCoinsAndStats results) st in
  (forall r user,
     r ∈ results -> loadUser (Result.user_id r) st = Some user ->
     loadUser (Result.user_id r) st' = Some (settleUser r user)
     /\ (redisReady st = true ->
         leaderboard st' !! Result.user_id r = Some (User.winCount (settleUser r user))))
  /\ (forall r,
        r ∈ results -> loadUser (Result.user_id r) st = None ->
        loadUser (Result.user_id r) st' = None)
  /\ (forall u,
        u ∉ Result.user_id <$> results ->
        loadUser u st' = loadUser u st /\ leaderboard st' !! u = leaderboard st !! u).
Proof.
  intros Hnd st'. split; [|split].
  - subst st'. revert st Hnd. induction results as [|r0 rs IH]; intros st Hnd r user Hin Hu.
    { by apply elem_of_nil in Hin. }
    rewrite fmap_cons in Hnd. apply NoDup_cons in Hnd as [Hnotin Hnd].
    rewrite updatePlayerCoinsAndStats_cons.
    apply elem_of_cons in Hin as [->|Hin].
    + rewrite Hu.
      match goal with |- context [exec (updatePlayerCoinsAndStats rs) ?s] =>
        destruct (updatePlayerCoinsAndStats_other rs (Result.user_id r0) s Hnotin)
          as (-> & -> & _) end.
      destruct (settle_one_same r0 (settleUser r0 user) st) as (H1 & H2 & _). by split.
    + assert (Hne : Result.user_id r <> Result.user_id r0).
      { intros Heq. apply Hnotin. rewrite <- Heq. by apply list_elem_of_fmap_2. }
      destruct (loadUser (Result.user_id r0) st) as [user0|] eqn:Hu0.
      * destruct (settle_one_other r0 (settleUser r0 user0) _ st Hne) as (H1 & _ & H3).
        match goal with |- context [exec (updatePlayerCoinsAndStats rs) ?s] =>
          destruct (IH s Hnd r user Hin) as [IH1 IH2]; [by rewrite H1|] end.
        split; [exact IH1|]. intros Hrdy. apply IH2. by rewrite H3.
      * by apply IH.
  - subst st'. revert st Hnd. induction results as [|r0 rs IH]; intros st Hnd r Hin Hu.
    { by apply elem_of_nil in Hin. }
    rewrite fmap_cons in Hnd. apply NoDup_cons in Hnd as [Hnotin Hnd].
    rewrite updatePlayerCoinsAndStats_cons.
    apply elem_of_cons in Hin as [->|Hin].
    + rewrite Hu.
      by destruct (updatePlayerCoinsAndStats_other rs (Result.user_id r0) st Hnotin)
        as (-> & _ & _).
    + assert (Hne : Result.user_id r <> Result.user_id r0).
      { intros Heq. apply Hnotin. rewrite <- Heq. by apply list_elem_of_fmap_2. }
      destruct (loadUser (Result.user_id r0) st) as [user0|] eqn:Hu0; [|by apply IH].
      destruct (settle_one_other r0 (settleUser r0 user0) _ st Hne) as (H1 & _ & _).
      apply IH; [done|done|]. by rewrite H1.
  - intros u Hu. by destruct (updatePlayerCoinsAndStats_other results u st Hu) as (? & ? & _).
Qed.

(** X17. [updatePlayerCoinsAndStats], for results with distinct user ids.
    A user the active store (Redis or memory) knows is stored again with
    the winnings of the result added to the coins and one more game
    played; when the status of the result is WIN, with one more win and
    the level 1 + floor(wins / 10) of the new win count; otherwise with
    one more loss, the win count and the level staying.  With Redis ready
    the leaderboard holds the new win count.  A result for a user the
    store does not know is skipped; users without a result are untouched. *)
Theorem updatePlayerCoinsAndStats_per_user results st :
  NoDup (Result.user_id <$> results) ->
  let st' := exec (updatePlayerCoinsAndStats results) st in
  (forall r user,
     r ∈ results -> loadUser (Result.user_id r) st = Some user ->
     let coins := (User.coins user + Result.winning_coin r)%Z in
     let totalGamesPlayed := (User.totalGamesPlayed user + 1)%Z in
     let user' :=
       match Result.player_status r with
       | PLAYER_STATUS.WIN =>
           User.mk (User.userId user) (User.userName user) coins
             (1 + (User.winCount user + 1) / 10)%Z
             (User.winCount user + 1)%Z (User.lostCount user) totalGamesPlayed
       | _ =>
           User.mk (User.userId user) (User.userName user) coins
             (User.level user)
             (User.winCount user) (User.lostCount user + 1)%Z totalGamesPlayed
       end in
     loadUser (Result.user_id r) st' = Some user'
     /\ (redisReady st = true ->
         leaderboard st' !! Result.user_id r = Some (User.winCount user')))
  /\ (forall r,
        r ∈ results -> loadUser (Result.user_id r) st = None ->
        loadUser (Result.user_id r) st' = None)
  /\ (forall u,
        u ∉ Result.user_id <$> results ->
        loadUser u st' = loadUser u st /\ leaderboard st' !! u = leaderboard st !! u).
Proof.
  intros Hnd st'.
  destruct (updatePlayerCoinsAndStats_distinct results st Hnd) as (Hknown & Hunknown & Hother).
  split; [|split; assumption].
  intros r user Hin Hu coins totalGamesPlayed user'.
  assert (Huser : settleUser r user = user').
  { unfold settleUser, user', coins, totalGamesPlayed.
    by destruct (Result.player_status r). }
  rewrite <- Huser. by apply Hknown.
Qed.

(** *** Settlement of any results array *)

Lemma loadUser_store u st st' : store st = store st' -> loadUser u st = loadUser u st'.
Proof. unfold store, loadUser. intros [= Hu Hr Hd _]. by rewrite Hu, Hr, Hd. Qed.

Lemma settled_store results st1 st2 st1' st2' :
  store st1 = store st1' -> store st2 = store st2' ->
  settled results st1 st2 -> settled results st1' st2'.
Proof.
  intros H1 H2 [Hrdy Hs]. split.
  - unfold store in H1, H2. congruence.
  - intros u. specialize (Hs u).
    by rewrite <- (loadUser_store u _ _ H1), <- (loadUser_store u _ _ H2).
Qed.

Lemma booked_nil user : booked [] user user.
Proof.
  unfold booked, wonGames, lostGames, totalWinning. simpl.
  repeat split; try reflexivity; lia.
Qed.

Lemma booked_cons r mine user user' :
  booked mine (settleUser r user) user' -> booked (r :: mine) user user'.
Proof.
  unfold booked, wonGames, lostGames, settleUser.
  cbn [List.filter totalWinning foldr List.length].
  fold (totalWinning mine).
  set (won := fun r : Result.t => bool_decide (Result.player_status r = PLAYER_STATUS.WIN)).
  change (bool_decide (Result.player_status r = PLAYER_STATUS.WIN)) with (won r).
  set (n := List.length (List.filter won mine)).
  set (m := List.length (List.filter (fun r => negb (won r)) mine)).
  destruct (won r); cbn [negb List.length User.userId User.userName User.coins User.level
                         User.winCount User.lostCount User.totalGamesPlayed];
    intros (H1 & H2 & H3 & H4 & H5 & H6 & H7).
  - repeat (split; [first [assumption|lia]|]).
    destruct (Z.eqb_spec (Z.of_nat (S n)) 0) as [E|_]; [lia|].
    rewrite H7. destruct (Z.eqb_spec (Z.of_nat n) 0) as [E|E]; f_equal; f_equal; lia.
  - repeat (split; [first [assumption|lia]|]). exact H7.
Qed.

Lemma updatePlayerCoinsAndStats_settled results st :
  settled results st (exec (updatePlayerCoinsAndStats results) st).
Proof.
  revert st. induction results as [|r rs IH]; intros st.
  - split; [reflexivity|]. intros u. change (exec (updatePlayerCoinsAndStats []) st) with st.
    destruct (loadUser u st) as [user|]; [|reflexivity].
    exists user. split; [reflexivity|]. apply booked_nil.
  - rewrite updatePlayerCoinsAndStats_cons.
    match goal with |- context [exec (updatePlayerCoinsAndStats rs) ?s] =>
      destruct (IH s) as [Hrdy Hs]; set (s1 := s) in * end.
    assert (Hrdy1 : redisReady s1 = redisReady st).
    { subst s1. destruct (loadUser (Result.user_id r) st) as [user|]; [|reflexivity].
      by destruct (settle_one_same r (settleUser r user) st) as (_ & _ & ?). }
    split; [congruence|]. intros u. specialize (Hs u).
    unfold resultsFor. cbn [List.filter]. fold (resultsFor u rs).
    destruct (String.eqb_spec (Result.user_id r) u) as [<-|Hne].
    + destruct (loadUser (Result.user_id r) st) as [user|] eqn:Hu.
      * assert (H1 : loadUser (Result.user_id r) s1 = Some (settleUser r user)).
        { subst s1. by destruct (settle_one_same r (settleUser r user) st) as (? & _). }
        rewrite H1 in Hs. destruct Hs as (user' & Hl & Hb).
        exists user'. split; [assumption|]. by apply booked_cons.
      * subst s1. by rewrite Hu in Hs.
    + assert (H1 : loadUser u s1 = loadUser u st).
      { subst s1. destruct (loadUser (Result.user_id r) st) as [user|]; [|reflexivity].
        assert (Hne' : u <> Result.user_id r) by congruence.
        by destruct (settle_one_other r (settleUser r user) u st Hne') as (? & _). }
      by rewrite H1 in Hs.
Qed.

(** The results of [calculateGameResults] are the ranked results. *)
Lemma calculateGameResults_ranked (room : Room.t) :
  calculateGameResults room = rankedResults room.
Proof.
  unfold calculateGameResults, rankedResults. rewrite sortBy_compareWinFirst.
  apply imap_ext. intros i p _. unfold resultOf, prize, is_win. simpl.
  destruct (Player.status p); simpl; try reflexivity.
  destruct (Room.maxPlayers room =? 2)%Z; [reflexivity|].
  destruct (Room.maxPlayers room =? 4)%Z; [|reflexivity].
  destruct i as [|[|i]]; try reflexivity.
  destruct (Z.eqb_spec (Z.of_nat (S (S i)) + 1) 1); [lia|].
  destruct (Z.eqb_spec (Z.of_nat (S (S i)) + 1) 2); [lia|]. reflexivity.
Qed.

(** ** The end of a game *)

(** C6. A [win_game] event for a PLAYING room first marks the named player
    WIN (when the roster has that position) and relays [win_game] to the
    other sockets of the room.  If at most one player is then PLAYING, the
    room becomes FINISHED, its turn timer is cleared ([turnTimer] is null
    and the pending timeout is cancelled), settlement runs (every user of
    the store has the results that are for it booked: the winnings added
    to the coins, the games, wins and losses counted), [game_over] goes to
    the whole room with the ranked results (the WIN players first, ranks
    from 1, each entry with its prize), the room is still registered, and
    a 10000 ms timer is pending whose callback removes the room from the
    registry.  If more than one player is still PLAYING, the room stays
    PLAYING and nothing but the mark and the relay happens: no user is
    touched. *)
Theorem win_game_transition sid room_id peer_id player_rank st ref room :
  roomsGet room_id (rooms st) = Some ref ->
  heap st !! ref = Some room ->
  Room.status room = GAME_STATUS.PLAYING ->
  let room1 := marked peer_id PLAYER_STATUS.WIN room in
  let results := calculateGameResults room1 in
  let st' := exec (win_game sid room_id peer_id player_rank) st in
  (playingCount (Room.players room1) <= 1 ->
     heap st' !! ref
       = Some (Room.set_turnTimer None (Room.set_status GAME_STATUS.FINISHED room1))
     /\ timers st'
        = (cancel (Room.turnTimer room) (timers st)
             ++ [Timer.mk (nextTimer st) 10000 (RoomCleanup room_id)])%list
     /\ store st' = store (exec (updatePlayerCoinsAndStats results) st)
     /\ settled (rankedResults room1) st st'
     /\ results = rankedResults room1
     /\ outbox st'
        = (outbox st ++ [mkEmit (ToRoomExcept room_id sid) (win_game_msg peer_id);
                         mkEmit (ToRoom room_id) (game_over_msg (rankedResults room1))])%list
     /\ roomsGet room_id (rooms st') = Some ref
     /\ forall s, roomsGet room_id (rooms (exec (runCallback (RoomCleanup room_id)) s)) = None)
  /\ (1 < playingCount (Room.players room1) ->
        heap st' !! ref = Some room1
        /\ Room.status room1 = GAME_STATUS.PLAYING
        /\ timers st' = timers st
        /\ store st' = store st
        /\ outbox st'
           = (outbox st ++ [mkEmit (ToRoomExcept room_id sid) (win_game_msg peer_id)])%list).
Proof.
  intros Hreg Hroom Hstatus room1 results st'.
  destruct (win_game_run sid room_id peer_id player_rank st ref room Hreg Hroom Hstatus)
    as [Hfinish Hgoes].
  fold room1 in Hfinish, Hgoes. fold st' in Hfinish, Hgoes.
  split; [|exact Hgoes].
  intros Hcount. destruct (Hfinish Hcount) as (Hheap & Htimers & Hstore & Hout & Hstill & Hgone).
  pose proof (calculateGameResults_ranked room1) as Hranked. fold results in Hranked.
  split; [exact Hheap|]. split; [exact Htimers|]. split; [exact Hstore|].
  split.
  { rewrite <- Hranked.
    eapply settled_store; [reflexivity|symmetry; exact Hstore|].
    apply updatePlayerCoinsAndStats_settled. }
  split; [exact Hranked|].
  split; [by rewrite <- Hranked|]. split; [exact Hstill|exact Hgone].
Qed.

(** C5. When the turn timer fires on a room whose current player is
    PLAYING and whose timeout counter thereby reaches 3, the server emits
    [user_timeout_counter], marks that player TIMEOUT and emits
    [user_timeout], whatever follows.  If exactly one player is then
    PLAYING, that player (the first PLAYING one of the roster) is marked
    WIN, [win_game] is emitted, the turn timer is cleared, the room becomes
    FINISHED, no user is touched yet, and a 2000 ms timer is pending whose
    callback settles (every user of the store has the results that are for
    it booked: the winnings added to the coins, the games, wins and losses
    counted) and emits [game_over] with the ranked results.  If no player
    is PLAYING any more, the turn timer is cleared and the settlement and
    [game_over] happen at once. *)
Theorem turnTimeout_third_strike ref st room currentPlayer :
  heap st !! ref = Some room ->
  Room.players room !! Room.currentTurn room = Some currentPlayer ->
  Player.status currentPlayer = PLAYER_STATUS.PLAYING ->
  3 <= S (Player.numoftimeout currentPlayer) ->
  let room1 := struckOut room currentPlayer in
  let st' := exec (turnTimeout ref) st in
  let strikes :=
    [mkEmit (ToRoom (Room.roomId room))
            (user_timeout_counter_msg (Player.peerId currentPlayer)
                                      (S (Player.numoftimeout currentPlayer)));
     mkEmit (ToRoom (Room.roomId room)) (user_timeout_msg (Player.peerId currentPlayer))] in
  (exists room' rest,
     heap st' !! ref = Some room'
     /\ Room.players room' !! Room.currentTurn room
        = Some (Player.set_status PLAYER_STATUS.TIMEOUT
                  (Player.set_numoftimeout (S (Player.numoftimeout currentPlayer))
                     currentPlayer))
     /\ outbox st' = (outbox st ++ strikes ++ rest)%list)
  /\ (playingCount (Room.players room1) = 1 ->
        exists w winner,
          findWith is_playing (Room.players room1) = Some (w, winner)
          /\ let room2 :=
               Room.set_turnTimer None
                 (Room.set_status GAME_STATUS.FINISHED
                    (Room.set_players
                       (alter (Player.set_status PLAYER_STATUS.WIN) w (Room.players room1))
                       room1)) in
             heap st' !! ref = Some room2
             /\ timers st'
                = (cancel (Room.turnTimer room) (timers st)
                     ++ [Timer.mk (nextTimer st) 2000 (DelayedGameOver ref)])%list
             /\ store st' = store st
             /\ outbox st'
                = (outbox st ++ strikes
                     ++ [mkEmit (ToRoom (Room.roomId room))
                                (win_game_msg (Player.peerId winner))])%list
             /\ let st'' := exec (runCallback (DelayedGameOver ref)) st' in
                store st'' = store (exec (updatePlayerCoinsAndStats (calculateGameResults room2)) st')
                /\ settled (rankedResults room2) st' st''
                /\ calculateGameResults room2 = rankedResults room2
                /\ outbox st''
                   = (outbox st' ++ [mkEmit (ToRoom (Room.roomId room))
                                            (game_over_msg (rankedResults room2))])%list)
  /\ (playingCount (Room.players room1) = 0 ->
        heap st' !! ref = Some (Room.set_turnTimer None room1)
        /\ timers st' = cancel (Room.turnTimer room) (timers st)
        /\ store st' = store (exec (updatePlayerCoinsAndStats (calculateGameResults room1)) st)
        /\ settled (rankedResults room1) st st'
        /\ calculateGameResults room1 = rankedResults room1
        /\ outbox st'
           = (outbox st ++ strikes
                ++ [mkEmit (ToRoom (Room.roomId room))
                           (game_over_msg (rankedResults room1))])%list).
Proof.
  intros Hroom Hcur Hplaying Hn room1 st' strikes.
  destruct (third_strike_run ref st room currentPlayer Hroom Hcur Hplaying Hn)
    as (Hstrike & Hone & Hzero).
  fold room1 in Hone, Hzero. fold st' in Hstrike, Hone, Hzero.
  fold strikes in Hstrike, Hone, Hzero.
  split; [exact Hstrike|]. split.
  - intros Hcount. destruct (Hone Hcount) as (w & winner & Hfind & Hrest).
    exists w, winner. split; [exact Hfind|]. cbv zeta in Hrest |- *.
    destruct Hrest as (Hheap & Htimers & Hstore & Hout & Hstore2 & Hout2).
    match type of Hstore2 with context [calculateGameResults ?r] =>
      pose proof (calculateGameResults_ranked r) as Hranked end.
    split; [exact Hheap|]. split; [exact Htimers|]. split; [exact Hstore|].
    split; [exact Hout|]. split; [exact Hstore2|].
    split.
    { rewrite <- Hranked.
      eapply settled_store; [reflexivity|symmetry; exact Hstore2|].
      apply updatePlayerCoinsAndStats_settled. }
    split; [exact Hranked|]. by rewrite <- Hranked.
  - intros Hcount. destruct (Hzero Hcount) as (Hheap & Htimers & Hstore & Hout).
    pose proof (calculateGameResults_ranked room1) as Hranked.
    split; [exact Hheap|]. split; [exact Htimers|]. split; [exact Hstore|].
    split.
    { rewrite <- Hranked.
      eapply settled_store; [reflexivity|symmetry; exact Hstore|].
      apply updatePlayerCoinsAndStats_settled. }
    split; [exact Hranked|]. by rewrite <- Hranked.
Qed.

Lemma resultOf_other_size b c i p :
  c <> 2%Z -> c <> 4%Z -> Result.winning_coin (resultOf b c i p) = 0%Z.
Proof.
  intros H2 H4. unfold resultOf. simpl.
  destruct (Z.eqb_spec c 2); [done|]. destruct (Z.eqb_spec c 4); [done|].
  by destruct (is_win p).
Qed.

(** X18. [calculateGameResults] pays only in rooms of size 2 and 4: for a
    room created with any other [maxPlayers], every entry of the results
    has [winning_coin] 0, whoever won, so the stakes of such a game are
    paid to nobody. *)
Theorem calculateGameResults_other_sizes (room : Room.t) :
  Room.maxPlayers room <> 2%Z ->
  Room.maxPlayers room <> 4%Z ->
  Forall (fun r => Result.winning_coin r = 0%Z) (calculateGameResults room)
  /\ totalWinning (calculateGameResults room) = 0%Z.
Proof.
  intros H2 H4. split.
  - apply Forall_lookup. intros i r Hr.
    apply calculateGameResults_lookup in Hr as (p & _ & ->). by apply resultOf_other_size.
  - unfold calculateGameResults. rewrite (totalWinning_uniform _ 0%Z); [lia|].
    intros i p _. by apply resultOf_other_size.
Qed.

Lemma imap_rank {A} (l : list A) (k : nat) :
  imap (fun i _ => (Z.of_nat (k + i) + 1)%Z) l
  = (fun i => (Z.of_nat i + 1)%Z) <$> seq k (length l).
Proof.
  revert k. induction l as [|x l IH]; intros k; [reflexivity|].
  rewrite imap_cons. simpl. rewrite Nat.add_0_r. f_equal.
  rewrite <- IH. apply imap_ext. intros i y _. simpl. f_equal. f_equal. lia.
Qed.

(** X19. The results array of [calculateGameResults] has one entry per
    player of the roster: first the players whose status is WIN, in roster
    order, then all the others, in roster order, each entry carrying the
    player's name, id and status; the ranks are 1, 2, ... in that order. *)
Theorem calculateGameResults_ranking (room : Room.t) :
  let ps := Room.players room in
  let results := calculateGameResults room in
  (fun r => (Result.user_id r, Result.user_name r, Result.player_status r)) <$> results
  = ((fun p => (Player.userId p, Player.userName p, Player.status p))
       <$> (List.filter is_win ps ++ List.filter (fun p => negb (is_win p)) ps))%list
  /\ Result.player_rank <$> results
     = (fun i => (Z.of_nat i + 1)%Z) <$> seq 0 (length ps).
Proof.
  intros ps results. unfold results, calculateGameResults. fold ps.
  rewrite !fmap_imap. split.
  - rewrite <- sortBy_compareWinFirst.
    rewrite <- (imap_const (fun p => (Player.userId p, Player.userName p, Player.status p))).
    by apply imap_ext.
  - assert (Hlen : length (sortBy compareWinFirst ps) = length ps).
    { rewrite sortBy_compareWinFirst, length_app. apply List.filter_length. }
    rewrite <- Hlen, <- (imap_rank _ 0). by apply imap_ext.
Qed.
(** ** Leaving the matchmaking queue *)

Lemma removeFromWaiting_skip sid userId pre rest st :
  (forall key ref room,
     In (key, ref) pre -> heap st !! ref = Some room ->
     Room.status room = GAME_STATUS.WAITING ->
     findWith (fun p => String.eqb (Player.userId p) userId) (Room.players room) = None) ->
  removeFromWaiting sid userId (pre ++ rest) st = removeFromWaiting sid userId rest st.
Proof.
  induction pre as [|[key ref] pre IH]; intros Hpre; [reflexivity|].
  simpl. unfold bind at 1, gets at 1.
  assert (IH' : removeFromWaiting sid userId (pre ++ rest) st
                = removeFromWaiting sid userId rest st).
  { apply IH. intros k r rm Hin. apply (Hpre k). by right. }
  destruct (heap st !! ref) as [room|] eqn:Hroom; [|exact IH'].
  destruct (decide (Room.status room = GAME_STATUS.WAITING)) as [Hst|Hst].
  - rewrite bool_decide_eq_true_2 by done.
    by rewrite (Hpre key ref room (or_introl eq_refl) Hroom Hst).
  - by rewrite bool_decide_eq_false_2.
Qed.

(** X20. [remove_from_matchmaking] acts on the first room of the registry,
    in insertion order, that is WAITING and seats a player with the given
    user id: that player (the first one with the id) is spliced out of the
    roster, the other players keeping their records, peer ids included;
    the socket leaves the room's group; and the room is unregistered when
    its roster became empty.  Rooms registered later are not looked at. *)
Theorem remove_from_matchmaking_effect sid userId st pre roomId ref post room i p :
  rooms st = (pre ++ (roomId, ref) :: post)%list ->
  (forall key' ref' room',
     In (key', ref') pre -> heap st !! ref' = Some room' ->
     Room.status room' = GAME_STATUS.WAITING ->
     findWith (fun q => String.eqb (Player.userId q) userId) (Room.players room') = None) ->
  heap st !! ref = Some room ->
  Room.status room = GAME_STATUS.WAITING ->
  findWith (fun q => String.eqb (Player.userId q) userId) (Room.players room) = Some (i, p) ->
  let st' := exec (remove_from_matchmaking sid userId) st in
  heap st' = <[ref := Room.set_players (delete i (Room.players room)) room]> (heap st)
  /\ rooms st'
     = (if (length (Room.players room) =? 1)%nat then roomsDelete roomId (rooms st)
        else rooms st)
  /\ inGroup roomId (getSocket sid st') = false
  /\ Socket.currentRoomId (getSocket sid st') = Socket.currentRoomId (getSocket sid st).
Proof.
  intros Hrooms Hpre Hroom Hst Hfind st'.
  assert (Hi : Room.players room !! i = Some p) by (by destruct (findWith_Some _ _ _ _ Hfind)).
  assert (Hlen : length (delete i (Room.players room)) = length (Room.players room) - 1).
  { apply length_delete. by exists p. }
  assert (Hpos : 0 < length (Room.players room)) by (apply lookup_lt_Some in Hi; lia).
  remember st' as st2 eqn:E. unfold st', exec, remove_from_matchmaking in E. clear st'.
  unfold bind at 1, gets at 1 in E.
  rewrite Hrooms, (removeFromWaiting_skip _ _ _ _ _ Hpre) in E. simpl in E.
  unfold bind at 1, gets at 1 in E. rewrite Hroom, bool_decide_eq_true_2, Hfind in E by done.
  hsimpl. rewrite list_lookup_alter_eq, Hroom in E. hsimpl. rewrite Hlen in E.
  rewrite (alter_as_insert _ _ _ _ Hroom) in E.
  destruct (length (Room.players room)) as [|[|n]] eqn:Hn; [lia| |]; subst st2; hsimpl;
    rewrite lookup_insert_eq; hsimpl; rewrite ?Hrooms; repeat split; apply inGroup_left.
Qed.

Lemma removeFromWaiting_frame sid userId entries st st' :
  st' = (removeFromWaiting sid userId entries st).1 ->
  store st' = store st /\ outbox st' = outbox st /\ timers st' = timers st
  /\ nextTimer st' = nextTimer st /\ userSockets st' = userSockets st
  /\ Socket.currentRoomId (getSocket sid st') = Socket.currentRoomId (getSocket sid st).
Proof.
  induction entries as [|[key ref] rest IH]; intros E; [by subst st'|].
  simpl in E. unfold bind at 1, gets at 1 in E.
  destruct (heap st !! ref) as [room|] eqn:Hroom; [|by apply IH].
  destruct (bool_decide (Room.status room = GAME_STATUS.WAITING)); [|by apply IH].
  destruct (findWith _ (Room.players room)) as [[i p]|]; [|by apply IH].
  hsimpl. destruct (alter _ ref (heap st) !! ref) as [room'|]; hsimpl.
  - destruct (length (Room.players room') =? 0)%nat; subst st'; hsimpl;
      rewrite lookup_insert_eq; done.
  - subst st'. hsimpl. rewrite lookup_insert_eq. done.
Qed.

(** X21. [remove_from_matchmaking] never gives the stake back: whatever the
    state, the user store (coins included) is unchanged, nothing is emitted,
    no timer is touched, and [socket.currentRoomId] keeps pointing at the
    room that was left.  When no WAITING room of the registry seats the
    user, the whole state is unchanged. *)
Theorem remove_from_matchmaking_never_refunds sid userId st :
  let st' := exec (remove_from_matchmaking sid userId) st in
  store st' = store st
  /\ outbox st' = outbox st
  /\ timers st' = timers st
  /\ nextTimer st' = nextTimer st
  /\ userSockets st' = userSockets st
  /\ Socket.currentRoomId (getSocket sid st') = Socket.currentRoomId (getSocket sid st)
  /\ ((forall key ref room,
         In (key, ref) (rooms st) -> heap st !! ref = Some room ->
         Room.status room = GAME_STATUS.WAITING ->
         findWith (fun q => String.eqb (Player.userId q) userId) (Room.players room) = None) ->
      st' = st).
Proof.
  intros st'. subst st'. unfold exec, remove_from_matchmaking, bind at 1, gets at 1.
  destruct (removeFromWaiting_frame sid userId (rooms st) st _ eq_refl)
    as (H1 & H2 & H3 & H4 & H5 & H6).
  repeat (split; [assumption|]).
  intros Hnone. unfold bind, gets.
  pose proof (removeFromWaiting_skip sid userId (rooms st) [] st Hnone) as Hskip.
  rewrite app_nil_r in Hskip. by rewrite Hskip.
Qed.

(** ** Closing a socket *)

(** X22. [disconnect] deletes the [userSockets] entry of the user the
    socket was registered for by [add_user], provided that user id is not
    the empty string, whichever socket that entry names at that time:
    after a user has registered again on a second socket, the disconnect
    of the first one removes the user's mapping to the second.  No other
    entry is touched.  A socket registered for the empty user id, or for
    none, leaves [userSockets] as it is, [if (socket.userId)] being false
    of it. *)
Theorem disconnect_forgets_the_user sid st :
  let st' := exec (disconnect sid) st in
  (forall user_id,
     Socket.userId (getSocket sid st) = Some user_id ->
     user_id <> EmptyString ->
     userSockets st' !! user_id = None
     /\ userSockets st' = delete user_id (userSockets st))
  /\ (Socket.userId (getSocket sid st) = Some EmptyString
      \/ Socket.userId (getSocket sid st) = None ->
      userSockets st' = userSockets st).
Proof.
  intros st'. subst st'. unfold getSocket, exec, disconnect. hsimpl.
  rewrite lookup_insert_eq. hsimpl. split.
  - intros user_id Hu Hne. rewrite Hu. destruct user_id as [|a u]; [done|]. simpl.
    destruct (truthy (Socket.currentRoomId _)) as [rid|]; hsimpl;
      [|split; [apply lookup_delete_eq|reflexivity]].
    destruct (roomsGet rid (rooms st)) as [ref|]; hsimpl;
      [|split; [apply lookup_delete_eq|reflexivity]].
    destruct (heap st !! ref) as [room|]; hsimpl;
      [|split; [apply lookup_delete_eq|reflexivity]].
    destruct (findWith _ (Room.players room)) as [[i player]|]; hsimpl;
      (split; [apply lookup_delete_eq|reflexivity]).
  - intros Hu.
    assert (Hfalsy : truthy (Socket.userId (default Socket.fresh (sockets st !! sid))) = None)
      by (destruct Hu as [Hu|Hu]; by rewrite Hu).
    rewrite Hfalsy.
    destruct (truthy (Socket.currentRoomId _)) as [rid|]; hsimpl; [|reflexivity].
    destruct (roomsGet rid (rooms st)) as [ref|]; hsimpl; [|reflexivity].
    destruct (heap st !! ref) as [room|]; hsimpl; [|reflexivity].
    by destruct (findWith _ (Room.players room)) as [[i player]|].
Qed.

(** ** Stopping the clock *)

(** X23. In every state the server reaches, [clearTurnTimer] leaves no
    pending turn timer for the room: whatever was scheduled for it is the
    timer the room records, and that one is cancelled. *)
Theorem clearTurnTimer_stops_the_clock requests ready ref :
  let st := serveAll requests (initial ready) in
  Forall (fun t => Timer.callback t <> TurnTimeout ref)
         (timers (exec (clearTurnTimer ref) st)).
Proof.
  intros st. destruct (Inv_seatsOk requests ready) as (_ & Htt & _). fold st in Htt.
  destruct (heap st !! ref) as [room|] eqn:Hroom.
  - pose proof (turnTimersOk_cancel _ _ _ Htt Hroom) as Hcancel.
    unfold exec. rewrite (clearTurnTimer_run _ _ _ Hroom).
    destruct (Room.turnTimer room) as [h|]; simpl in *;
      (eapply Forall_impl; [exact Hcancel|]); intros t Ht Hcb; by apply (Ht ref).
  - unfold exec, clearTurnTimer, bind, getRoom. rewrite Hroom. simpl.
    eapply Forall_impl; [exact Htt|]. intros t Ht Hcb.
    destruct (Ht ref Hcb) as (room & Hsome & _). congruence.
Qed.

(** ** The lifecycle of a room object *)

Lemma laterRoom_refl r : laterRoom r r.
Proof. by repeat split. Qed.

Lemma laterRoom_trans r1 r2 r3 : laterRoom r1 r2 -> laterRoom r2 r3 -> laterRoom r1 r3.
Proof.
  intros (H1 & H2 & H3 & H4 & H5) (G1 & G2 & G3 & G4 & G5).
  repeat split; try congruence. lia.
Qed.

Lemma evolves_laterRoom r r' : evolves r r' -> laterRoom r r'.
Proof.
  intros (H1 & _ & H3 & H4 & H5 & Hst & _). repeat split; try assumption.
  destruct Hst as [->| ->]; [lia|]. destruct (Room.status r); simpl; lia.
Qed.

Section Lifecycle.

Variable h0 : list Room.t.

Lemma grownFrom_frame st st' : heap st' = heap st -> grownFrom h0 st -> grownFrom h0 st'.
Proof. unfold grownFrom. by intros ->. Qed.

Lemma grownFrom_modify (f : State -> State) :
  (forall st, heap (f st) = heap st) -> keeps (grownFrom h0) (modify f).
Proof. intros Hf. apply keeps_modify. intros st. by apply grownFrom_frame. Qed.

Lemma grownFrom_alter st ref f :
  (forall r, heap st !! ref = Some r -> laterRoom r (f r)) ->
  grownFrom h0 st -> grownFrom h0 (set_heap (alter f ref (heap st)) st).
Proof.
  intros Hf Hst ref0 room0 H0. destruct (Hst ref0 room0 H0) as (room1 & Hroom1 & Hlater).
  simpl. destruct (decide (ref0 = ref)) as [->|Hne].
  - exists (f room1). rewrite list_lookup_alter_eq, Hroom1. split; [reflexivity|].
    eapply laterRoom_trans; [exact Hlater|by apply Hf].
  - exists room1. by rewrite list_lookup_alter_ne.
Qed.

Lemma grownFrom_modifyRoom ref f :
  (forall r, laterRoom r (f r)) -> keeps (grownFrom h0) (modifyRoom ref f).
Proof. intros Hf. apply keeps_modify. intros st. apply grownFrom_alter. auto. Qed.

Lemma grownFrom_allocRoom room : keeps (grownFrom h0) (allocRoom room).
Proof.
  intros st Hst ref0 room0 H0. destruct (Hst ref0 room0 H0) as (room1 & Hroom1 & Hlater).
  exists room1. split; [|exact Hlater]. simpl. by apply lookup_app_l_Some.
Qed.

Lemma grownFrom_setTimeout cb delay : keeps (grownFrom h0) (setTimeout cb delay).
Proof. intros st. by apply grownFrom_frame. Qed.

Lemma grownFrom_storeUser user_id user : keeps (grownFrom h0) (storeUser user_id user).
Proof. apply keeps_modify. intros st. destruct (redisReady st); by apply grownFrom_frame. Qed.

Lemma laterRoom_turnTimer h r : laterRoom r (Room.set_turnTimer h r).
Proof. by repeat split. Qed.

Lemma laterRoom_players ps r : laterRoom r (Room.set_players ps r).
Proof. by repeat split. Qed.

Ltac grownFrom_auto :=
  repeat keeps_step
    ltac:(first [ apply grownFrom_storeUser | apply grownFrom_setTimeout
                | apply grownFrom_allocRoom
                | apply grownFrom_modifyRoom;
                  first [ apply laterRoom_turnTimer
                        | intros ?; apply laterRoom_players
                        | intros ?; apply evolves_laterRoom;
                          first [apply evolves_currentTurn | apply evolves_finished] ]
                | apply grownFrom_modify; reflexivity ]).

Lemma grownFrom_startTurnTimer ref : keeps (grownFrom h0) (startTurnTimer ref).
Proof. unfold startTurnTimer, clearTimeout. grownFrom_auto. Qed.

Lemma grownFrom_clearTurnTimer ref : keeps (grownFrom h0) (clearTurnTimer ref).
Proof. unfold clearTurnTimer, clearTimeout. grownFrom_auto. Qed.

(** The game starts in a room that is WAITING. *)
Lemma grownFrom_startGameIfFull ref group coin arm :
  hoare (fun st => grownFrom h0 st
                   /\ exists r, heap st !! ref = Some r
                                /\ Room.status r = GAME_STATUS.WAITING)
        (startGameIfFull ref group coin arm)
        (fun _ => grownFrom h0) (grownFrom h0).
Proof.
  unfold startGameIfFull. apply hoare_getRoom_bind; [by intros st []|]. intros room.
  destruct (_ =? _)%Z; [|by apply hoare_ret; intros st [[] _]].
  eapply hoare_bind with (Q := fun _ => grownFrom h0).
  - apply hoare_modify. intros st [[Hst (r & Hr & Hw)] Hroom]. apply grownFrom_alter; [|done].
    intros r' Hr'. assert (r' = r) as -> by congruence.
    repeat split. rewrite Hw. simpl. lia.
  - intros _. unfold emit. grownFrom_auto. apply grownFrom_startTurnTimer.
Qed.

Lemma grownFrom_seat_then_start ref (f : list Player.t -> list Player.t)
    (m : Handler unit) group coin arm :
  keeps (grownFrom h0) m ->
  (forall st, heap (exec m st) = heap st) ->
  hoare (fun st => grownFrom h0 st
                   /\ exists r, heap st !! ref = Some r
                                /\ Room.status r = GAME_STATUS.WAITING)
        (modifyRoom ref (fun r => Room.set_players (f (Room.players r)) r) ;;
         m ;;
         startGameIfFull ref group coin arm)
        (fun _ => grownFrom h0) (grownFrom h0).
Proof.
  intros Hm Hheap.
  eapply hoare_bind with
    (Q := fun _ st => grownFrom h0 st
                      /\ exists r, heap st !! ref = Some r
                                   /\ Room.status r = GAME_STATUS.WAITING).
  - apply hoare_modify. intros st [Hst (r & Hr & Hw)]. split.
    + apply grownFrom_alter; [|done]. intros r' _. apply laterRoom_players.
    + simpl. rewrite list_lookup_alter_eq, Hr. simpl. eauto.
  - intros _.
    eapply hoare_bind with
      (Q := fun _ st => grownFrom h0 st
                        /\ exists r, heap st !! ref = Some r
                                     /\ Room.status r = GAME_STATUS.WAITING).
    + intros st [Hst Hr]. specialize (Hm st Hst). specialize (Hheap st). unfold exec in Hheap.
      destruct (m st) as [st' [[]|]]; simpl in *; [|exact Hm]. rewrite Hheap. by split.
    + intros _. apply grownFrom_startGameIfFull.
Qed.

Lemma grownFrom_request_join sid u n b c uuid :
  keeps (grownFrom h0) (request_join sid u n b c uuid).
Proof.
  unfold request_join. apply keeps_bind; [apply keeps_gets|]. intros [user|].
  2:{ unfold emit. grownFrom_auto. }
  destruct (User.coins user <? b)%Z; [unfold emit; grownFrom_auto|].
  apply keeps_bind; [apply grownFrom_storeUser|]. intros _.
  apply hoare_gets_bind. intros found.
  eapply hoare_bind with
    (Q := fun ref st => grownFrom h0 st
                        /\ exists r, heap st !! ref = Some r
                                     /\ Room.status r = GAME_STATUS.WAITING).
  - destruct found as [ref|].
    + apply hoare_ret. intros st [Hst Hfound]. split; [exact Hst|].
      apply findAvailableIn_Some in Hfound as (_ & _ & _ & room & _ & Hroom & Hav & _).
      exists room. split; [exact Hroom|]. apply Hav.
    + intros st [Hst _]. hsimpl. split.
      * apply (grownFrom_frame (set_heap (heap st ++ [createRoom uuid u b c]) st)); [done|].
        by apply (grownFrom_allocRoom (createRoom uuid u b c) st).
      * eexists. split; [by apply list_lookup_middle|reflexivity].
  - intros ref. apply hoare_getRoom_bind; [by intros st []|]. intros room.
    apply keeps_knowing.
    apply (grownFrom_seat_then_start ref
             (fun ps => ps ++ [createPlayer u n (Z.of_nat (length (Room.players room))) sid])%list
             (socketJoin sid (Room.roomId room) ;;
              modifySocket sid (Socket.set_currentRoomId (Some (Room.roomId room))))).
    + unfold socketJoin, modifySocket. grownFrom_auto.
    + reflexivity.
Qed.

Lemma grownFrom_friend_create_room sid u n b c code minted :
  keeps (grownFrom h0) (friend_create_room sid u n b c code minted).
Proof.
  unfold friend_create_room, socketJoin, modifySocket, emit. grownFrom_auto.
Qed.

Lemma grownFrom_friend_join_room sid u n code :
  keeps (grownFrom h0) (friend_join_room sid u n code).
Proof.
  unfold friend_join_room. apply keeps_bind; [apply keeps_gets|]. intros [ref|].
  2:{ unfold emit. grownFrom_auto. }
  apply hoare_getRoom_bind; [done|]. intros room.
  destruct (_ <=? _)%Z; [apply keeps_knowing; unfold emit; grownFrom_auto|].
  apply hoare_gets_bind. intros [user|];
    [|do 2 apply keeps_knowing; unfold emit; grownFrom_auto].
  destruct (_ <? _)%Z; [do 2 apply keeps_knowing; unfold emit; grownFrom_auto|].
  apply hoare_bind with
    (Q := fun _ st => grownFrom h0 st /\ heap st !! ref = Some room).
  { apply hoare_modify. intros st [[Hst Hroom] _]. split; [|exact Hroom].
    revert Hst. by apply grownFrom_frame. }
  intros _. destruct (decide (Room.status room = GAME_STATUS.WAITING)) as [Hw|Hw].
  2:{ rewrite bool_decide_eq_false_2 by done. simpl.
      apply keeps_knowing. unfold emit. grownFrom_auto. }
  rewrite bool_decide_eq_true_2 by done. simpl.
  eapply hoare_weaken;
    [apply (grownFrom_seat_then_start ref
              (fun ps => ps ++ [createPlayer u n (Z.of_nat (length (Room.players room))) sid])%list
              (socketJoin sid code ;;
               modifySocket sid (Socket.set_currentRoomId (Some code)) ;;
               emit (ToRoom code)
                 (player_joined_msg
                    (Player.peerId
                       (createPlayer u n (Z.of_nat (length (Room.players room))) sid))
                    n (S (length (Room.players room))) (Room.maxPlayers room))))
    | | done | done].
  - unfold socketJoin, modifySocket, emit. grownFrom_auto.
  - reflexivity.
  - intros st [Hst Hroom]. split; [exact Hst|]. eauto.
Qed.

Lemma grownFrom_removeFromWaiting sid userId entries :
  keeps (grownFrom h0) (removeFromWaiting sid userId entries).
Proof.
  induction entries as [|[roomId ref] rest IH]; simpl; [apply keeps_ret|].
  unfold socketLeave, modifySocket.
  repeat keeps_step ltac:(first [exact IH|progress grownFrom_auto]).
Qed.

Lemma grownFrom_serve r st : grownFrom h0 st -> grownFrom h0 (serve r st).
Proof.
  intros Hst. destruct r as [i|sid userId]; simpl.
  - revert Hst. apply step_keeps.
    + intros t p. by apply grownFrom_modify.
    + intros sid f. by apply grownFrom_modify.
    + intros g. by apply grownFrom_modify.
    + apply grownFrom_storeUser.
    + intros u w. by apply grownFrom_modify.
    + intros h. by apply grownFrom_modify.
    + intros cb delay _. apply grownFrom_setTimeout.
    + apply grownFrom_startTurnTimer.
    + apply grownFrom_clearTurnTimer.
    + intros k. by apply grownFrom_modify.
    + intros ref f Hf. apply grownFrom_modifyRoom. intros r. apply evolves_laterRoom, Hf.
    + apply grownFrom_request_join.
    + apply grownFrom_friend_create_room.
    + apply grownFrom_friend_join_room.
  - apply keeps_exec; [|exact Hst]. unfold remove_from_matchmaking.
    apply keeps_bind; [apply keeps_gets|]. intros entries. apply grownFrom_removeFromWaiting.
Qed.

Lemma grownFrom_serveAll requests st : grownFrom h0 st -> grownFrom h0 (serveAll requests st).
Proof.
  unfold serveAll. revert st. induction requests as [|r requests IH]; intros st Hst;
    [exact Hst|].
  simpl. apply IH, grownFrom_serve, Hst.
Qed.

End Lifecycle.

(** X24. A room object is never dropped from the heap and its lifecycle
    only moves forward: whatever requests the server serves from whatever
    state, a room object is later found at the same address with the id,
    host, bet and size [createRoom] gave it, and with a status that is the
    same or further along WAITING, PLAYING, FINISHED. *)
Theorem room_status_moves_forward requests st ref room :
  heap st !! ref = Some room ->
  exists room',
    heap (serveAll requests st) !! ref = Some room'
    /\ Room.roomId room' = Room.roomId room
    /\ Room.hostUserId room' = Room.hostUserId room
    /\ Room.betAmount room' = Room.betAmount room
    /\ Room.maxPlayers room' = Room.maxPlayers room
    /\ statusRank (Room.status room) <= statusRank (Room.status room').
Proof.
  intros Hroom.
  assert (H0 : grownFrom (heap st) st).
  { intros r0 room0 H0. exists room0. split; [exact H0|apply laterRoom_refl]. }
  destruct (grownFrom_serveAll _ requests st H0 ref room Hroom) as (room' & Hroom' & Hlater).
  exists room'. split; [exact Hroom'|]. exact Hlater.
Qed.
(** ** A dice roll followed by a token move *)

Lemma dice_send_effect sid room_id peer_id dice_face st ref room :
  roomsGet room_id (rooms st) = Some ref ->
  heap st !! ref = Some room ->
  let st' := exec (dice_send sid room_id peer_id dice_face) st in
  heap st' !! ref
  = Some (Room.set_gameData (GameData.mk dice_face (GameData.moves (Room.gameData room)))
            (Room.set_turnTimer (Some (nextTimer st)) room))
  /\ rooms st' = rooms st
  /\ store st' = store st
  /\ outbox st'
     = (outbox st ++ [mkEmit (ToRoomExcept room_id sid)
                        (dice_recieved_msg peer_id dice_face)])%list.
Proof.
  intros Hreg Hroom st'.
  remember st' as st2 eqn:E. unfold st', exec, dice_send in E. clear st'.
  unfold bind at 1 in E. unfold gets at 1 in E. rewrite Hreg in E.
  unfold bind at 1 in E. rewrite (clearTurnTimer_run _ _ _ Hroom) in E.
  destruct (Room.turnTimer room) as [h|] eqn:Hh.
  - hsimpl. rewrite list_lookup_alter_eq, Hroom in E. hsimpl. subst st2. hsimpl.
    rewrite !list_lookup_alter_eq, Hroom. repeat split.
  - hsimpl. rewrite Hroom in E. hsimpl. rewrite Hh in E. subst st2. hsimpl.
    rewrite !list_lookup_alter_eq, Hroom. repeat split.
Qed.

Lemma token_send_effect sid room_id peer_id token_id token_value st ref room :
  roomsGet room_id (rooms st) = Some ref ->
  heap st !! ref = Some room ->
  let st' := exec (token_send sid room_id peer_id token_id token_value) st in
  heap st' !! ref
  = Some (Room.set_gameData
            (GameData.mk (GameData.lastDice (Room.gameData room))
               (GameData.moves (Room.gameData room)
                  ++ [Move.mk peer_id token_id token_value]))
            (Room.set_turnTimer (Some (nextTimer st)) room))
  /\ rooms st' = rooms st
  /\ store st' = store st
  /\ outbox st'
     = (outbox st ++ [mkEmit (ToRoomExcept room_id sid)
                        (token_recieved_msg peer_id token_id token_value
                           (GameData.lastDice (Room.gameData room)))])%list.
Proof.
  intros Hreg Hroom st'.
  remember st' as st2 eqn:E. unfold st', exec, token_send in E. clear st'.
  unfold bind at 1 in E. unfold gets at 1 in E. rewrite Hreg in E.
  unfold bind at 1 in E. rewrite (clearTurnTimer_run _ _ _ Hroom) in E.
  destruct (Room.turnTimer room) as [h|] eqn:Hh.
  - hsimpl. rewrite list_lookup_alter_eq, Hroom in E. hsimpl.
    rewrite !list_lookup_alter_eq, Hroom in E. hsimpl. subst st2. hsimpl.
    rewrite !list_lookup_alter_eq, Hroom. repeat split.
  - hsimpl. rewrite Hroom in E. hsimpl. rewrite Hh in E. hsimpl.
    rewrite !list_lookup_alter_eq, Hroom in E. hsimpl. subst st2. hsimpl.
    rewrite !list_lookup_alter_eq, Hroom. repeat split.
Qed.

(** X25. A [dice_send] followed by a [token_send] for the same registered
    room, from any sockets and whatever the status of the room and the
    peer ids in the payloads: the room keeps the dice face as [lastDice],
    the move is appended to the move log, and the [token_recieved] relay
    carries the dice face of that roll.  The registry and the user store
    are unchanged, and the room records the timer armed by the second
    event. *)
Theorem dice_send_then_token_send
    sid sid' room_id peer_id dice_face peer_id' token_id token_value st ref room :
  roomsGet room_id (rooms st) = Some ref ->
  heap st !! ref = Some room ->
  let st1 := exec (dice_send sid room_id peer_id dice_face) st in
  let st2 := exec (token_send sid' room_id peer_id' token_id token_value) st1 in
  heap st2 !! ref
  = Some (Room.set_gameData
            (GameData.mk dice_face
               (GameData.moves (Room.gameData room)
                  ++ [Move.mk peer_id' token_id token_value]))
            (Room.set_turnTimer (Some (nextTimer st1)) room))
  /\ rooms st2 = rooms st
  /\ store st2 = store st
  /\ outbox st2
     = (outbox st
          ++ [mkEmit (ToRoomExcept room_id sid) (dice_recieved_msg peer_id dice_face);
              mkEmit (ToRoomExcept room_id sid')
                     (token_recieved_msg peer_id' token_id token_value dice_face)])%list.
Proof.
  intros Hreg Hroom st1 st2.
  destruct (dice_send_effect sid room_id peer_id dice_face st ref room Hreg Hroom)
    as (Hheap1 & Hrooms1 & Hstore1 & Hout1).
  fold st1 in Hheap1, Hrooms1, Hstore1, Hout1.
  assert (Hreg1 : roomsGet room_id (rooms st1) = Some ref) by (by rewrite Hrooms1).
  destruct (token_send_effect sid' room_id peer_id' token_id token_value st1 ref _
              Hreg1 Hheap1) as (Hheap2 & Hrooms2 & Hstore2 & Hout2).
  fold st2 in Hheap2, Hrooms2, Hstore2, Hout2.
  rewrite Hheap2, Hrooms2, Hrooms1, Hstore2, Hstore1, Hout2, Hout1, <- app_assoc.
  repeat split.
Qed.

(** ** The theorems above at concrete inputs *)

Lemma pending_turn_timer_unique_witness :
  let st := serveAll (Loop <$> twoPlayerGame) (initial false) in
  let t := Timer.mk 0 TURN_TIMEOUT (TurnTimeout 0) in
  timers st !! 0 = Some t
  /\ 0 = 0
  /\ exists room, heap st !! 0 = Some room /\ Room.turnTimer room = Some 0.
Proof.
  intros st t. assert (H : timers st !! 0 = Some t) by by_compute.
  split; [exact H|].
  exact (pending_turn_timer_unique (Loop <$> twoPlayerGame) false 0 0 t t 0 H H eq_refl eq_refl).
Defined.

Lemma registry_entry_is_its_room_witness :
  let st := serveAll (Loop <$> twoPlayerGame) (initial false) in
  rooms st !! 0 = Some ("r1", 0)
  /\ roomsGet "r1" (rooms st) = Some 0
  /\ exists room, heap st !! 0 = Some room /\ Room.roomId room = "r1".
Proof.
  intros st. assert (H : rooms st !! 0 = Some ("r1", 0)) by by_compute.
  split; [exact H|].
  exact (registry_entry_is_its_room (Loop <$> twoPlayerGame) false 0 "r1" 0 H).
Defined.
Lemma playing_room_is_full_witness :
  let st := serveAll (Loop <$> twoPlayerGame) (initial false) in
  let room :=
    Room.mk "r1" "A" 100 2 GAME_STATUS.PLAYING
            [createPlayer "A" "Ann" 0 "sA"; createPlayer "B" "Bob" 1 "sB"]
            0 (Some 0) (GameData.mk 0 []) in
  heap st !! 0 = Some room
  /\ (Room.status room = GAME_STATUS.PLAYING ->
      Z.of_nat (length (Room.players room)) = Room.maxPlayers room)
  /\ (1 <= Room.maxPlayers room ->
      Z.of_nat (length (Room.players room)) <= Room.maxPlayers room)%Z.
Proof.
  intros st room. assert (H : heap st !! 0 = Some room) by by_compute.
  split; [exact H|].
  exact (playing_room_is_full (Loop <$> twoPlayerGame) false 0 room H).
Defined.

Lemma peer_id_is_position_witness :
  let st := run twoPlayerGame (initial false) in
  let room :=
    Room.mk "r1" "A" 100 2 GAME_STATUS.PLAYING
            [createPlayer "A" "Ann" 0 "sA"; createPlayer "B" "Bob" 1 "sB"]
            0 (Some 0) (GameData.mk 0 []) in
  let p := createPlayer "B" "Bob" 1 "sB" in
  heap st !! 0 = Some room
  /\ Room.players room !! 1 = Some p
  /\ Player.peerId p = 1%Z.
Proof.
  intros st room p. assert (H : heap st !! 0 = Some room) by by_compute.
  split; [exact H|]. split; [reflexivity|].
  exact (peer_id_is_position twoPlayerGame false 0 room 1 p H eq_refl).
Defined.
(** Bob leaves the 2-player game: Ann is the player left. *)
Lemma leave_room_last_opponent_witness :
  let st := run twoPlayerGame (initial false) in
  let st' := exec (leave_room "sB" "r1" 1) st in
  let room :=
    Room.mk "r1" "A" 100 2 GAME_STATUS.PLAYING
      [Player.mk "A" "Ann" 0 "sA" PLAYER_STATUS.PLAYING 0;
       Player.mk "B" "Bob" 1 "sB" PLAYER_STATUS.PLAYING 0]
      0 (Some 0) (GameData.mk 0 []) in
  roomsGet "r1" (rooms st) = Some 0
  /\ heap st !! 0 = Some room
  /\ Room.status room = GAME_STATUS.PLAYING
  /\ playingCount (Room.players (marked 1 PLAYER_STATUS.LEFT room)) = 1
  /\ timers st' = []
  /\ rooms st' = rooms st
  /\ coinsOf "A" st' = Some 1100%Z.
Proof.
  intros st st' room.
  assert (Hreg : roomsGet "r1" (rooms st) = Some 0) by by_compute.
  assert (Hroom : heap st !! 0 = Some room) by by_compute.
  assert (Hstatus : Room.status room = GAME_STATUS.PLAYING) by by_compute.
  assert (Hcount : playingCount (Room.players (marked 1 PLAYER_STATUS.LEFT room)) = 1)
    by by_compute.
  destruct (leave_room_last_opponent "sB" "r1" 1 st 0 room Hreg Hroom Hstatus Hcount)
    as (w & winner & _ & _ & Htimers & _ & Hrooms & _).
  fold st' in Htimers, Hrooms.
  split; [exact Hreg|]. split; [exact Hroom|]. split; [exact Hstatus|].
  split; [exact Hcount|]. split; [rewrite Htimers; by_compute|].
  split; [exact Hrooms|]. by_compute.
Defined.

(** Ann, alone in the queue, leaves the room. *)
Lemma leave_room_last_player_witness :
  let st := run aloneInQueue (initial false) in
  let st' := exec (leave_room "sA" "r1" 0) st in
  let room :=
    Room.mk "r1" "A" 100 4 GAME_STATUS.WAITING
      [Player.mk "A" "Ann" 0 "sA" PLAYER_STATUS.PLAYING 0]
      0 None (GameData.mk 0 []) in
  roomsGet "r1" (rooms st) = Some 0
  /\ heap st !! 0 = Some room
  /\ playingCount (Room.players (marked 0 PLAYER_STATUS.LEFT room)) = 0
  /\ roomsGet "r1" (rooms st') = None
  /\ store st' = store st
  /\ coinsOf "A" st' = Some 900%Z.
Proof.
  intros st st' room.
  assert (Hreg : roomsGet "r1" (rooms st) = Some 0) by by_compute.
  assert (Hroom : heap st !! 0 = Some room) by by_compute.
  assert (Hcount : playingCount (Room.players (marked 0 PLAYER_STATUS.LEFT room)) = 0)
    by by_compute.
  destruct (leave_room_last_player "sA" "r1" 0 st 0 room Hreg Hroom Hcount)
    as (_ & Hgone & _ & _ & _ & Hstore & _).
  fold st' in Hgone, Hstore.
  split; [exact Hreg|]. split; [exact Hroom|]. split; [exact Hcount|].
  split; [exact Hgone|]. split; [exact Hstore|]. by_compute.
Defined.

(** Ann passes the turn to Bob. *)
Lemma change_turn_passes_the_turn_witness :
  let st := run twoPlayerGame (initial false) in
  let st' := exec (change_turn "sA" "r1" 0) st in
  let room :=
    Room.mk "r1" "A" 100 2 GAME_STATUS.PLAYING
      [Player.mk "A" "Ann" 0 "sA" PLAYER_STATUS.PLAYING 0;
       Player.mk "B" "Bob" 1 "sB" PLAYER_STATUS.PLAYING 0]
      0 (Some 0) (GameData.mk 0 []) in
  roomsGet "r1" (rooms st) = Some 0
  /\ heap st !! 0 = Some room
  /\ getNextTurn room = Some 1
  /\ heap st' !! 0 = Some (Room.set_turnTimer (Some 1) (Room.set_currentTurn 1 room))
  /\ timers st' = [Timer.mk 1 TURN_TIMEOUT (TurnTimeout 0)].
Proof.
  intros st st' room.
  assert (Hreg : roomsGet "r1" (rooms st) = Some 0) by by_compute.
  assert (Hroom : heap st !! 0 = Some room) by by_compute.
  assert (Hnext : getNextTurn room = Some 1) by by_compute.
  destruct (change_turn_passes_the_turn "sA" "r1" 0 st 0 room Hreg Hroom) as [Hpass _].
  destruct (Hpass 1 Hnext) as (p & _ & _ & Hheap & Htimers & _).
  fold st' in Hheap, Htimers.
  split; [exact Hreg|]. split; [exact Hroom|]. split; [exact Hnext|].
  split; [rewrite Hheap; by_compute|rewrite Htimers; by_compute].
Defined.

(** Ann lets her first turn expire. *)
Lemma turnTimeout_below_third_strike_witness :
  let st := run twoPlayerGame (initial false) in
  let st' := exec (turnTimeout 0) st in
  let ann := Player.mk "A" "Ann" 0 "sA" PLAYER_STATUS.PLAYING 0 in
  let room :=
    Room.mk "r1" "A" 100 2 GAME_STATUS.PLAYING
      [ann; Player.mk "B" "Bob" 1 "sB" PLAYER_STATUS.PLAYING 0]
      0 (Some 0) (GameData.mk 0 []) in
  heap st !! 0 = Some room
  /\ Room.players room !! Room.currentTurn room = Some ann
  /\ Player.status ann = PLAYER_STATUS.PLAYING
  /\ S (Player.numoftimeout ann) < 3
  /\ store st' = store st
  /\ timers st' = [Timer.mk 1 TURN_TIMEOUT (TurnTimeout 0)].
Proof.
  intros st st' ann room.
  assert (Hroom : heap st !! 0 = Some room) by by_compute.
  assert (Hcur : Room.players room !! Room.currentTurn room = Some ann) by by_compute.
  assert (Hplaying : Player.status ann = PLAYER_STATUS.PLAYING) by by_compute.
  assert (Hlow : S (Player.numoftimeout ann) < 3) by by_compute.
  destruct (turnTimeout_below_third_strike 0 st room ann Hroom Hcur Hplaying Hlow)
    as (nextTurn & nextPlayer & _ & _ & _ & _ & Htimers & Hstore & _).
  fold st' in Htimers, Hstore.
  split; [exact Hroom|]. split; [exact Hcur|]. split; [exact Hplaying|].
  split; [exact Hlow|]. split; [exact Hstore|]. rewrite Htimers. by_compute.
Defined.

(** Ann's turn timer expires after the grace timer has marked her TIMEOUT. *)
Lemma turnTimeout_on_idle_seat_witness :
  let st := run annTimedOut (initial false) in
  let t := Timer.mk 0 TURN_TIMEOUT (TurnTimeout 0) in
  let room :=
    Room.mk "r1" "A" 100 2 GAME_STATUS.PLAYING
      [Player.mk "A" "Ann" 0 "sA" PLAYER_STATUS.TIMEOUT 0;
       Player.mk "B" "Bob" 1 "sB" PLAYER_STATUS.PLAYING 0]
      0 (Some 0) (GameData.mk 0 []) in
  pendingTimer 0 st = Some t
  /\ heap st !! 0 = Some room
  /\ exec (turnTimeout 0) st = st
  /\ step (Fire 0) st = set_timers (cancel (Some 0) (timers st)) st.
Proof.
  intros st t room.
  assert (Hpending : pendingTimer 0 st = Some t) by by_compute.
  assert (Hroom : heap st !! 0 = Some room) by by_compute.
  assert (Hidle : forall p, Room.players room !! Room.currentTurn room = Some p ->
                            Player.status p <> PLAYER_STATUS.PLAYING).
  { intros p Hp. vm_compute in Hp. injection Hp as <-. discriminate. }
  split; [exact Hpending|]. split; [exact Hroom|].
  exact (turnTimeout_on_idle_seat 0 t 0 st room Hpending eq_refl Hroom Hidle).
Defined.

(** Bob takes the second seat of Ann's 2-player room: the game starts. *)
Lemma request_join_takes_a_seat_witness :
  let st := run oneSeatLeft (initial false) in
  let st' := exec (request_join "sB" "B" "Bob" 100 2 "r2") st in
  let bob := User.mk "B" "Bob" 1000 1 0 0 0 in
  let room :=
    Room.mk "r1" "A" 100 2 GAME_STATUS.WAITING
      [Player.mk "A" "Ann" 0 "sA" PLAYER_STATUS.PLAYING 0]
      0 None (GameData.mk 0 []) in
  loadUser "B" st = Some bob
  /\ (100 <= User.coins bob)%Z
  /\ findAvailableRoom 100 2 st = Some 0
  /\ heap st !! 0 = Some room
  /\ loadUser "B" st' = Some (User.set_coins (User.coins bob - 100) bob)
  /\ timers st' = [Timer.mk 0 TURN_TIMEOUT (TurnTimeout 0)].
Proof.
  intros st st' bob room.
  assert (Hu : loadUser "B" st = Some bob) by by_compute.
  assert (Hc : (100 <= User.coins bob)%Z) by by_compute.
  assert (Hf : findAvailableRoom 100 2 st = Some 0) by by_compute.
  assert (Hroom : heap st !! 0 = Some room) by by_compute.
  destruct (request_join_takes_a_seat "sB" "B" "Bob" 100 2 "r2" st bob 0 room Hu Hc Hf Hroom)
    as (Hload & _ & _ & _ & _ & Hfull).
  destruct (Hfull eq_refl) as (_ & Htimers & _).
  fold st' in Hload, Htimers.
  split; [exact Hu|]. split; [exact Hc|]. split; [exact Hf|]. split; [exact Hroom|].
  split; [exact Hload|]. rewrite Htimers. by_compute.
Defined.

(** Bob joins Ann's friend room: the game starts with no timer. *)
Lemma friend_join_room_takes_a_seat_witness :
  let st := run friendRoom (initial false) in
  let st' := exec (friend_join_room "sB" "B" "Bob" "ABC123") st in
  let bob := User.mk "B" "Bob" 1000 1 0 0 0 in
  let room :=
    Room.mk "ABC123" "A" 100 2 GAME_STATUS.WAITING
      [Player.mk "A" "Ann" 0 "sA" PLAYER_STATUS.PLAYING 0]
      0 None (GameData.mk 0 []) in
  roomsGet "ABC123" (rooms st) = Some 0
  /\ heap st !! 0 = Some room
  /\ (Z.of_nat (length (Room.players room)) < Room.maxPlayers room)%Z
  /\ users st !! "B" = Some bob
  /\ (Room.betAmount room <= User.coins bob)%Z
  /\ Room.status room = GAME_STATUS.WAITING
  /\ timers st' = timers st
  /\ statusOf "ABC123" st' = Some GAME_STATUS.PLAYING.
Proof.
  intros st st' bob room.
  assert (Hreg : roomsGet "ABC123" (rooms st) = Some 0) by by_compute.
  assert (Hroom : heap st !! 0 = Some room) by by_compute.
  assert (Hfree : (Z.of_nat (length (Room.players room)) < Room.maxPlayers room)%Z)
    by by_compute.
  assert (Hu : users st !! "B" = Some bob) by by_compute.
  assert (Hc : (Room.betAmount room <= User.coins bob)%Z) by by_compute.
  assert (Hst : Room.status room = GAME_STATUS.WAITING) by by_compute.
  destruct (friend_join_room_takes_a_seat "sB" "B" "Bob" "ABC123" st 0 room bob
              Hreg Hroom Hfree Hu Hc Hst) as (_ & Htimers & _).
  fold st' in Htimers.
  split; [exact Hreg|]. split; [exact Hroom|]. split; [exact Hfree|]. split; [exact Hu|].
  split; [exact Hc|]. split; [exact Hst|]. split; [exact Htimers|]. by_compute.
Defined.

(** Ann creates a friend room without a code: it is open to matchmaking. *)
Lemma friend_create_room_registers_witness :
  let st := run twoUsers (initial false) in
  let st' := exec (friend_create_room "sA" "A" "Ann" 100 2 None "X1Y2Z3") st in
  let ann := User.mk "A" "Ann" 1000 1 0 0 0 in
  users st !! "A" = Some ann
  /\ (100 <= User.coins ann)%Z
  /\ roomsGet "X1Y2Z3" (rooms st') = Some 0
  /\ findAvailableRoom 100 2 st' = Some 0.
Proof.
  intros st st' ann.
  assert (Hu : users st !! "A" = Some ann) by by_compute.
  assert (Hc : (100 <= User.coins ann)%Z) by by_compute.
  assert (Hnone : findAvailableRoom 100 2 st = None) by by_compute.
  destruct (friend_create_room_registers "sA" "A" "Ann" 100 2 None "X1Y2Z3" st ann Hu Hc)
    as (_ & _ & _ & Hget & _ & _ & _ & _ & Hopen).
  fold st' in Hget, Hopen.
  split; [exact Hu|]. split; [exact Hc|]. split; [rewrite Hget; by_compute|].
  rewrite (Hopen eq_refl Hnone). by_compute.
Defined.

(** Bob comes back to the game on a new socket. *)
Lemma get_previous_room_rebinds_witness :
  let st := run twoPlayerGame (initial false) in
  let st' := exec (get_previous_room "sB2" "r1" "B") st in
  let bob := Player.mk "B" "Bob" 1 "sB" PLAYER_STATUS.PLAYING 0 in
  let room :=
    Room.mk "r1" "A" 100 2 GAME_STATUS.PLAYING
      [Player.mk "A" "Ann" 0 "sA" PLAYER_STATUS.PLAYING 0; bob]
      0 (Some 0) (GameData.mk 0 []) in
  roomsGet "r1" (rooms st) = Some 0
  /\ heap st !! 0 = Some room
  /\ findWith (fun p => String.eqb (Player.userId p) "B") (Room.players room) = Some (1, bob)
  /\ heap st' !! 0
     = Some (Room.set_players (<[1 := Player.set_socketId "sB2" bob]> (Room.players room))
                              room)
  /\ timers st' = timers st.
Proof.
  intros st st' bob room.
  assert (Hreg : roomsGet "r1" (rooms st) = Some 0) by by_compute.
  assert (Hroom : heap st !! 0 = Some room) by by_compute.
  assert (Hfind : findWith (fun p => String.eqb (Player.userId p) "B") (Room.players room)
                  = Some (1, bob)) by by_compute.
  destruct (get_previous_room_rebinds "sB2" "r1" "B" st 0 room Hreg Hroom) as [Hfound _].
  destruct (Hfound 1 bob Hfind) as (Hheap & _ & Htimers & _).
  fold st' in Hheap, Htimers.
  split; [exact Hreg|]. split; [exact Hroom|]. split; [exact Hfind|].
  split; [exact Hheap|exact Htimers].
Defined.

(** Ann asks for her profile twice on a fresh server. *)
Lemma get_userdata_creates_then_serves_witness :
  let st := initial false in
  let st1 := exec (get_userdata "sA" "A" "Ann") st in
  loadUser "A" st = None
  /\ loadUser "A" st1 = Some (User.mk "A" "Ann" 1000 1 0 0 0)
  /\ outbox (exec (get_userdata "sA" "A" "Ann") st1)
     = [mkEmit (ToSocket "sA") (error_msg "Failed to get user data");
        mkEmit (ToSocket "sA") (user_data_msg (User.mk "A" "Ann" 1000 1 0 0 0))].
Proof.
  intros st st1.
  assert (Hnone : loadUser "A" st = None) by by_compute.
  destruct (get_userdata_creates_then_serves "sA" "A" "Ann" "sA" "Ann" st Hnone)
    as (Hload & _ & _ & Hnext).
  fold st1 in Hload, Hnext.
  split; [exact Hnone|]. split; [exact Hload|]. rewrite Hnext. by_compute.
Defined.

Lemma unknown_room_is_ignored_witness :
  let st := run twoPlayerGame (initial false) in
  roomsGet "nowhere" (rooms st) = None
  /\ exec (leave_room "sA" "nowhere" 0) st = st.
Proof.
  intros st.
  assert (Hnone : roomsGet "nowhere" (rooms st) = None) by by_compute.
  destruct (unknown_room_is_ignored "sA" "nowhere" 0 0 0 st Hnone) as (_ & _ & _ & _ & Hleave).
  split; [exact Hnone|exact Hleave].
Defined.

(** Ann, who has 9 wins, wins a 2-player game against Bob, who timed out:
    her tenth win takes her to level 2; Bob gets a loss. *)
Lemma updatePlayerCoinsAndStats_per_user_witness :
  let st :=
    set_users (<["A" := User.mk "A" "Ann" 900 1 9 3 12]>
                 (<["B" := User.mk "B" "Bob" 900 1 0 0 0]> ∅)) (initial false) in
  let ann := Result.mk "Ann" "A" 200 1 PLAYER_STATUS.WIN in
  let bob := Result.mk "Bob" "B" 0 2 PLAYER_STATUS.TIMEOUT in
  let results := [ann; bob] in
  let st' := exec (updatePlayerCoinsAndStats results) st in
  NoDup (Result.user_id <$> results)
  /\ loadUser "A" st = Some (User.mk "A" "Ann" 900 1 9 3 12)
  /\ loadUser "B" st = Some (User.mk "B" "Bob" 900 1 0 0 0)
  /\ loadUser "A" st' = Some (User.mk "A" "Ann" 1100 2 10 3 13)
  /\ loadUser "B" st' = Some (User.mk "B" "Bob" 900 1 0 1 1).
Proof.
  intros st ann bob results st'.
  assert (Hnd : NoDup (Result.user_id <$> results)).
  { apply (bool_decide_unpack _). by_compute. }
  assert (Ha : loadUser "A" st = Some (User.mk "A" "Ann" 900 1 9 3 12)) by by_compute.
  assert (Hb : loadUser "B" st = Some (User.mk "B" "Bob" 900 1 0 0 0)) by by_compute.
  destruct (updatePlayerCoinsAndStats_per_user results st Hnd) as (Hknown & _).
  assert (Hina : ann ∈ results) by left.
  assert (Hinb : bob ∈ results) by (right; left).
  destruct (Hknown ann _ Hina Ha) as [Hloada _].
  destruct (Hknown bob _ Hinb Hb) as [Hloadb _].
  fold st' in Hloada, Hloadb.
  split; [exact Hnd|]. split; [exact Ha|]. split; [exact Hb|].
  split; [exact Hloada|exact Hloadb].
Defined.

(** A 3-player room in which two players are WIN. *)
Lemma calculateGameResults_other_sizes_witness :
  let room :=
    Room.mk "r" "A" 50 3 GAME_STATUS.FINISHED
      [Player.mk "A" "Ann" 0 "sA" PLAYER_STATUS.WIN 0;
       Player.mk "B" "Bob" 1 "sB" PLAYER_STATUS.WIN 0;
       Player.mk "C" "Cy" 2 "sC" PLAYER_STATUS.PLAYING 0]
      0 None (GameData.mk 0 []) in
  Room.maxPlayers room <> 2%Z
  /\ Room.maxPlayers room <> 4%Z
  /\ totalWinning (calculateGameResults room) = 0%Z.
Proof.
  intros room.
  assert (H2 : Room.maxPlayers room <> 2%Z) by discriminate.
  assert (H4 : Room.maxPlayers room <> 4%Z) by discriminate.
  destruct (calculateGameResults_other_sizes room H2 H4) as [_ Htotal].
  split; [exact H2|]. split; [exact H4|exact Htotal].
Defined.

(** Ann, alone in the queue, cancels matchmaking. *)
Lemma remove_from_matchmaking_effect_witness :
  let st := run aloneInQueue (initial false) in
  let st' := exec (remove_from_matchmaking "sA" "A") st in
  let ann := Player.mk "A" "Ann" 0 "sA" PLAYER_STATUS.PLAYING 0 in
  let room := Room.mk "r1" "A" 100 4 GAME_STATUS.WAITING [ann] 0 None (GameData.mk 0 []) in
  rooms st = ([] ++ ("r1", 0) :: [])%list
  /\ heap st !! 0 = Some room
  /\ Room.status room = GAME_STATUS.WAITING
  /\ findWith (fun q => String.eqb (Player.userId q) "A") (Room.players room) = Some (0, ann)
  /\ rooms st' = []
  /\ coinsOf "A" st' = Some 900%Z.
Proof.
  intros st st' ann room.
  assert (Hrooms : rooms st = ([] ++ ("r1", 0) :: [])%list) by by_compute.
  assert (Hroom : heap st !! 0 = Some room) by by_compute.
  assert (Hst : Room.status room = GAME_STATUS.WAITING) by by_compute.
  assert (Hfind : findWith (fun q => String.eqb (Player.userId q) "A") (Room.players room)
                  = Some (0, ann)) by by_compute.
  assert (Hpre : forall (key' : string) (ref' : nat) (room' : Room.t),
             In (key', ref') [] -> heap st !! ref' = Some room' ->
             Room.status room' = GAME_STATUS.WAITING ->
             findWith (fun q => String.eqb (Player.userId q) "A") (Room.players room') = None)
    by (intros ? ? ? []).
  destruct (remove_from_matchmaking_effect "sA" "A" st [] "r1" 0 [] room 0 ann
              Hrooms Hpre Hroom Hst Hfind) as (_ & Hreg & _).
  fold st' in Hreg.
  split; [exact Hrooms|]. split; [exact Hroom|]. split; [exact Hst|]. split; [exact Hfind|].
  split; [rewrite Hreg; by_compute|by_compute].
Defined.

(** Ann registers on socket sA, then again on socket sA2; sA closes.  A
    client registers on socket sE with the empty user id; sE closes. *)
Lemma disconnect_forgets_the_user_witness :
  let st := run [Recv "sA" (E_add_user "A" "Ann"); Recv "sA2" (E_add_user "A" "Ann")]
                (initial false) in
  let st0 := run [Recv "sE" (E_add_user EmptyString "Eve")] (initial false) in
  Socket.userId (getSocket "sA" st) = Some "A"
  /\ userSockets st !! "A" = Some "sA2"
  /\ userSockets (exec (disconnect "sA") st) !! "A" = None
  /\ Socket.userId (getSocket "sE" st0) = Some EmptyString
  /\ userSockets st0 !! EmptyString = Some "sE"
  /\ userSockets (exec (disconnect "sE") st0) !! EmptyString = Some "sE".
Proof.
  intros st st0.
  assert (Hu : Socket.userId (getSocket "sA" st) = Some "A") by by_compute.
  assert (Hmap : userSockets st !! "A" = Some "sA2") by by_compute.
  assert (Hne : "A" <> EmptyString) by discriminate.
  assert (Hu0 : Socket.userId (getSocket "sE" st0) = Some EmptyString) by by_compute.
  assert (Hmap0 : userSockets st0 !! EmptyString = Some "sE") by by_compute.
  destruct (disconnect_forgets_the_user "sA" st) as [Hforget _].
  destruct (Hforget "A" Hu Hne) as [Hgone _].
  destruct (disconnect_forgets_the_user "sE" st0) as [_ Hkept].
  split; [exact Hu|]. split; [exact Hmap|]. split; [exact Hgone|].
  split; [exact Hu0|]. split; [exact Hmap0|].
  rewrite (Hkept (or_introl Hu0)). exact Hmap0.
Defined.

(** The room of the 2-player game, once Ann has won. *)
Lemma room_status_moves_forward_witness :
  let st := run twoPlayerGame (initial false) in
  let room :=
    Room.mk "r1" "A" 100 2 GAME_STATUS.PLAYING
      [Player.mk "A" "Ann" 0 "sA" PLAYER_STATUS.PLAYING 0;
       Player.mk "B" "Bob" 1 "sB" PLAYER_STATUS.PLAYING 0]
      0 (Some 0) (GameData.mk 0 []) in
  let requests := [Loop (Recv "sA" (E_win_game "r1" 0 1))] in
  heap st !! 0 = Some room
  /\ exists room',
       heap (serveAll requests st) !! 0 = Some room'
       /\ Room.roomId room' = Room.roomId room
       /\ Room.hostUserId room' = Room.hostUserId room
       /\ Room.betAmount room' = Room.betAmount room
       /\ Room.maxPlayers room' = Room.maxPlayers room
       /\ statusRank (Room.status room) <= statusRank (Room.status room').
Proof.
  intros st room requests.
  assert (Hroom : heap st !! 0 = Some room) by by_compute.
  split; [exact Hroom|].
  exact (room_status_moves_forward requests st 0 room Hroom).
Defined.

(** Ann rolls a 6 and moves a token in the 2-player game. *)
Lemma dice_send_then_token_send_witness :
  let st := run twoPlayerGame (initial false) in
  let st2 := exec (token_send "sA" "r1" 0 2 6) (exec (dice_send "sA" "r1" 0 6) st) in
  let room :=
    Room.mk "r1" "A" 100 2 GAME_STATUS.PLAYING
      [Player.mk "A" "Ann" 0 "sA" PLAYER_STATUS.PLAYING 0;
       Player.mk "B" "Bob" 1 "sB" PLAYER_STATUS.PLAYING 0]
      0 (Some 0) (GameData.mk 0 []) in
  roomsGet "r1" (rooms st) = Some 0
  /\ heap st !! 0 = Some room
  /\ outbox st2
     = (outbox st
          ++ [mkEmit (ToRoomExcept "r1" "sA") (dice_recieved_msg 0 6);
              mkEmit (ToRoomExcept "r1" "sA") (token_recieved_msg 0 2 6 6)])%list.
Proof.
  intros st st2 room.
  assert (Hreg : roomsGet "r1" (rooms st) = Some 0) by by_compute.
  assert (Hroom : heap st !! 0 = Some room) by by_compute.
  destruct (dice_send_then_token_send "sA" "sA" "r1" 0 6 0 2 6 st 0 room Hreg Hroom)
    as (_ & _ & _ & Hout).
  fold st2 in Hout.
  split; [exact Hreg|]. split; [exact Hroom|]. exact Hout.
Defined.

(** Ann and Bob each let two turns expire; the fifth expiry is Ann's third
    strike, which leaves Bob as the only PLAYING player: he is marked WIN,
    and the 2000 ms callback pays him 200, counts his win and Ann's loss,
    and announces the results. *)
Lemma turnTimeout_third_strike_witness :
  let st := run (twoPlayerGame ++ [Fire 0; Fire 1; Fire 2; Fire 3]) (initial false) in
  let st' := exec (turnTimeout 0) st in
  let st'' := exec (runCallback (DelayedGameOver 0)) st' in
  let ann := Player.mk "A" "Ann" 0 "sA" PLAYER_STATUS.PLAYING 2 in
  let bob := Player.mk "B" "Bob" 1 "sB" PLAYER_STATUS.PLAYING 2 in
  let room :=
    Room.mk "r1" "A" 100 2 GAME_STATUS.PLAYING [ann; bob] 0 (Some 4) (GameData.mk 0 []) in
  let results :=
    [Result.mk "Bob" "B" 200 1 PLAYER_STATUS.WIN;
     Result.mk "Ann" "A" 0 2 PLAYER_STATUS.TIMEOUT] in
  heap st !! 0 = Some room
  /\ Room.players room !! Room.currentTurn room = Some ann
  /\ Player.status ann = PLAYER_STATUS.PLAYING
  /\ 3 <= S (Player.numoftimeout ann)
  /\ playingCount (Room.players (struckOut room ann)) = 1
  /\ timers st' = [Timer.mk 5 2000 (DelayedGameOver 0)]
  /\ store st' = store st
  /\ loadUser "A" st' = Some (User.mk "A" "Ann" 900 1 0 0 0)
  /\ loadUser "B" st' = Some (User.mk "B" "Bob" 900 1 0 0 0)
  /\ (exists user,
        loadUser "A" st'' = Some user
        /\ User.coins user = 900%Z /\ User.level user = 1%Z /\ User.winCount user = 0%Z
        /\ User.lostCount user = 1%Z /\ User.totalGamesPlayed user = 1%Z)
  /\ (exists user,
        loadUser "B" st'' = Some user
        /\ User.coins user = 1100%Z /\ User.level user = 1%Z /\ User.winCount user = 1%Z
        /\ User.lostCount user = 0%Z /\ User.totalGamesPlayed user = 1%Z)
  /\ outbox st'' = (outbox st' ++ [mkEmit (ToRoom "r1") (game_over_msg results)])%list.
Proof.
  intros st st' st'' ann bob room results.
  assert (Hroom : heap st !! 0 = Some room) by by_compute.
  assert (Hcur : Room.players room !! Room.currentTurn room = Some ann) by by_compute.
  assert (Hplaying : Player.status ann = PLAYER_STATUS.PLAYING) by by_compute.
  assert (Hthird : 3 <= S (Player.numoftimeout ann)) by by_compute.
  assert (Hone : playingCount (Room.players (struckOut room ann)) = 1) by by_compute.
  assert (Hsurvivor : findWith is_playing (Room.players (struckOut room ann)) = Some (1, bob))
    by by_compute.
  assert (Ha : loadUser "A" st' = Some (User.mk "A" "Ann" 900 1 0 0 0)) by by_compute.
  assert (Hb : loadUser "B" st' = Some (User.mk "B" "Bob" 900 1 0 0 0)) by by_compute.
  destruct (turnTimeout_third_strike 0 st room ann Hroom Hcur Hplaying Hthird)
    as (_ & Hlast & _).
  destruct (Hlast Hone) as (w & winner & Hfind & Hrest).
  rewrite Hsurvivor in Hfind. injection Hfind as <- <-. cbv zeta in Hrest.
  destruct Hrest as (_ & Htimers & Hstore & _ & _ & [_ Hsettled] & _ & Hout).
  fold st' in Htimers, Hstore, Hsettled, Hout. fold st'' in Hsettled, Hout.
  pose proof (Hsettled "A") as HA. rewrite Ha in HA. destruct HA as (userA & HloadA & HbookA).
  pose proof (Hsettled "B") as HB. rewrite Hb in HB. destruct HB as (userB & HloadB & HbookB).
  vm_compute in HbookA. destruct HbookA as (_ & _ & HA1 & HA2 & HA3 & HA4 & HA5).
  vm_compute in HbookB. destruct HbookB as (_ & _ & HB1 & HB2 & HB3 & HB4 & HB5).
  split; [exact Hroom|]. split; [exact Hcur|]. split; [exact Hplaying|].
  split; [exact Hthird|]. split; [exact Hone|].
  split; [rewrite Htimers; by_compute|]. split; [exact Hstore|].
  split; [exact Ha|]. split; [exact Hb|].
  split; [exists userA; repeat split; assumption|].
  split; [exists userB; repeat split; assumption|].
  rewrite Hout. by_compute.
Defined.

(** Ann wins the 2-player game: she is paid 200 and has a win, Bob has a
    loss, and the results go to the room. *)
Lemma win_game_transition_witness :
  let st := run twoPlayerGame (initial false) in
  let st' := exec (win_game "sA" "r1" 0 1) st in
  let room :=
    Room.mk "r1" "A" 100 2 GAME_STATUS.PLAYING
      [Player.mk "A" "Ann" 0 "sA" PLAYER_STATUS.PLAYING 0;
       Player.mk "B" "Bob" 1 "sB" PLAYER_STATUS.PLAYING 0]
      0 (Some 0) (GameData.mk 0 []) in
  let results :=
    [Result.mk "Ann" "A" 200 1 PLAYER_STATUS.WIN;
     Result.mk "Bob" "B" 0 2 PLAYER_STATUS.PLAYING] in
  roomsGet "r1" (rooms st) = Some 0
  /\ heap st !! 0 = Some room
  /\ Room.status room = GAME_STATUS.PLAYING
  /\ playingCount (Room.players (marked 0 PLAYER_STATUS.WIN room)) <= 1
  /\ heap st' !! 0
     = Some (Room.set_turnTimer None
               (Room.set_status GAME_STATUS.FINISHED (marked 0 PLAYER_STATUS.WIN room)))
  /\ timers st' = [Timer.mk 1 10000 (RoomCleanup "r1")]
  /\ loadUser "A" st = Some (User.mk "A" "Ann" 900 1 0 0 0)
  /\ loadUser "B" st = Some (User.mk "B" "Bob" 900 1 0 0 0)
  /\ (exists user,
        loadUser "A" st' = Some user
        /\ User.coins user = 1100%Z /\ User.level user = 1%Z /\ User.winCount user = 1%Z
        /\ User.lostCount user = 0%Z /\ User.totalGamesPlayed user = 1%Z)
  /\ (exists user,
        loadUser "B" st' = Some user
        /\ User.coins user = 900%Z /\ User.level user = 1%Z /\ User.winCount user = 0%Z
        /\ User.lostCount user = 1%Z /\ User.totalGamesPlayed user = 1%Z)
  /\ calculateGameResults (marked 0 PLAYER_STATUS.WIN room) = results
  /\ outbox st'
     = (outbox st ++ [mkEmit (ToRoomExcept "r1" "sA") (win_game_msg 0);
                      mkEmit (ToRoom "r1") (game_over_msg results)])%list.
Proof.
  intros st st' room results.
  assert (Hreg : roomsGet "r1" (rooms st) = Some 0) by by_compute.
  assert (Hroom : heap st !! 0 = Some room) by by_compute.
  assert (Hstatus : Room.status room = GAME_STATUS.PLAYING) by by_compute.
  assert (Hcount : playingCount (Room.players (marked 0 PLAYER_STATUS.WIN room)) <= 1)
    by by_compute.
  assert (Ha : loadUser "A" st = Some (User.mk "A" "Ann" 900 1 0 0 0)) by by_compute.
  assert (Hb : loadUser "B" st = Some (User.mk "B" "Bob" 900 1 0 0 0)) by by_compute.
  destruct (win_game_transition "sA" "r1" 0 1 st 0 room Hreg Hroom Hstatus) as [Hfinish _].
  destruct (Hfinish Hcount) as (Hheap & Htimers & _ & [_ Hsettled] & Hranked & Hout & _).
  fold st' in Hheap, Htimers, Hsettled, Hout.
  pose proof (Hsettled "A") as HA. rewrite Ha in HA. destruct HA as (userA & HloadA & HbookA).
  pose proof (Hsettled "B") as HB. rewrite Hb in HB. destruct HB as (userB & HloadB & HbookB).
  vm_compute in HbookA. destruct HbookA as (_ & _ & HA1 & HA2 & HA3 & HA4 & HA5).
  vm_compute in HbookB. destruct HbookB as (_ & _ & HB1 & HB2 & HB3 & HB4 & HB5).
  split; [exact Hreg|]. split; [exact Hroom|]. split; [exact Hstatus|].
  split; [exact Hcount|]. split; [exact Hheap|].
  split; [rewrite Htimers; by_compute|].
  split; [exact Ha|]. split; [exact Hb|].
  split; [exists userA; repeat split; assumption|].
  split; [exists userB; repeat split; assumption|].
  split; [rewrite Hranked; by_compute|].
  rewrite Hout. by_compute.
Defined.

(** Bob's socket closes during the 2-player game, which starts the grace
    timer (handle 1); the close of a socket that holds no seat starts
    none.  Bob reconnects on a new socket before the timer expires, and
    the expiry changes nothing. *)
Lemma disconnect_grace_witness :
  let st0 := run twoPlayerGame (initial false) in
  let st := exec (disconnect "sB") st0 in
  let st1 := exec (get_previous_room "sB2" "r1" "B") st in
  let bob := Player.mk "B" "Bob" 1 "sB" PLAYER_STATUS.PLAYING 0 in
  let room :=
    Room.mk "r1" "A" 100 2 GAME_STATUS.PLAYING
      [Player.mk "A" "Ann" 0 "sA" PLAYER_STATUS.PLAYING 0; bob]
      0 (Some 0) (GameData.mk 0 []) in
  holdsSeat "sB" st0 "r1" 0 room 1 bob
  /\ timers st
     = [Timer.mk 0 TURN_TIMEOUT (TurnTimeout 0);
        Timer.mk 1 30000 (DisconnectGrace "sB" "r1" "B" 1)]
  /\ timers (exec (disconnect "sC") st0) = timers st0
  /\ Socket.currentRoomId (getSocket "sB" st) = Some "r1"
  /\ "sB2" <> "sB"
  /\ pendingTimer 1 st1 = Some (Timer.mk 1 30000 (DisconnectGrace "sB" "r1" "B" 1))
  /\ exec (runCallback (DisconnectGrace "sB" "r1" "B" 1)) st1 = st1.
Proof.
  intros st0 st st1 bob room.
  assert (Hseat : holdsSeat "sB" st0 "r1" 0 room 1 bob).
  { split; [by_compute|]. split; [discriminate|]. split; [by_compute|].
    split; [by_compute|]. split; [by_compute|]. split; [reflexivity|].
    intros j q Hj Hq. destruct j as [|j]; [|lia].
    injection Hq as <-. discriminate. }
  assert (Hnone : forall rid ref room i player, ~ holdsSeat "sC" st0 rid ref room i player).
  { intros rid ref room' i player (Hsock & _). vm_compute in Hsock. discriminate. }
  assert (Hsock : Socket.currentRoomId (getSocket "sB" st) = Some "r1") by by_compute.
  assert (Hne : "sB2" <> "sB") by discriminate.
  assert (Hpending : pendingTimer 1 st1
                     = Some (Timer.mk 1 30000 (DisconnectGrace "sB" "r1" "B" 1)))
    by by_compute.
  destruct (disconnect_grace "sB" st0) as (Hstarts & _).
  destruct (disconnect_grace "sC" st0) as (_ & Honly & _).
  destruct (disconnect_grace "sB" st) as (_ & _ & _ & Hreconnect).
  split; [exact Hseat|].
  split; [refine (eq_trans (Hstarts "r1" 0 room 1 bob Hseat) _); by_compute|].
  split; [exact (proj1 (Honly Hnone))|].
  split; [exact Hsock|]. split; [exact Hne|]. split; [exact Hpending|].
  exact (Hreconnect "r1" "sB2" "B" "r1" 1%Z Hsock Hne).
Defined.
